(** * Fix&Furn concierge: tools.py and the orchestration loop of app.py

    A shallow embedding of the product lookup, the reference-dataset search,
    the repair estimator, the tool dispatcher and the tool-calling loop,
    followed by the properties the specification states about them. *)

From Stdlib Require Import List Bool Arith ZArith QArith NArith Lia.
From Stdlib Require Import Qpower Qabs Lqa.
From Stdlib Require Import Ascii String DecimalString.
From Stdlib Require Import Sorting.Sorted Permutation.
Import ListNotations.

Open Scope string_scope.
Open Scope list_scope.

(* ================================================================== *)
(** ** Python text

    A [str] is modelled by [string]; a character stands for a code point
    below 256, so the classifications below are those of Python on the
    Latin-1 range. *)

Module PyStr.

Definition code (c : ascii) : N := N_of_ascii c.

Definition between (lo hi n : N) : bool := (lo <=? n)%N && (n <=? hi)%N.

(** [str.isspace] on one character, also the class [\s] of [re]. *)
Definition isspace (c : ascii) : bool :=
let n := code c in
between 9 13 n || between 28 32 n || (n =? 133)%N || (n =? 160)%N.

(** Upper-case letters: A-Z and the Latin-1 capitals (all but the
  multiplication sign at 215). *)
Definition isupper (c : ascii) : bool :=
let n := code c in
between 65 90 n || between 192 214 n || between 216 222 n.

Definition lower_char (c : ascii) : ascii :=
if isupper c then ascii_of_N (code c + 32) else c.

(** The class [\w] of [re] on [str] patterns: alphanumeric or underscore. *)
Definition isword (c : ascii) : bool :=
let n := code c in
between 48 57 n || between 65 90 n || (n =? 95)%N || between 97 122 n
|| (n =? 170)%N || between 178 179 n || (n =? 181)%N || between 185 186 n
|| between 188 190 n || between 192 214 n || between 216 246 n
|| between 248 255 n.

Fixpoint lower (s : string) : string :=
match s with
| EmptyString => EmptyString
| String c s' => String (lower_char c) (lower s')
end.

Fixpoint lstrip (s : string) : string :=
match s with
| EmptyString => EmptyString
| String c s' => if isspace c then lstrip s' else s
end.

Fixpoint rstrip (s : string) : string :=
match s with
| EmptyString => EmptyString
| String c s' =>
    match rstrip s' with
    | EmptyString => if isspace c then EmptyString else String c EmptyString
    | r => String c r
    end
end.

(** [s.strip()] *)
Definition strip (s : string) : string := rstrip (lstrip s).

(** [not s] for a [str]. *)
Definition is_empty (s : string) : bool :=
match s with EmptyString => true | _ => false end.

(** [s.startswith(p)] *)
Fixpoint startswith (p s : string) : bool :=
match p with
| EmptyString => true
| String a p' =>
    match s with
    | EmptyString => false
    | String b s' => Ascii.eqb a b && startswith p' s'
    end
end.

(** [q in s] *)
Fixpoint contains (s q : string) : bool :=
startswith q s ||
match s with
| EmptyString => false
| String _ s' => contains s' q
end.

(** [sep.join(parts)] *)
Fixpoint join (sep : string) (parts : list string) : string :=
match parts with
| [] => EmptyString
| [p] => p
| p :: rest => p ++ sep ++ join sep rest
end.

(** [re.split(r"\W+", s)]: the pieces between maximal runs of non-word
  characters; [cur] is the piece being read and [in_sep] tells that the
  previous character belonged to a separator. *)
Fixpoint split_nonword_from (cur : string) (in_sep : bool) (s : string)
: list string :=
match s with
| EmptyString => [cur]
| String c s' =>
    if isword c then split_nonword_from (cur ++ String c EmptyString) false s'
    else if in_sep then split_nonword_from EmptyString true s'
    else cur :: split_nonword_from EmptyString true s'
end.

Definition split_nonword (s : string) : list string :=
split_nonword_from EmptyString false s.

(** [re.sub(r"\s+", " ", s)] *)
Fixpoint collapse_spaces_from (in_run : bool) (s : string) : string :=
match s with
| EmptyString => EmptyString
| String c s' =>
    if isspace c then
      if in_run then collapse_spaces_from true s'
      else String " " (collapse_spaces_from true s')
    else String c (collapse_spaces_from false s')
end.

Definition collapse_spaces (s : string) : string :=
collapse_spaces_from false s.

(** Comparison of [str] values: lexicographic on code points. *)
Definition str_leb (a b : string) : bool := String.leb a b.

End PyStr.

Import PyStr.

(* ================================================================== *)
(** ** Python values, dicts and exceptions *)

(** A [float]: a binary64 number.  A finite one is written as the rational
    it denotes, so the sign of a zero is not kept. *)
Inductive pyfloat : Type :=
| Finite (q : Q)
| Infinity (negative : bool)
| NaN.

Coercion Finite : Q >-> pyfloat.

(** JSON-like values: what tool arguments, catalog fields and tool results
    are made of. *)
#[warnings="-register-all"]
Inductive value : Type :=
| VNone
| VBool (b : bool)
| VInt (z : Z)
| VFloat (x : pyfloat)
| VStr (s : string)
| VList (l : list value)
| VDict (d : list (string * value)).

(** A [dict] with [str] keys, in insertion order; keys are distinct. *)
Definition pydict (V : Type) : Type := list (string * V).
Definition dict : Type := pydict value.

Module PyDict.
Section Ops.
Context {V : Type}.

(** [d.get(k)] *)
Fixpoint get (k : string) (d : pydict V) : option V :=
  match d with
  | [] => None
  | (k', v) :: d' => if String.eqb k k' then Some v else get k d'
  end.

(** [k in d] *)
Definition mem (k : string) (d : pydict V) : bool :=
  match get k d with Some _ => true | None => false end.

(** [d[k] = v]: an existing key keeps its place, a new one goes last. *)
Fixpoint set (k : string) (v : V) (d : pydict V) : pydict V :=
  match d with
  | [] => [(k, v)]
  | (k', v') :: d' =>
      if String.eqb k k' then (k', v) :: d' else (k', v') :: set k v d'
  end.

Definition keys (d : pydict V) : list string := map fst d.
Definition values (d : pydict V) : list V := map snd d.
End Ops.
End PyDict.

(** [bool(v)] *)
Definition truthy (v : value) : bool :=
  match v with
  | VNone => false
  | VBool b => b
  | VInt z => negb (z =? 0)%Z
  | VFloat (Finite q) => negb (Qeq_bool q 0)
  | VFloat _ => true
  | VStr s => negb (is_empty s)
  | VList l => match l with [] => false | _ => true end
  | VDict d => match d with [] => false | _ => true end
  end.

(** [a or b] *)
Definition py_or (a b : value) : value := if truthy a then a else b.

Definition type_name (v : value) : string :=
  match v with
  | VNone => "NoneType"
  | VBool _ => "bool"
  | VInt _ => "int"
  | VFloat _ => "float"
  | VStr _ => "str"
  | VList _ => "list"
  | VDict _ => "dict"
  end.

Inductive exn : Type :=
| TypeError (text : string)
| AttributeError (text : string)
| ValueError (text : string)
| OverflowError (text : string)
| ZeroDivisionError (text : string)
| UpstreamError (text : string).

Inductive outcome (A : Type) : Type :=
| Ret (a : A)
| Raise (e : exn).
Arguments Ret {A} a.
Arguments Raise {A} e.

Definition bind {A B : Type} (m : outcome A) (k : A -> outcome B) : outcome B :=
  match m with
  | Ret a => k a
  | Raise e => Raise e
  end.

Notation "x <- m ;; k" := (bind m (fun x => k))
  (at level 61, m at next level, right associativity).

Definition no_attribute (v : value) (attr : string) : exn :=
  AttributeError ("'" ++ type_name v ++ "' object has no attribute '" ++ attr ++ "'").

(** [v.strip()] on an arbitrary value: only a [str] has the method. *)
Definition v_strip (v : value) : outcome string :=
  match v with
  | VStr s => Ret (strip s)
  | _ => Raise (no_attribute v "strip")
  end.

(** Path lookup [d[k1][k2]...] in a nested result. *)
Fixpoint at_path (path : list string) (v : value) : option value :=
  match path with
  | [] => Some v
  | k :: rest =>
      match v with
      | VDict d =>
          match PyDict.get k d with
          | Some v' => at_path rest v'
          | None => None
          end
      | _ => None
      end
  end.

(* ================================================================== *)
(** ** Module state of tools.py *)

(** A curated catalog entry of catalog.json.  The code reads [sku], [name],
    [category] and [color_options] with [dict.get] and a default, so each may
    be absent; [cat_details] holds every other field. *)
Record CatalogItem : Type := {
  cat_sku : option string;
  cat_name : option string;
  cat_category : option string;
  cat_color_options : option (list (option string));
  cat_details : dict
}.

Definition opt_entry {A : Type} (k : string) (f : A -> value) (o : option A)
  : dict :=
  match o with Some a => [(k, f a)] | None => [] end.

Definition color_value (o : option string) : value :=
  match o with Some s => VStr s | None => VNone end.

(** The entry as the [dict] it is in Python. *)
Definition catalog_dict (it : CatalogItem) : dict :=
  opt_entry "sku" VStr (cat_sku it)
  ++ opt_entry "name" VStr (cat_name it)
  ++ opt_entry "category" VStr (cat_category it)
  ++ opt_entry "color_options" (fun l => VList (map color_value l))
       (cat_color_options it)
  ++ cat_details it.

(** [item.get(k, "")] for the text fields. *)
Definition get_or_empty (o : option string) : string :=
  match o with Some s => s | None => EmptyString end.

(** A number of price_rules.json: an [int] or a [float]. *)
Inductive number : Type :=
| NInt (n : Z)
| NFloat (x : pyfloat).

Definition number_value (a : number) : value :=
  match a with
  | NInt n => VInt n
  | NFloat x => VFloat x
  end.

(** A rule bucket: (min price, max price, min days, max days). *)
Definition Bucket : Type := (number * number * number * number)%type.

(** A bucket of four [int]s. *)
Definition int_bucket (min_p max_p min_d max_d : Z) : Bucket :=
  (NInt min_p, NInt max_p, NInt min_d, NInt max_d).

(** price_rules.json: issue -> material -> size -> bucket. *)
Definition price_rules : Type := pydict (pydict (pydict Bucket)).

(** A row of the reference dataset as [_load_ikea_catalog] keeps it: the
    local variables that go into the item's dict. *)
Record IkeaItem : Type := {
  item_id : string;
  name : string;
  category : string;
  price_usd : option pyfloat;
  sellable : option bool;
  link : string;
  other_colors : string;
  short_description : string;
  designer : string;
  width : option pyfloat;
  height : option pyfloat;
  depth : option pyfloat;
  _search : string
}.

Definition opt_value {A : Type} (f : A -> value) (o : option A) : value :=
  match o with Some a => f a | None => VNone end.

Definition price_note_text : string :=
  "Converted from SAR at 1 SAR = 0.2667 USD".

(** The dict literal appended to [items] by the loader. *)
Definition ikea_dict (it : IkeaItem) : dict :=
  [ ("item_id", VStr (item_id it));
    ("name", VStr (name it));
    ("category", VStr (category it));
    ("price_usd", opt_value VFloat (price_usd it));
    ("price_currency", opt_value (fun _ => VStr "USD") (price_usd it));
    ("price_note", opt_value (fun _ => VStr price_note_text) (price_usd it));
    ("sellable_online", opt_value VBool (sellable it));
    ("link", VStr (link it));
    ("other_colors", VStr (other_colors it));
    ("short_description", VStr (short_description it));
    ("designer", VStr (designer it));
    ("dimensions_cm",
       VDict (opt_entry "width" VFloat (width it)
              ++ opt_entry "height" VFloat (height it)
              ++ opt_entry "depth" VFloat (depth it)));
    ("_search", VStr (_search it)) ].

(** Python's [round]: to the nearest integer, a tie to the even one. *)
Definition py_round (q : Q) : Z :=
  let n := Qnum q in
  let d := Zpos (Qden q) in
  let fl := (n / d)%Z in
  let twice_rem := (2 * (n mod d))%Z in
  if (twice_rem <? d)%Z then fl
  else if (d <? twice_rem)%Z then (fl + 1)%Z
  else if Z.even fl then fl else (fl + 1)%Z.

(* ================================================================== *)
(** ** Float arithmetic

    Every operation on floats gives the double nearest to its exact result,
    a tie going to the even significand: 53 bits of significand, exponents
    down to the subnormal spacing [2^-1074], and overflow from [2^1024]. *)

Definition pow2 (k : Z) : Q := (2 ^ k)%Q.

(** The exponent [e] with [2^e <= x < 2^(e+1)], for [x > 0]. *)
Definition ilog2 (x : Q) : Z :=
  let e := (Z.log2 (Qnum x) - Z.log2 (Zpos (Qden x)))%Z in
  if Qle_bool (pow2 e) x then e else (e - 1)%Z.

(** The exponent of the spacing of the doubles around [x > 0]. *)
Definition ulp_exp (x : Q) : Z := Z.max (ilog2 x - 52) (-1074).

Definition round_pos (x : Q) : Q :=
  (inject_Z (py_round (x / pow2 (ulp_exp x))) * pow2 (ulp_exp x))%Q.

Definition round_nearest (x : Q) : Q :=
  match (x ?= 0)%Q with
  | Eq => 0%Q
  | Gt => round_pos x
  | Lt => (- round_pos (- x))%Q
  end.

(** The double nearest to [x], as a fraction in lowest terms; it may be
    [2^1024] in absolute value, which is no double any more. *)
Definition nearest_double (x : Q) : Q := Qred (round_nearest x).

Definition overflows (r : Q) : bool := Qle_bool (pow2 1024) (Qabs r).

Definition is_zero (q : Q) : bool := Qeq_bool q 0.
Definition is_negative (q : Q) : bool := negb (Qle_bool 0 q).

(** The float an operation returns when its exact result is [q]. *)
Definition to_float (q : Q) : pyfloat :=
  let r := nearest_double q in
  if overflows r then Infinity (is_negative q) else Finite r.

(** [float(n)], also the conversion of an [int] operand next to a float. *)
Definition float_of_int (n : Z) : outcome pyfloat :=
  let r := nearest_double (inject_Z n) in
  if overflows r then Raise (OverflowError "int too large to convert to float")
  else Ret (Finite r).

(** [a * b] on floats *)
Definition fmul (a b : pyfloat) : pyfloat :=
  match a, b with
  | NaN, _ | _, NaN => NaN
  | Finite x, Finite y => to_float (x * y)
  | Finite x, Infinity s | Infinity s, Finite x =>
      if is_zero x then NaN else Infinity (xorb s (is_negative x))
  | Infinity s, Infinity t => Infinity (xorb s t)
  end.

(** [a + b] on floats *)
Definition fadd (a b : pyfloat) : pyfloat :=
  match a, b with
  | NaN, _ | _, NaN => NaN
  | Finite x, Finite y => to_float (x + y)
  | Finite _, Infinity s | Infinity s, Finite _ => Infinity s
  | Infinity s, Infinity t => if Bool.eqb s t then Infinity s else NaN
  end.

(** [- a] *)
Definition fneg (a : pyfloat) : pyfloat :=
  match a with
  | Finite x => Finite (Qred (- x))
  | Infinity s => Infinity (negb s)
  | NaN => NaN
  end.

(** [a - b] on floats *)
Definition fsub (a b : pyfloat) : pyfloat := fadd a (fneg b).

(** [a / b] on floats *)
Definition fdiv (a b : pyfloat) : outcome pyfloat :=
  match a, b with
  | _, Finite y =>
      if is_zero y then Raise (ZeroDivisionError "float division by zero")
      else
        match a with
        | Finite x => Ret (to_float (x / y))
        | Infinity s => Ret (Infinity (xorb s (is_negative y)))
        | NaN => Ret NaN
        end
  | NaN, _ | _, NaN => Ret NaN
  | Finite _, Infinity _ => Ret (Finite 0)
  | Infinity _, Infinity _ => Ret NaN
  end.

(** [m / n] on ints: the double nearest to the exact quotient. *)
Definition int_truediv (m n : Z) : outcome pyfloat :=
  if (n =? 0)%Z then Raise (ZeroDivisionError "division by zero")
  else
    let r := nearest_double (inject_Z m / inject_Z n) in
    if overflows r
    then Raise (OverflowError "integer division result too large for a float")
    else Ret (Finite r).

(** [a > b] on floats *)
Definition float_gt (a b : pyfloat) : bool :=
  match a, b with
  | NaN, _ | _, NaN => false
  | Finite x, Finite y => negb (Qle_bool x y)
  | Finite _, Infinity s => s
  | Infinity s, Finite _ => negb s
  | Infinity s, Infinity t => negb s && t
  end.

(** The operand as a float, for an operation whose other operand is one. *)
Definition as_float (a : number) : outcome pyfloat :=
  match a with
  | NInt n => float_of_int n
  | NFloat x => Ret x
  end.

(** [a * b] *)
Definition num_mul (a b : number) : outcome number :=
  match a, b with
  | NInt m, NInt n => Ret (NInt (m * n))
  | _, _ => x <- as_float a ;; y <- as_float b ;; Ret (NFloat (fmul x y))
  end.

(** [a + b] *)
Definition num_add (a b : number) : outcome number :=
  match a, b with
  | NInt m, NInt n => Ret (NInt (m + n))
  | _, _ => x <- as_float a ;; y <- as_float b ;; Ret (NFloat (fadd x y))
  end.

(** [a - b] *)
Definition num_sub (a b : number) : outcome number :=
  match a, b with
  | NInt m, NInt n => Ret (NInt (m - n))
  | _, _ => x <- as_float a ;; y <- as_float b ;; Ret (NFloat (fsub x y))
  end.

(** [a / b] *)
Definition num_truediv (a b : number) : outcome number :=
  match a, b with
  | NInt m, NInt n => x <- int_truediv m n ;; Ret (NFloat x)
  | _, _ =>
      x <- as_float a ;; y <- as_float b ;; z <- fdiv x y ;; Ret (NFloat z)
  end.

(** [round(a)] *)
Definition num_round (a : number) : outcome Z :=
  match a with
  | NInt n => Ret n
  | NFloat (Finite q) => Ret (py_round q)
  | NFloat (Infinity _) =>
      Raise (OverflowError "cannot convert float infinity to integer")
  | NFloat NaN => Raise (ValueError "cannot convert float NaN to integer")
  end.

(** [a > b]: an int and a float are compared by their exact values. *)
Definition num_gt (a b : number) : bool :=
  match a, b with
  | NInt m, NInt n => (n <? m)%Z
  | NInt m, NFloat y => float_gt (Finite (inject_Z m)) y
  | NFloat x, NInt n => float_gt x (Finite (inject_Z n))
  | NFloat x, NFloat y => float_gt x y
  end.

(** [max(a, b)]: the first argument unless the second is greater. *)
Definition py_max (a b : number) : number := if num_gt b a then b else a.

(** A float literal of the source text, such as [0.9]. *)
Definition float_literal (q : Q) : number := NFloat (to_float q).

(** [round(x, 2)] on a float: the double nearest to the two-digit decimal
    nearest to [x]. *)
Definition round2 (x : pyfloat) : pyfloat :=
  match x with
  | Finite q => to_float (inject_Z (py_round (q * 100)) / 100)
  | _ => x
  end.

(* ================================================================== *)
(** ** Loading the reference dataset *)

Section Loader.

(** [float(text)]: the float a cell denotes, [None] where Python raises
    [ValueError]. *)
Variable py_float : string -> option pyfloat.

(** A row of [csv.DictReader]: column -> cell, a cell being [None] when
    the line is shorter than the header. *)
Definition csv_row : Type := pydict (option string).

(** [row.get(k)] *)
Definition row_get (k : string) (row : csv_row) : option string :=
  match PyDict.get k row with
  | Some cell => cell
  | None => None
  end.

(** [(row.get(k) or "").strip()] *)
Definition cell_text (k : string) (row : csv_row) : string :=
  strip (get_or_empty (row_get k row)).

Definition _to_float (value : option string) : option pyfloat :=
  match value with
  | None => None
  | Some value =>
      let value := strip value in
      if is_empty value || startswith "no " (lower value) then None
      else py_float value
  end.

Definition str_in (s : string) (l : list string) : bool :=
  existsb (String.eqb s) l.

Definition _to_bool (value : option string) : option bool :=
  match value with
  | None => None
  | Some value =>
      let value := lower (strip value) in
      if str_in value ["true"; "yes"; "y"; "1"] then Some true
      else if str_in value ["false"; "no"; "n"; "0"] then Some false
      else None
  end.

Definition SAR_TO_USD : pyfloat := to_float (2667 # 10000).

(** The body of the loop over the rows: [None] where the row is skipped. *)
Definition load_row (row : csv_row) : option IkeaItem :=
  let item_id := cell_text "item_id" row in
  let name := cell_text "name" row in
  if is_empty item_id || is_empty name then None
  else
    let category := cell_text "category" row in
    let price_sar := _to_float (row_get "price" row) in
    let price_usd := option_map (fun p => round2 (fmul p SAR_TO_USD)) price_sar in
    let width := _to_float (row_get "width" row) in
    let height := _to_float (row_get "height" row) in
    let depth := _to_float (row_get "depth" row) in
    let short_description := cell_text "short_description" row in
    let short_description :=
      if is_empty short_description then short_description
      else collapse_spaces short_description in
    let other_colors := cell_text "other_colors" row in
    let other_colors :=
      if str_in (lower other_colors) ["no"; "n/a"] then EmptyString
      else other_colors in
    let sellable := _to_bool (row_get "sellable_online" row) in
    let link := cell_text "link" row in
    let designer := cell_text "designer" row in
    let searchable :=
      join " "
        (filter (fun s => negb (is_empty s))
           [lower item_id; lower name; lower category;
            lower short_description; lower other_colors; lower designer]) in
    Some {| item_id := item_id; name := name; category := category;
            price_usd := price_usd; sellable := sellable; link := link;
            other_colors := other_colors;
            short_description := short_description; designer := designer;
            width := width; height := height; depth := depth;
            _search := searchable |}.

Fixpoint load_rows (rows : list csv_row) : list IkeaItem :=
  match rows with
  | [] => []
  | row :: rest =>
      match load_row row with
      | Some item => item :: load_rows rest
      | None => load_rows rest
      end
  end.

(** [csv_file] is [None] when neither location has the file. *)
Definition _load_ikea_catalog (csv_file : option (list csv_row))
  : list IkeaItem :=
  match csv_file with
  | None => []
  | Some rows => load_rows rows
  end.

End Loader.

(** ** Reference-dataset search *)

(** [{k: v for k, v in item.items() if not k.startswith("_")}] *)
Definition _copy_public_item (item : dict) : dict :=
  filter (fun kv => negb (startswith "_" (fst kv))) item.

(** The key of [sorted]: [(-pair[0], pair[1]["name"])], compared as tuples. *)
Definition sort_key (pair : Z * IkeaItem) : Z * string :=
  ((- fst pair)%Z, name (snd pair)).

Definition key_leb (a b : Z * string) : bool :=
  (fst a <? fst b)%Z || ((fst a =? fst b)%Z && str_leb (snd a) (snd b)).

Definition pair_leb (a b : Z * IkeaItem) : bool :=
  key_leb (sort_key a) (sort_key b).

(** [sorted] is stable: an element goes before the first one whose key is
    not smaller, and elements are inserted from the last to the first. *)
Fixpoint insert_sorted (x : Z * IkeaItem) (l : list (Z * IkeaItem))
  : list (Z * IkeaItem) :=
  match l with
  | [] => [x]
  | y :: l' => if pair_leb x y then x :: l else y :: insert_sorted x l'
  end.

Definition sorted_by_key (l : list (Z * IkeaItem)) : list (Z * IkeaItem) :=
  fold_right insert_sorted [] l.

(** [sum(1 for w in words if w and w in item["_search"])] *)
Fixpoint count_words (words : list string) (text : string) : Z :=
  match words with
  | [] => 0
  | w :: rest =>
      ((if negb (is_empty w) && contains text w then 1 else 0)
       + count_words rest text)%Z
  end.

(** The score one pass of the loop gives to [item]. *)
Definition item_score (q : string) (words : list string) (item : IkeaItem) : Z :=
  let score := 0%Z in
  let score :=
    if String.eqb q (lower (item_id item)) then (score + 10)%Z else score in
  let score := if contains (_search item) q then (score + 3)%Z else score in
  let score :=
    match words with
    | [] => score
    | _ => (score + count_words words (_search item))%Z
    end in
  score.

(** One pass of the loop over [IKEA_ITEMS], on the dict [scored]. *)
Definition score_step (q : string) (words : list string)
  (scored : pydict (Z * IkeaItem)) (item : IkeaItem)
  : pydict (Z * IkeaItem) :=
  let score := item_score q words item in
  if (score >? 0)%Z then
    match PyDict.get (item_id item) scored with
    | None => PyDict.set (item_id item) (score, item) scored
    | Some existing =>
        if (score >? fst existing)%Z
        then PyDict.set (item_id item) (score, item) scored
        else scored
    end
  else scored.

Definition score_all (q : string) (words : list string)
  (items : list IkeaItem) : pydict (Z * IkeaItem) :=
  fold_left (score_step q words) items [].

(** [[w for w in re.split(r"\W+", q) if w]] *)
Definition query_words (q : string) : list string :=
  filter (fun w => negb (is_empty w)) (split_nonword q).

Definition search_limit : nat := 5.

Section Search.

Variable IKEA_ITEMS : list IkeaItem.

Definition search_with_limit (query : string) (limit : nat) : list dict :=
  match IKEA_ITEMS with
  | [] => []
  | _ =>
      let q := lower (strip query) in
      if is_empty q then []
      else
        let words := query_words q in
        let scored := score_all q words IKEA_ITEMS in
        match scored with
        | [] => []
        | _ =>
            let top := sorted_by_key (PyDict.values scored) in
            map (fun pair => _copy_public_item (ikea_dict (snd pair)))
              (firstn limit top)
        end
  end.

Definition _search_ikea_items (query : string) : list dict :=
  search_with_limit query search_limit.

End Search.

Definition demo_item (id nm descr : string) : IkeaItem :=
  {| item_id := id; name := nm; category := "Chairs"; price_usd := None;
     sellable := None; link := ""; other_colors := "";
     short_description := descr; designer := "";
     width := None; height := None; depth := None;
     _search := join " " [lower id; lower nm; "chairs"; lower descr] |}.

(** ** The log files and the clock *)

Record World : Type := {
  clock : nat -> string;          (* [datetime.utcnow().isoformat()], by reading *)
  clock_reads : nat;
  leads : list dict;              (* logs/leads.jsonl, one entry a line *)
  feedback : list dict;           (* logs/feedback.jsonl *)
  service_feedback : list dict;   (* logs/service_feedback.jsonl *)
  console : list (string * dict)  (* what [print] wrote: tag and entry *)
}.

Definition utcnow (w : World) : string := clock w (clock_reads w).

Definition record_customer_interest (email name message : value) (w : World)
  : dict * World :=
  let entry := [("ts", VStr (utcnow w)); ("email", email); ("name", name);
                ("message", message)] in
  ([("ok", VBool true); ("msg", VStr "Thanks! We'll follow up soon.")],
   {| clock := clock w; clock_reads := S (clock_reads w);
      leads := leads w ++ [entry]; feedback := feedback w;
      service_feedback := service_feedback w;
      console := console w ++ [("LEAD", entry)] |}).

Definition record_feedback (question : value) (w : World) : dict * World :=
  let entry := [("ts", VStr (utcnow w)); ("question", question)] in
  ([("ok", VBool true); ("msg", VStr "Noted. We'll improve our answers.")],
   {| clock := clock w; clock_reads := S (clock_reads w);
      leads := leads w; feedback := feedback w ++ [entry];
      service_feedback := service_feedback w;
      console := console w ++ [("FEEDBACK", entry)] |}).

Definition record_service_feedback
  (email name service_type satisfaction comments : value) (w : World)
  : dict * World :=
  let entry := [("ts", VStr (utcnow w)); ("email", email); ("name", name);
                ("service_type", service_type); ("satisfaction", satisfaction);
                ("comments", py_or comments (VStr ""))] in
  ([("ok", VBool true);
    ("msg", VStr "Thanks for the feedback! We'll share it with the team.")],
   {| clock := clock w; clock_reads := S (clock_reads w);
      leads := leads w; feedback := feedback w;
      service_feedback := service_feedback w ++ [entry];
      console := console w ++ [("SERVICE_FEEDBACK", entry)] |}).

(** ** Product lookup and repair estimate *)

Definition nonempty {A : Type} (l : list A) : bool :=
  match l with [] => false | _ => true end.

Definition catalog_values (l : list CatalogItem) : value :=
  VList (map (fun it => VDict (catalog_dict it)) l).

Section Tools.

Variable CATALOG : list CatalogItem.
Variable PRICE_RULES : price_rules.
Variable IKEA_ITEMS : list IkeaItem.

Definition sku_matches (q_lower : string) (item : CatalogItem) : bool :=
  String.eqb (lower (get_or_empty (cat_sku item))) q_lower.

Definition name_or_color_hit (q_lower : string) (item : CatalogItem) : bool :=
  contains (lower (get_or_empty (cat_name item))) q_lower
  || existsb (fun opt => contains (lower (get_or_empty opt)) q_lower)
       (match cat_color_options item with Some l => l | None => [] end).

Definition category_matches (q_lower : string) (item : CatalogItem) : bool :=
  String.eqb (lower (get_or_empty (cat_category item))) q_lower.

Definition lookup_product (query : value) : outcome dict :=
  q <- v_strip (py_or query (VStr "")) ;;
  if is_empty q then
    Ret [("ok", VBool false);
         ("msg", VStr "Please provide a product keyword, SKU, or IKEA item ID.")]
  else
    let q_lower := lower q in
    let result := [("ok", VBool true); ("query", VStr q)] in
    let sku_match :=
      match find (sku_matches q_lower) CATALOG with
      | Some item => VDict (catalog_dict item)
      | None => VNone
      end in
    let result :=
      if truthy sku_match then PyDict.set "catalog_match" sku_match result
      else result in
    let name_hits := filter (name_or_color_hit q_lower) CATALOG in
    let result :=
      if nonempty name_hits && negb (truthy sku_match)
      then PyDict.set "catalog_results" (catalog_values name_hits) result
      else result in
    let category_hits := filter (category_matches q_lower) CATALOG in
    let result :=
      if nonempty category_hits
      then PyDict.set "catalog_category" (catalog_values category_hits) result
      else result in
    let ikea_hits := _search_ikea_items IKEA_ITEMS q_lower in
    let result :=
      if nonempty ikea_hits
      then PyDict.set "ikea_results" (VList (map VDict ikea_hits)) result
      else result in
    if Nat.eqb (List.length result) 2 then
      Ret [("ok", VBool false);
           ("msg", VStr ("No products found for '" ++ q ++ "'."))]
    else Ret result.

Definition days_value (lo hi : number) : value :=
  VList [number_value lo; number_value hi].

(** [round(min_p * 0.9)] *)
Definition budget_price (min_p : number) : outcome Z :=
  x <- num_mul min_p (float_literal (9 # 10)) ;; num_round x.

(** [round((min_p + max_p) / 2)] *)
Definition standard_price (min_p max_p : number) : outcome Z :=
  total <- num_add min_p max_p ;;
  x <- num_truediv total (NInt 2) ;;
  num_round x.

(** [round(max_p * 1.25)] *)
Definition rush_price (max_p : number) : outcome Z :=
  x <- num_mul max_p (float_literal (5 # 4)) ;; num_round x.

(** The dict literal [tiers]; its entries are evaluated in the order they
    are written. *)
Definition tiers_of (b : Bucket) : outcome dict :=
  let '(min_p, max_p, min_d, max_d) := b in
  budget <- budget_price min_p ;;
  budget_hi <- num_add min_d (NInt 1) ;;
  standard <- standard_price min_p max_p ;;
  rush <- rush_price max_p ;;
  rush_lo <- num_sub min_d (NInt 1) ;;
  rush_hi <- num_sub max_d (NInt 1) ;;
  Ret [ ("budget",
          VDict [("price", VInt budget);
                 ("days", days_value min_d (py_max min_d budget_hi))]);
        ("standard",
          VDict [("price", VInt standard);
                 ("days", days_value min_d max_d)]);
        ("rush",
          VDict [("price", VInt rush);
                 ("days", days_value (py_max (NInt 1) rush_lo)
                                     (py_max (NInt 1) rush_hi))]) ].

Definition estimate_repair (issue material size_category : value)
  : outcome dict :=
  issue <- v_strip issue ;;
  let issue := lower issue in
  material <- v_strip (py_or material (VStr "any")) ;;
  let material := lower material in
  size <- v_strip (py_or size_category (VStr "medium")) ;;
  let size := lower size in
  match PyDict.get issue PRICE_RULES with
  | None | Some [] =>
      Ret [("ok", VBool false);
           ("msg", VStr ("No pricing rule for issue '" ++ issue ++ "'."))]
  | Some (((_, first_bucket) :: _) as rules) =>
      let bucket :=
        match PyDict.get material rules with
        | Some b => b
        | None =>
            match PyDict.get "any" rules with
            | Some b => b
            | None => first_bucket
            end
        end in
      match PyDict.get size bucket with
      | None =>
          Ret [("ok", VBool false);
               ("msg", VStr ("Unsupported size_category '" ++ size
                             ++ "'. Use small/medium/large."))]
      | Some numbers =>
          tiers <- tiers_of numbers ;;
          Ret [("ok", VBool true); ("issue", VStr issue);
               ("material", VStr material); ("size", VStr size);
               ("estimate", VDict tiers)]
      end
  end.

End Tools.

(* ================================================================== *)
(** ** app.py: calling a tool with keyword arguments *)

(** A Python signature: the function's name and its parameters in order,
    each with its default value if it has one. *)
Record signature : Type := {
  fn_name : string;
  fn_params : list (string * option value)
}.

Definition nat_text (n : nat) : string :=
  DecimalString.NilEmpty.string_of_uint (Nat.to_uint n).

Definition quoted (s : string) : string := "'" ++ s ++ "'".

(** The names of a [TypeError] for missing arguments:
    ['a'], ['a' and 'b'], ['a', 'b', and 'c']. *)
Definition missing_names (names : list string) : string :=
  match names with
  | [] => EmptyString
  | [a] => quoted a
  | [a; b] => quoted a ++ " and " ++ quoted b
  | _ =>
      join ", " (map quoted (removelast names))
      ++ ", and " ++ quoted (last names EmptyString)
  end.

Definition is_param (sg : signature) (k : string) : bool :=
  existsb (fun p => String.eqb k (fst p)) (fn_params sg).

Definition is_missing (args : dict) (p : string * option value) : bool :=
  match snd p with
  | Some _ => false
  | None => negb (PyDict.mem (fst p) args)
  end.

(** A call of [f] with the keyword arguments [args]: the values of the
    parameters in order, or the [TypeError] Python raises before the body
    runs. *)
Definition bind_kwargs (sg : signature) (args : dict) : outcome (list value) :=
  match find (fun k => negb (is_param sg k)) (PyDict.keys args) with
  | Some k =>
      Raise (TypeError (fn_name sg ++ "() got an unexpected keyword argument "
                        ++ quoted k))
  | None =>
      match map fst (filter (is_missing args) (fn_params sg)) with
      | [] =>
          Ret (map (fun p =>
                      match PyDict.get (fst p) args with
                      | Some v => v
                      | None => match snd p with Some d => d | None => VNone end
                      end) (fn_params sg))
      | names =>
          let n := List.length names in
          Raise (TypeError
                   (fn_name sg ++ "() missing " ++ nat_text n
                    ++ " required positional argument"
                    ++ (if Nat.eqb n 1 then "" else "s") ++ ": "
                    ++ missing_names names))
      end
  end.

Definition sig_lookup_product : signature :=
  {| fn_name := "lookup_product"; fn_params := [("query", None)] |}.
Definition sig_estimate_repair : signature :=
  {| fn_name := "estimate_repair";
     fn_params := [("issue", None); ("material", Some (VStr "any"));
                   ("size_category", Some (VStr "medium"))] |}.
Definition sig_record_customer_interest : signature :=
  {| fn_name := "record_customer_interest";
     fn_params := [("email", None); ("name", None); ("message", None)] |}.
Definition sig_record_feedback : signature :=
  {| fn_name := "record_feedback"; fn_params := [("question", None)] |}.
Definition sig_record_service_feedback : signature :=
  {| fn_name := "record_service_feedback";
     fn_params := [("email", None); ("name", None); ("service_type", None);
                   ("satisfaction", None); ("comments", Some (VStr ""))] |}.

(** A call that binds fewer or more values than the body takes cannot
    happen; the branch is there for totality. *)
Definition arity_error {A : Type} (sg : signature) : outcome A :=
  Raise (TypeError (fn_name sg ++ "() arity")).

(** The result of a tool that cannot raise, with the world it leaves. *)
Definition done (r : dict * World) : outcome dict * World := (Ret (fst r), snd r).

Definition failure (msg : string) : dict :=
  [("ok", VBool false); ("msg", VStr msg)].

Section Dispatcher.

Variable CATALOG : list CatalogItem.
Variable PRICE_RULES : price_rules.
Variable IKEA_ITEMS : list IkeaItem.

(** The body of the [try] block. *)
Definition call_tool_body (name : string) (args : dict) (w : World)
  : outcome dict * World :=
  if String.eqb name "lookup_product" then
    match bind_kwargs sig_lookup_product args with
    | Ret [query] => (lookup_product CATALOG IKEA_ITEMS query, w)
    | Ret _ => (arity_error sig_lookup_product, w)
    | Raise e => (Raise e, w)
    end
  else if String.eqb name "estimate_repair" then
    match bind_kwargs sig_estimate_repair args with
    | Ret [issue; material; size_category] =>
        (estimate_repair PRICE_RULES issue material size_category, w)
    | Ret _ => (arity_error sig_estimate_repair, w)
    | Raise e => (Raise e, w)
    end
  else if String.eqb name "record_customer_interest" then
    match bind_kwargs sig_record_customer_interest args with
    | Ret [email; name; message] =>
        done (record_customer_interest email name message w)
    | Ret _ => (arity_error sig_record_customer_interest, w)
    | Raise e => (Raise e, w)
    end
  else if String.eqb name "record_feedback" then
    match bind_kwargs sig_record_feedback args with
    | Ret [question] => done (record_feedback question w)
    | Ret _ => (arity_error sig_record_feedback, w)
    | Raise e => (Raise e, w)
    end
  else if String.eqb name "record_service_feedback" then
    match bind_kwargs sig_record_service_feedback args with
    | Ret [email; name; service_type; satisfaction; comments] =>
        done (record_service_feedback email name service_type satisfaction
                comments w)
    | Ret _ => (arity_error sig_record_service_feedback, w)
    | Raise e => (Raise e, w)
    end
  else (Ret (failure ("Unknown tool '" ++ name ++ "'.")), w).

(** [try: ... except TypeError as exc: ...] *)
Definition _call_tool (name : string) (args : dict) (w : World)
  : outcome dict * World :=
  match call_tool_body name args w with
  | (Raise (TypeError text), w') =>
      (Ret (failure ("Invalid arguments for " ++ name ++ ": " ++ text)), w')
  | other => other
  end.

End Dispatcher.

Definition KNOWN_TOOLS : list string :=
  ["lookup_product"; "estimate_repair"; "record_customer_interest";
   "record_feedback"; "record_service_feedback"].

(* ================================================================== *)
(** ** app.py: the conversation with the model *)

(** A [google.protobuf.Value]. *)
#[warnings="-register-all"]
Inductive proto : Type :=
| PNull
| PNumber (x : pyfloat)
| PString (s : string)
| PBool (b : bool)
| PStruct (fields : list (string * proto))
| PList (values : list proto).

Fixpoint _proto_to_python (v : proto) : value :=
  match v with
  | PNull => VNone
  | PNumber x => VFloat x
  | PString s => VStr s
  | PBool b => VBool b
  | PStruct fields =>
      VDict (map (fun kv => (fst kv, _proto_to_python (snd kv))) fields)
  | PList values => VList (map _proto_to_python values)
  end.

Record FunctionCall : Type := {
  fc_name : string;
  fc_args : option (list (string * proto))   (* the fields of [args], if any *)
}.

(** A part of a candidate; [part_call] is [Some] when [part.function_call]
    is truthy. *)
Record Part : Type := {
  part_text : option string;
  part_call : option FunctionCall
}.

(** A candidate, with [candidate.content.parts] when it has a content. *)
Record Candidate : Type := {
  content_parts : option (list Part)
}.

(** A response of the model: its candidates (the list or an entry may be
    missing) and what the accessor [response.text] of the client library
    gives.  The accessor never gives [None]: it returns a [str], or raises
    [ValueError] when the response holds no text part. *)
Record Response : Type := {
  candidates : option (list (option Candidate));
  text : outcome string
}.

(** What the chat session is sent. *)
Inductive message : Type :=
| TextMessage (role : string) (body : string)       (* role and one text part *)
| UserInput (body : string)                          (* the raw user message *)
| FunctionResponse (name : string) (payload : dict). (* role "tool" *)

Definition _content (role : string) (body : option string) : option message :=
  match body with
  | None => None
  | Some t => if is_empty t then None else Some (TextMessage role t)
  end.

Definition opt_list {A : Type} (o : option A) : list A :=
  match o with Some a => [a] | None => [] end.

Definition opt_truthy (o : option string) : bool :=
  match o with Some t => negb (is_empty t) | None => false end.

Fixpoint _convert_history (history : list (option string * option string))
  : list message :=
  match history with
  | [] => []
  | (user, assistant) :: rest =>
      (if opt_truthy user then opt_list (_content "user" user) else [])
      ++ (if opt_truthy assistant then opt_list (_content "model" assistant)
          else [])
      ++ _convert_history rest
  end.

Fixpoint first_call_in_parts (parts : list Part) : option FunctionCall :=
  match parts with
  | [] => None
  | part :: rest =>
      match part_call part with
      | Some fc => Some fc
      | None => first_call_in_parts rest
      end
  end.

Fixpoint first_call_in_candidates (cs : list (option Candidate))
  : option FunctionCall :=
  match cs with
  | [] => None
  | c :: rest =>
      match c with
      | Some {| content_parts := Some parts |} =>
          match first_call_in_parts parts with
          | Some fc => Some fc
          | None => first_call_in_candidates rest
          end
      | _ => first_call_in_candidates rest
      end
  end.

Definition _first_function_call (response : Response) : option FunctionCall :=
  first_call_in_candidates
    (match candidates response with Some cs => cs | None => [] end).

Definition _function_args_to_dict (fc : FunctionCall) : dict :=
  match fc_args fc with
  | None => []
  | Some fields => map (fun kv => (fst kv, _proto_to_python (snd kv))) fields
  end.

(** The outcome of one user turn: the reply or the fault, everything the
    session was sent, and the world the tools left. *)
Record Turn : Type := {
  reply : outcome string;
  sent : list message;
  world : World
}.

Section Orchestrator.

Variable CATALOG : list CatalogItem.
Variable PRICE_RULES : price_rules.
Variable IKEA_ITEMS : list IkeaItem.

(** The [while True] loop.  [pending] holds the responses the model will
    give to the next messages, in order; [chat.send_message] takes the
    first one, and fails when the service has none to give. *)
Fixpoint chat_loop (pending : list Response) (response : Response)
  (transcript : list message) (w : World) : Turn :=
  match _first_function_call response with
  | None =>
      match text response with
      | Raise e => {| reply := Raise e; sent := transcript; world := w |}
      | Ret t =>
          let text := if is_empty t then EmptyString else t in
          {| reply := Ret (strip text); sent := transcript; world := w |}
      end
  | Some function_call =>
      let args := _function_args_to_dict function_call in
      match _call_tool CATALOG PRICE_RULES IKEA_ITEMS
              (fc_name function_call) args w with
      | (Raise e, w') => {| reply := Raise e; sent := transcript; world := w' |}
      | (Ret tool_result, w') =>
          let transcript' :=
            transcript ++ [FunctionResponse (fc_name function_call) tool_result] in
          match pending with
          | [] =>
              {| reply := Raise (UpstreamError "no response");
                 sent := transcript'; world := w' |}
          | response' :: pending' =>
              chat_loop pending' response' transcript' w'
          end
      end
  end.

Definition chat_fn (model : list Response) (message : string)
  (history : list (option string * option string)) (w : World) : Turn :=
  let history_msgs := _convert_history history in
  let transcript := history_msgs ++ [UserInput message] in
  match model with
  | [] =>
      {| reply := Raise (UpstreamError "no response");
         sent := transcript; world := w |}
  | response :: pending => chat_loop pending response transcript w
  end.

End Orchestrator.

(* ================================================================== *)
(** ** The specification's vocabulary

    Definitions that follow the words of the specification; the theorems
    compare them with the code above. *)

(** The normal form of [issue], of [material] and of [size_category]:
    lowercase and trimmed, the last two after their default. *)
Definition norm_issue (issue : string) : string := lower (strip issue).
Definition norm_material (material : string) : string :=
  lower (strip (if is_empty material then "any" else material)).
Definition norm_size (size_category : string) : string :=
  lower (strip (if is_empty size_category then "medium" else size_category)).

(** The bucket precedence of the specification: the material's entry,
    else the entry of "any", else the first entry. *)
Definition spec_bucket (rules : pydict (pydict Bucket)) (material : string)
  : option (pydict Bucket) :=
  match PyDict.get material rules with
  | Some b => Some b
  | None =>
      match PyDict.get "any" rules with
      | Some b => Some b
      | None => hd_error (PyDict.values rules)
      end
  end.

(** The four numbers the estimate is computed from, when there are any. *)
Definition spec_resolve (PRICE_RULES : price_rules)
  (issue material size : string) : option Bucket :=
  match PyDict.get issue PRICE_RULES with
  | None => None
  | Some rules =>
      match spec_bucket rules material with
      | None => None
      | Some b => PyDict.get size b
      end
  end.

(* ================================================================== *)
(** ** Further vocabulary and sample data *)

Open Scope Z_scope.

Definition size_failure (size : string) : dict :=
  failure ("Unsupported size_category '" ++ size ++ "'. Use small/medium/large.").

Definition estimate_success (issue material size : string) (numbers : Bucket)
  : outcome dict :=
  tiers <- tiers_of numbers ;;
  Ret [("ok", VBool true); ("issue", VStr issue); ("material", VStr material);
       ("size", VStr size); ("estimate", VDict tiers)].

Definition demo_rules : price_rules :=
  [ ("wobble",
      [ ("wood", [("small", int_bucket 30 60 1 2);
                  ("large", int_bucket 80 150 2 4)]);
        ("any", [("medium", int_bucket 45 95 1 3)]) ]);
    ("scratch",
      [ ("metal", [("medium", int_bucket 25 40 1 1)]);
        ("glass", [("medium", int_bucket 35 55 2 3)]) ]) ].

(** The float a finite number is, or becomes next to a float operand. *)
Definition float_view (a : number) : Q :=
  match a with
  | NInt n => nearest_double (inject_Z n)
  | NFloat (Finite x) => x
  | NFloat _ => 0%Q
  end.

(** [a] is a number of exact value [q]: an [int], or a [float] that is a
    finite double. *)
Definition rule_number (a : number) (q : Q) : Prop :=
  match a with
  | NInt n => q = inject_Z n
  | NFloat (Finite x) =>
      q = x /\ (nearest_double x == x)%Q /\ overflows x = false
  | NFloat _ => False
  end.

(** Prices up to this bound are far from the overflow of a float. *)
Definition price_bound : Q := inject_Z (2 ^ 1000).

(** [round] of the float that an operation of exact result [q] returns. *)
Definition round_result (q : Q) : outcome Z := num_round (NFloat (to_float q)).

(** The three prices of the specification, read in float arithmetic:
    round(min price * 0.9), round((min price + max price) / 2) and
    round(max price * 1.25). *)
Definition spec_budget (min_p : number) : Z :=
  py_round (nearest_double (float_view min_p * nearest_double (9 # 10))).

Definition spec_standard (min_p max_p : number) : Z :=
  py_round
    match min_p, max_p with
    | NInt m, NInt n => nearest_double (inject_Z (m + n) / 2)
    | _, _ =>
        nearest_double (nearest_double (float_view min_p + float_view max_p) / 2)
    end.

Definition spec_rush (max_p : number) : Z :=
  py_round (nearest_double (float_view max_p * (5 # 4))).

(** The rules with one bucket, for the issue "wobble". *)
Definition one_bucket_rules (numbers : Bucket) : price_rules :=
  [("wobble", [("any", [("medium", numbers)])])].

Definition price_of (tier : string) (res : dict) : option value :=
  at_path ["estimate"; tier; "price"] (VDict res).
Definition days_of (tier : string) (res : dict) : option value :=
  at_path ["estimate"; tier; "days"] (VDict res).

Definition prompt_text : string :=
  "Please provide a product keyword, SKU, or IKEA item ID.".

Definition result_keys : list string :=
  ["ok"; "query"; "catalog_match"; "catalog_results"; "catalog_category";
   "ikea_results"].

Definition is_none {A : Type} (o : option A) : bool :=
  match o with None => true | Some _ => false end.

Definition only_if (b : bool) (v : value) : option value :=
  if b then Some v else None.

(** One case of the analysis below: the result has more than the two
    starting keys, so it is returned as it is. *)
Ltac lookup_success_case :=
  eexists; split; [reflexivity |];
  split; [split; [intros Hok; discriminate Hok
                 | intros [Hq' | Hnothing];
                   [contradiction | decompose [and] Hnothing; discriminate]] |];
  split; [intros Hq'; contradiction |];
  split; [intros _ Hnothing; decompose [and] Hnothing; discriminate |];
  intros _ _;
  repeat (split; [reflexivity |]);
  repeat (apply Forall_cons; [cbn; tauto |]); apply Forall_nil.

Definition demo_sofa (code_text : string) (title : string) : CatalogItem :=
  {| cat_sku := Some code_text; cat_name := Some title;
     cat_category := Some "sofas";
     cat_color_options := Some [Some "Grey"; None; Some "Navy blue"];
     cat_details := [("price", VInt 499)] |}.

Definition demo_catalog : list CatalogItem :=
  [demo_sofa "ab1" "Oslo sofa"; demo_sofa "AB1" "Bergen sofa";
   demo_sofa "CH-7" "Lund armchair"].

(** The signature the dispatcher calls for a tool name. *)
Definition signature_of (name : string) : option signature :=
  find (fun sg => String.eqb name (fn_name sg))
    [sig_lookup_product; sig_estimate_repair; sig_record_customer_interest;
     sig_record_feedback; sig_record_service_feedback].

(** The argument mapping does not fit the parameters: it has a key that is
    no parameter, or lacks a parameter that has no default. *)
Definition shape_mismatch (sg : signature) (args : dict) : Prop :=
  (exists k, In k (PyDict.keys args) /\ is_param sg k = false)
  \/ (exists p, In (p, None) (fn_params sg) /\ PyDict.mem p args = false).

Definition demo_world : World :=
  {| clock := fun n => ("2024-05-01T10:00:0" ++ nat_text n)%string;
     clock_reads := 0; leads := []; feedback := []; service_feedback := [];
     console := [] |}.

(** Every part of a response, candidate after candidate and in the order
    of the parts; a missing candidate or one without content has none. *)
Definition all_parts (r : Response) : list Part :=
  flat_map
    (fun c => match c with
              | Some {| content_parts := Some parts |} => parts
              | _ => []
              end)
    (match candidates r with Some cs => cs | None => [] end).

(** [fc] is the function call of the first part, among all the parts of
    [r], that holds one. *)
Definition first_call_part (r : Response) (fc : FunctionCall) : Prop :=
  exists before p after,
    all_parts r = before ++ p :: after
    /\ (forall x, In x before -> part_call x = None)
    /\ part_call p = Some fc.

(** No part of [r] holds a function call. *)
Definition no_call_part (r : Response) : Prop :=
  forall p, In p (all_parts r) -> part_call p = None.

(** The tool-dispatch cycles of the specification, one per response of
    [calls]: the first function-call part of the response is dispatched and
    its result is sent back as a function-response message of the same
    name; [ms] are the messages sent and [w'] the world left. *)
Inductive tool_cycles (CATALOG : list CatalogItem) (PRICE_RULES : price_rules)
  (IKEA_ITEMS : list IkeaItem)
  : list Response -> World -> list message -> World -> Prop :=
| cycles_done (w : World) :
    tool_cycles CATALOG PRICE_RULES IKEA_ITEMS [] w [] w
| cycles_step (r : Response) (rest : list Response) (fc : FunctionCall)
    (res : dict) (w w' w'' : World) (ms : list message) :
    first_call_part r fc ->
    _call_tool CATALOG PRICE_RULES IKEA_ITEMS (fc_name fc)
      (_function_args_to_dict fc) w = (Ret res, w') ->
    tool_cycles CATALOG PRICE_RULES IKEA_ITEMS rest w' ms w'' ->
    tool_cycles CATALOG PRICE_RULES IKEA_ITEMS (r :: rest) w
      (FunctionResponse (fc_name fc) res :: ms) w''.

(** The cycles as a computation: [None] when a response has no function
    call or a dispatch raises. *)
Fixpoint dispatch_cycles (CATALOG : list CatalogItem) (PRICE_RULES : price_rules)
  (IKEA_ITEMS : list IkeaItem) (calls : list Response) (w : World)
  : option (list message * World) :=
  match calls with
  | [] => Some ([], w)
  | r :: rest =>
      match _first_function_call r with
      | None => None
      | Some fc =>
          match _call_tool CATALOG PRICE_RULES IKEA_ITEMS (fc_name fc)
                  (_function_args_to_dict fc) w with
          | (Ret res, w') =>
              match dispatch_cycles CATALOG PRICE_RULES IKEA_ITEMS rest w' with
              | Some (ms, w'') => Some (FunctionResponse (fc_name fc) res :: ms, w'')
              | None => None
              end
          | (Raise _, _) => None
          end
      end
  end.

Definition no_text_error : exn :=
  ValueError "The `response.text` quick accessor requires a text part.".

Definition call_response (name : string) (args : list (string * proto))
  : Response :=
  {| candidates :=
       Some [None;
             Some {| content_parts := None |};
             Some {| content_parts :=
                       Some [ {| part_text := Some "One moment."; part_call := None |};
                              {| part_text := None;
                                 part_call := Some {| fc_name := name;
                                                      fc_args := Some args |} |} ] |}];
     text := Raise no_text_error |}.

Definition text_response (t : string) : Response :=
  {| candidates :=
       Some [Some {| content_parts :=
                       Some [ {| part_text := Some t; part_call := None |} ] |}];
     text := Ret t |}.

Definition demo_calls : list Response :=
  [ call_response "lookup_product" [("query", PString "ch-7")];
    call_response "record_customer_interest"
      [("email", PString "ana@example.org"); ("name", PString "Ana");
       ("message", PString "Lund armchair")] ].

Definition demo_final : Response := text_response "  We will write to you. ".

(** The score of an item for the normalized query [q]. *)
Definition score (q : string) (item : IkeaItem) : Z :=
  item_score q (query_words q) item.

(** [(s, it)] is what the loop over [items] keeps under the key [k]: the
    first row of that id, in dataset order, that reaches the highest score
    of the id. *)
Definition kept_entry (q : string) (items : list IkeaItem)
  (k : string) (s : Z) (it : IkeaItem) : Prop :=
  item_id it = k /\ s = score q it /\ 0 < s
  /\ exists before after,
       items = before ++ it :: after
       /\ (forall x, In x before -> item_id x = k -> score q x < s)
       /\ (forall x, In x after -> item_id x = k -> score q x <= s).

Definition scored_inv (q : string) (items : list IkeaItem)
  (d : pydict (Z * IkeaItem)) : Prop :=
  NoDup (PyDict.keys d)
  /\ (forall k s it, In (k, (s, it)) d -> kept_entry q items k s it)
  /\ (forall x, In x items -> 0 < score q x -> In (item_id x) (PyDict.keys d)).

(** [a] is ranked no later than [b]: a higher score, or the same score and
    a name that is not greater. *)
Definition ranks_before (a b : Z * IkeaItem) : Prop :=
  fst b < fst a
  \/ (fst a = fst b /\ str_leb (name (snd a)) (name (snd b)) = true).

(** The list [top] of the code, for the normalized query [q]. *)
Definition ranked_entries (items : list IkeaItem) (q : string)
  : list (Z * IkeaItem) :=
  sorted_by_key (PyDict.values (score_all q (query_words q) items)).

Definition public_copy (it : IkeaItem) : dict :=
  _copy_public_item (ikea_dict it).

(** The score as the specification words it. *)
Definition spec_score (q : string) (item : IkeaItem) : Z :=
  (if String.eqb q (lower (item_id item)) then 10 else 0)
  + (if contains (_search item) q then 3 else 0)
  + Z.of_nat (List.length (filter (fun w => contains (_search item) w)
                             (query_words q))).

Definition demo_items : list IkeaItem :=
  [ demo_item "100" "POANG" "oak armchair";
    demo_item "200" "ADDE" "white chair";
    demo_item "100" "POANG classic" "oak armchair";
    demo_item "300" "LACK" "side table";
    demo_item "200" "ADDE oak" "oak chair" ].

(** The text is empty or starts with a character that is no whitespace. *)
Definition no_lead_space (s : string) : Prop :=
  match s with
  | EmptyString => True
  | String c _ => isspace c = false
  end.

(** What the loader guarantees of every item it keeps. *)
Definition loaded_ok (it : IkeaItem) : Prop :=
  strip (item_id it) = item_id it
  /\ item_id it <> ""
  /\ strip (name it) = name it
  /\ name it <> ""
  /\ startswith (lower (item_id it)) (_search it) = true.

Definition demo_rows : list csv_row :=
  [ [("item_id", Some " 100 "); ("name", Some "POANG"); ("category", Some "Chairs");
     ("price", Some "395"); ("short_description", Some "Armchair,  oak");
     ("other_colors", Some "No"); ("sellable_online", Some "TRUE")];
    [("item_id", Some ""); ("name", Some "nameless")];
    [("item_id", Some "200"); ("name", Some "ADDE"); ("category", Some "Chairs");
     ("short_description", Some "Chair 100 cm"); ("designer", None)];
    [("item_id", Some "100"); ("name", Some "POANG copy");
     ("short_description", Some "Armchair")] ].

Definition demo_float (cell : string) : option pyfloat :=
  if String.eqb cell "395" then Some (Finite (395 # 1)) else None.

Definition demo_loaded : list IkeaItem :=
  _load_ikea_catalog demo_float (Some demo_rows).

Definition demo_first : IkeaItem :=
  match demo_loaded with
  | it :: _ => it
  | [] => demo_item "" "" ""
  end.

(** Every character of [s] is in the class [f]. *)
Fixpoint all_chars (f : ascii -> bool) (s : string) : bool :=
  match s with
  | EmptyString => true
  | String c s' => f c && all_chars f s'
  end.

(** [s] is empty or begins with a character that is no word character. *)
Definition word_ends_here (s : string) : bool :=
  match s with
  | EmptyString => true
  | String c _ => negb (isword c)
  end.

(** The words of a text, as the specification has them: the text is cut at
    its non-word characters.  [word_split s ws] holds when [ws] are, in
    order, the maximal non-empty runs of word characters of [s]. *)
Inductive word_split : string -> list string -> Prop :=
| split_end (sep : string) :
    all_chars (fun c => negb (isword c)) sep = true ->
    word_split sep []
| split_word (sep w rest : string) (ws : list string) :
    all_chars (fun c => negb (isword c)) sep = true ->
    w <> EmptyString ->
    all_chars isword w = true ->
    word_ends_here rest = true ->
    word_split rest ws ->
    word_split (sep ++ w ++ rest)%string (w :: ws).

(** The score of the specification, for the words [ws] of the query [q]:
    10 for the item_id, 3 for the whole query in the searchable text, 1 for
    each word found there. *)
Definition words_score (ws : list string) (q : string) (item : IkeaItem) : Z :=
  (if String.eqb q (lower (item_id item)) then 10 else 0)
  + (if contains (_search item) q then 3 else 0)
  + Z.of_nat (List.length (filter (fun w => contains (_search item) w) ws)).

(** [d] is the public copy of the item [it]: it has no entry under a key
    that starts with an underscore, and under every other key it has what
    the item's dict has. *)
Definition public_view (it : IkeaItem) (d : dict) : Prop :=
  (forall k, startswith "_" k = true -> PyDict.get k d = None)
  /\ (forall k, startswith "_" k = false ->
                PyDict.get k d = PyDict.get k (ikea_dict it)).

(** The three tools that write to a log. *)
Definition RECORD_TOOLS : list string :=
  ["record_customer_interest"; "record_feedback"; "record_service_feedback"].

(** [w'] is [w] after one reading of the clock and one more entry, stamped
    with that reading, in exactly one of the three logs. *)
Definition appended_one (w w' : World) (entry : dict) : Prop :=
  clock w' = clock w
  /\ clock_reads w' = S (clock_reads w)
  /\ PyDict.get "ts" entry = Some (VStr (utcnow w))
  /\ ((leads w' = leads w ++ [entry] /\ feedback w' = feedback w
       /\ service_feedback w' = service_feedback w)
      \/ (leads w' = leads w /\ feedback w' = feedback w ++ [entry]
          /\ service_feedback w' = service_feedback w)
      \/ (leads w' = leads w /\ feedback w' = feedback w
          /\ service_feedback w' = service_feedback w ++ [entry])).

(* ================================================================== *)
(** * Properties *)

(** ** The embedding on sample inputs *)

Example strip_ex : strip "  Ikea 12 " = "Ikea 12".
Proof. reflexivity. Qed.

Example lower_ex : lower "BILLY-01 Oak" = "billy-01 oak".
Proof. reflexivity. Qed.

Example split_ex :
  split_nonword " billy  oak-2" = [""; "billy"; "oak"; "2"].
Proof. reflexivity. Qed.

Example split_ex2 : split_nonword "a b " = ["a"; "b"; ""].
Proof. reflexivity. Qed.

Example collapse_ex : collapse_spaces "a  b
c" = "a b c".
Proof. reflexivity. Qed.

Example py_round_187_5 : py_round (375 # 2) = 188%Z.
Proof. reflexivity. Qed.
Example py_round_4_5 : py_round (9 # 2) = 4%Z.
Proof. reflexivity. Qed.
Example py_round_neg : py_round (-5 # 2) = (-2)%Z.
Proof. reflexivity. Qed.

Example search_demo :
  map (PyDict.get "name")
    (_search_ikea_items
       [demo_item "100" "POANG" "oak armchair";
        demo_item "200" "ADDE" "white chair";
        demo_item "300" "LACK" "side table"] "Oak Chair")
  = [Some (VStr "POANG"); Some (VStr "ADDE"); Some (VStr "LACK")].
Proof. reflexivity. Qed.

Example missing_three :
  bind_kwargs sig_record_customer_interest []
  = Raise (TypeError "record_customer_interest() missing 3 required positional arguments: 'email', 'name', and 'message'").
Proof. reflexivity. Qed.

Example unexpected_kw :
  bind_kwargs sig_lookup_product [("query", VStr "sofa"); ("limit", VInt 3)]
  = Raise (TypeError "lookup_product() got an unexpected keyword argument 'limit'").
Proof. reflexivity. Qed.

(** ** Rounding *)

Lemma py_round_cases (q : Q) :
  let fl := Qnum q / Zpos (Qden q) in
  (py_round q = fl /\ 2 * (Qnum q mod Zpos (Qden q)) <= Zpos (Qden q))
  \/ (py_round q = fl + 1 /\ Zpos (Qden q) <= 2 * (Qnum q mod Zpos (Qden q))).
Proof.
  unfold py_round; cbv zeta.
  destruct (Z.ltb_spec (2 * (Qnum q mod Z.pos (Qden q))) (Z.pos (Qden q))).
  - left; split; [reflexivity | lia].
  - destruct (Z.ltb_spec (Z.pos (Qden q)) (2 * (Qnum q mod Z.pos (Qden q)))).
    + right; split; [reflexivity | lia].
    + destruct (Z.even _); [left | right]; split; try reflexivity; lia.
Qed.

Lemma py_round_lower (a : Z) (q : Q) :
  (inject_Z a <= q)%Q -> a <= py_round q.
Proof.
  unfold Qle; simpl; intros H.
  assert (Hfl : a <= Qnum q / Zpos (Qden q)).
  { apply Z.div_le_lower_bound; lia. }
  destruct (py_round_cases q) as [[-> _] | [-> _]]; lia.
Qed.

Lemma py_round_upper (b : Z) (q : Q) :
  (q <= inject_Z b)%Q -> py_round q <= b.
Proof.
  unfold Qle; simpl; intros H.
  pose proof (Z.div_mod (Qnum q) (Zpos (Qden q)) ltac:(lia)) as Hdm.
  pose proof (Z.mod_pos_bound (Qnum q) (Zpos (Qden q)) ltac:(lia)) as Hmod.
  destruct (py_round_cases q) as [[-> _] | [-> Hr]].
  - apply Z.div_le_upper_bound; lia.
  - nia.
Qed.

Lemma py_round_half_even (q : Q) :
  (inject_Z (py_round q) - (1 # 2) <= q <= inject_Z (py_round q) + (1 # 2))%Q
  /\ ((q == inject_Z (py_round q) + (1 # 2))%Q
      \/ (q == inject_Z (py_round q) - (1 # 2))%Q -> Z.even (py_round q) = true).
Proof.
  destruct q as [n d].
  pose proof (Z.div_mod n (Zpos d) ltac:(lia)) as Hdm.
  pose proof (Z.mod_pos_bound n (Zpos d) ltac:(lia)) as Hmod.
  unfold py_round, Qle, Qeq; cbn [Qnum Qden Qplus Qminus Qopp inject_Z].
  destruct (Z.ltb_spec (2 * (n mod Z.pos d)) (Z.pos d)) as [H1 | H1].
  - cbn. split; [split; nia | intros [H | H]; nia].
  - destruct (Z.ltb_spec (Z.pos d) (2 * (n mod Z.pos d))) as [H2 | H2].
    + cbn. split; [split; nia | intros [H | H]; nia].
    + destruct (Z.even (n / Z.pos d)) eqn:He.
      * cbn. split; [split; nia | intros _; exact He].
      * cbn. split; [split; nia | intros _].
        rewrite Z.even_add, He. reflexivity.
Qed.

(** ** The nearest double *)

Lemma pow2_pos (k : Z) : (0 < pow2 k)%Q.
Proof. apply Qpower_0_lt. reflexivity. Qed.

Lemma pow2_add (a b : Z) : (pow2 (a + b) == pow2 a * pow2 b)%Q.
Proof. apply Qpower_plus. discriminate. Qed.

Lemma pow2_le (a b : Z) : a <= b -> (pow2 a <= pow2 b)%Q.
Proof. intros H. apply Qpower_le_compat_l; [exact H | discriminate]. Qed.

Lemma pow2_lt (a b : Z) : a < b -> (pow2 a < pow2 b)%Q.
Proof. intros H. apply Qpower_lt_compat_l; [exact H | reflexivity]. Qed.

Lemma pow2_lt_inv (a b : Z) : (pow2 a < pow2 b)%Q -> a < b.
Proof. intros H. apply (Qpower_lt_compat_l_inv 2); [exact H | reflexivity]. Qed.

Lemma pow2_inject (n : Z) : 0 <= n -> (inject_Z (2 ^ n) == pow2 n)%Q.
Proof. intros H. apply Zpower_Qpower. exact H. Qed.

Lemma pow2_sub (a b : Z) : (pow2 (a - b) == pow2 a / pow2 b)%Q.
Proof. apply Qpower_minus. discriminate. Qed.

(** [x / pow2 k * pow2 k] is [x]. *)
Lemma scale_back (x : Q) (k : Z) : (x / pow2 k * pow2 k == x)%Q.
Proof.
  unfold Qdiv. rewrite <- Qmult_assoc, (Qmult_comm (/ pow2 k)).
  rewrite Qmult_inv_r, Qmult_1_r; [reflexivity |].
  intros H. pose proof (pow2_pos k) as Hp. rewrite H in Hp. discriminate Hp.
Qed.

Lemma scale_le (x y : Q) (k : Z) : (x <= y -> x / pow2 k <= y / pow2 k)%Q.
Proof.
  intros H. unfold Qdiv. apply Qmult_le_compat_r; [exact H |].
  apply Qlt_le_weak, Qinv_lt_0_compat, pow2_pos.
Qed.

(** The binade of a positive rational. *)
Lemma ilog2_spec (x : Q) :
  (0 < x)%Q -> (pow2 (ilog2 x) <= x /\ x < pow2 (ilog2 x + 1))%Q.
Proof.
  intros Hx.
  assert (Hn : 0 < Qnum x).
  { unfold Qlt in Hx; cbn in Hx. lia. }
  set (a := Z.log2 (Qnum x)). set (b := Z.log2 (Zpos (Qden x))).
  assert (Ha : 2 ^ a <= Qnum x < 2 ^ (a + 1)).
  { pose proof (Z.log2_spec (Qnum x) Hn) as H. unfold a.
    rewrite <- Z.add_1_r in H. exact H. }
  assert (Hb : 2 ^ b <= Zpos (Qden x) < 2 ^ (b + 1)).
  { pose proof (Z.log2_spec (Zpos (Qden x)) ltac:(lia)) as H. unfold b.
    rewrite <- Z.add_1_r in H. exact H. }
  assert (Ha0 : 0 <= a) by apply Z.log2_nonneg.
  assert (Hb0 : 0 <= b) by apply Z.log2_nonneg.
  assert (Hpa : 0 < 2 ^ a) by (apply Z.pow_pos_nonneg; lia).
  assert (Hpb : 0 < 2 ^ b) by (apply Z.pow_pos_nonneg; lia).
  assert (Hup : (x < pow2 (a - b + 1))%Q).
  { replace (a - b + 1) with ((a + 1) - b) by lia.
    rewrite pow2_sub, <- !pow2_inject by lia.
    apply Qlt_shift_div_l.
    - change 0%Q with (inject_Z 0). rewrite <- Zlt_Qlt. exact Hpb.
    - destruct Ha as [_ Ha]. destruct Hb as [Hb _].
      set (A := 2 ^ (a + 1)) in *. set (B := 2 ^ b) in *.
      clearbody A B. clear a b Ha0 Hb0 Hpa. destruct x as [n d].
      unfold Qlt; cbn [Qnum Qden Qmult inject_Z] in *.
      rewrite Pos.mul_1_r. nia. }
  assert (Hlo : (pow2 (a - b - 1) <= x)%Q).
  { replace (a - b - 1) with (a - (b + 1)) by lia.
    rewrite pow2_sub, <- !pow2_inject by lia.
    apply Qle_shift_div_r.
    - change 0%Q with (inject_Z 0). rewrite <- Zlt_Qlt. lia.
    - destruct Ha as [Ha _]. destruct Hb as [_ Hb].
      set (A := 2 ^ a) in *. set (B := 2 ^ (b + 1)) in *.
      clearbody A B. clear a b Ha0 Hb0 Hpb Hup. destruct x as [n d].
      unfold Qle; cbn [Qnum Qden Qmult inject_Z] in *.
      nia. }
  unfold ilog2. fold a b.
  destruct (Qle_bool (pow2 (a - b)) x) eqn:Hc.
  - split; [apply Qle_bool_iff; exact Hc | exact Hup].
  - split; [exact Hlo |].
    replace (a - b - 1 + 1) with (a - b) by lia.
    apply Qnot_le_lt. intros H. apply Qle_bool_iff in H. congruence.
Qed.

Lemma ilog2_unique (x : Q) (e : Z) :
  (pow2 e <= x)%Q -> (x < pow2 (e + 1))%Q -> ilog2 x = e.
Proof.
  intros Hlo Hup.
  assert (Hx : (0 < x)%Q) by (eapply Qlt_le_trans; [apply pow2_pos | exact Hlo]).
  destruct (ilog2_spec x Hx) as [Hlo' Hup'].
  assert (H1 : ilog2 x < e + 1).
  { apply pow2_lt_inv. eapply Qle_lt_trans; eassumption. }
  assert (H2 : e < ilog2 x + 1).
  { apply pow2_lt_inv. eapply Qle_lt_trans; eassumption. }
  lia.
Qed.

Lemma ilog2_mono (x y : Q) : (0 < x)%Q -> (x <= y)%Q -> ilog2 x <= ilog2 y.
Proof.
  intros Hx Hxy.
  assert (Hy : (0 < y)%Q) by (eapply Qlt_le_trans; eassumption).
  destruct (ilog2_spec x Hx) as [Hlo _].
  destruct (ilog2_spec y Hy) as [_ Hup].
  assert (H : ilog2 x < ilog2 y + 1).
  { apply pow2_lt_inv. eapply Qle_lt_trans; [exact Hlo |].
    eapply Qle_lt_trans; eassumption. }
  lia.
Qed.

Lemma ilog2_Qeq (x y : Q) : (0 < x)%Q -> (x == y)%Q -> ilog2 x = ilog2 y.
Proof.
  intros Hx Hxy. symmetry. apply ilog2_unique.
  - rewrite <- Hxy. apply ilog2_spec, Hx.
  - rewrite <- Hxy. apply ilog2_spec, Hx.
Qed.

(** [round] of an integer is that integer. *)
Lemma py_round_inject (n : Z) : py_round (inject_Z n) = n.
Proof.
  apply Z.le_antisymm.
  - apply py_round_upper, Qle_refl.
  - apply py_round_lower, Qle_refl.
Qed.

Lemma py_round_mono (x y : Q) : (x <= y)%Q -> py_round x <= py_round y.
Proof.
  intros Hxy.
  destruct (Z.le_gt_cases (py_round x) (py_round y)) as [H | H]; [exact H |].
  exfalso.
  destruct (py_round_half_even x) as [[Hx1 Hx2] Hxe].
  destruct (py_round_half_even y) as [[Hy1 Hy2] Hye].
  (* both would sit on the tie between two neighbours, one of them odd *)
  assert (Hgap : (inject_Z (py_round y) + 1 <= inject_Z (py_round x))%Q).
  { change 1%Q with (inject_Z 1). rewrite <- inject_Z_plus, <- Zle_Qle. lia. }
  assert (Ex : (x == inject_Z (py_round x) - (1 # 2))%Q) by lra.
  assert (Ey : (y == inject_Z (py_round y) + (1 # 2))%Q) by lra.
  assert (Heq : (inject_Z (py_round x) == inject_Z (py_round y) + 1)%Q) by lra.
  assert (Hz : py_round x = py_round y + 1).
  { apply inject_Z_injective. rewrite inject_Z_plus. exact Heq. }
  pose proof (Hxe (or_intror Ex)) as E1.
  pose proof (Hye (or_introl Ey)) as E2.
  rewrite Hz, Z.even_add, E2 in E1. discriminate E1.
Qed.

Lemma py_round_Qeq (x y : Q) : (x == y)%Q -> py_round x = py_round y.
Proof.
  intros H. apply Z.le_antisymm; apply py_round_mono; rewrite H; apply Qle_refl.
Qed.

Lemma ulp_exp_ge (x : Q) : -1074 <= ulp_exp x.
Proof. unfold ulp_exp. lia. Qed.

Lemma ulp_exp_mono (x y : Q) : (0 < x)%Q -> (x <= y)%Q -> ulp_exp x <= ulp_exp y.
Proof.
  intros Hx Hxy. pose proof (ilog2_mono x y Hx Hxy). unfold ulp_exp. lia.
Qed.

Lemma round_pos_Qeq (x y : Q) :
  (0 < x)%Q -> (x == y)%Q -> (round_pos x == round_pos y)%Q.
Proof.
  intros Hx Hxy. unfold round_pos, ulp_exp.
  rewrite <- (ilog2_Qeq x y Hx Hxy).
  rewrite (py_round_Qeq (x / pow2 (Z.max (ilog2 x - 52) (-1074)))
             (y / pow2 (Z.max (ilog2 x - 52) (-1074)))).
  - reflexivity.
  - unfold Qdiv. apply Qmult_comp; [exact Hxy | reflexivity].
Qed.

(** The significand of a rounded positive number has at most 53 bits. *)
Lemma significand_range (x : Q) :
  (0 < x)%Q -> 0 <= py_round (x / pow2 (ulp_exp x)) <= 2 ^ 53.
Proof.
  intros Hx. split.
  - apply py_round_lower. change (inject_Z 0) with 0%Q.
    apply Qle_shift_div_l; [apply pow2_pos |].
    rewrite Qmult_0_l. apply Qlt_le_weak, Hx.
  - apply py_round_upper.
    apply Qle_shift_div_r; [apply pow2_pos |].
    rewrite pow2_inject, <- pow2_add by lia.
    destruct (ilog2_spec x Hx) as [_ Hup].
    apply Qlt_le_weak. eapply Qlt_le_trans; [exact Hup |].
    apply pow2_le. unfold ulp_exp. lia.
Qed.

Lemma round_pos_nonneg (x : Q) : (0 < x)%Q -> (0 <= round_pos x)%Q.
Proof.
  intros Hx. unfold round_pos.
  apply Qmult_le_0_compat; [| apply Qlt_le_weak, pow2_pos].
  change 0%Q with (inject_Z 0). rewrite <- Zle_Qle.
  apply significand_range, Hx.
Qed.

Lemma round_pos_mono (x y : Q) :
  (0 < x)%Q -> (x <= y)%Q -> (round_pos x <= round_pos y)%Q.
Proof.
  intros Hx Hxy.
  assert (Hy : (0 < y)%Q) by (eapply Qlt_le_trans; eassumption).
  pose proof (ulp_exp_mono x y Hx Hxy) as Hk.
  destruct (Z.eq_dec (ulp_exp x) (ulp_exp y)) as [Heq | Hne].
  - unfold round_pos. rewrite <- Heq.
    apply Qmult_le_compat_r; [| apply Qlt_le_weak, pow2_pos].
    rewrite <- Zle_Qle. apply py_round_mono, scale_le, Hxy.
  - pose proof (ulp_exp_ge x) as Hge.
    assert (Hky : ulp_exp y = ilog2 y - 52) by (unfold ulp_exp in *; lia).
    assert (Hkx : ilog2 x - 52 <= ulp_exp x) by (unfold ulp_exp; lia).
    destruct (ilog2_spec x Hx) as [_ Hxup].
    destruct (ilog2_spec y Hy) as [Hylo _].
    apply Qle_trans with (pow2 (ulp_exp y + 52)).
    + unfold round_pos.
      setoid_replace (pow2 (ulp_exp y + 52))
        with (inject_Z (2 ^ (ulp_exp y + 52 - ulp_exp x)) * pow2 (ulp_exp x))%Q.
      * apply Qmult_le_compat_r; [| apply Qlt_le_weak, pow2_pos].
        rewrite <- Zle_Qle. apply py_round_upper.
        apply Qle_shift_div_r; [apply pow2_pos |].
        rewrite pow2_inject, <- pow2_add by lia.
        apply Qlt_le_weak. eapply Qlt_le_trans; [exact Hxup |].
        apply pow2_le. lia.
      * rewrite pow2_inject, <- pow2_add by lia.
        replace (ulp_exp y + 52 - ulp_exp x + ulp_exp x) with (ulp_exp y + 52)
          by lia.
        reflexivity.
    + unfold round_pos.
      setoid_replace (pow2 (ulp_exp y + 52))
        with (inject_Z (2 ^ 52) * pow2 (ulp_exp y))%Q.
      * apply Qmult_le_compat_r; [| apply Qlt_le_weak, pow2_pos].
        rewrite <- Zle_Qle. apply py_round_lower.
        apply Qle_shift_div_l; [apply pow2_pos |].
        rewrite pow2_inject, <- pow2_add by lia.
        replace (52 + ulp_exp y) with (ilog2 y) by lia. exact Hylo.
      * rewrite pow2_inject, <- pow2_add by lia.
        replace (52 + ulp_exp y) with (ulp_exp y + 52) by lia.
        reflexivity.
Qed.

(** A number [m * 2^k] with [m] below [2^53] and [k] no less than [-1074] is
    its own rounding. *)
Lemma round_pos_repr (m k : Z) :
  0 < m < 2 ^ 53 -> -1074 <= k ->
  (round_pos (inject_Z m * pow2 k) == inject_Z m * pow2 k)%Q.
Proof.
  intros [Hm0 Hm] Hk.
  set (x := (inject_Z m * pow2 k)%Q).
  set (L := Z.log2 m).
  assert (HL : 2 ^ L <= m < 2 ^ (L + 1)).
  { pose proof (Z.log2_spec m Hm0) as H. rewrite <- Z.add_1_r in H. exact H. }
  assert (HL0 : 0 <= L) by apply Z.log2_nonneg.
  assert (HL52 : L <= 52).
  { assert (L < 53); [| lia].
    apply (Z.pow_lt_mono_r_iff 2); lia. }
  assert (He : ilog2 x = L + k).
  { apply ilog2_unique; unfold x.
    - rewrite pow2_add, <- (pow2_inject L) by lia.
      apply Qmult_le_compat_r; [| apply Qlt_le_weak, pow2_pos].
      rewrite <- Zle_Qle. lia.
    - replace (L + k + 1) with ((L + 1) + k) by lia.
      rewrite pow2_add, <- (pow2_inject (L + 1)) by lia.
      apply Qmult_lt_compat_r; [apply pow2_pos |].
      rewrite <- Zlt_Qlt. lia. }
  assert (Hk' : ulp_exp x <= k) by (unfold ulp_exp; lia).
  pose proof (ulp_exp_ge x) as Hge.
  unfold round_pos. set (k' := ulp_exp x) in *.
  rewrite (py_round_Qeq (x / pow2 k') (inject_Z (m * 2 ^ (k - k')))).
  - rewrite py_round_inject, inject_Z_mult, (pow2_inject (k - k')) by lia.
    rewrite <- Qmult_assoc, <- pow2_add.
    replace (k - k' + k') with k by lia. reflexivity.
  - rewrite inject_Z_mult, (pow2_inject (k - k')), pow2_sub by lia.
    unfold x, Qdiv. rewrite Qmult_assoc. reflexivity.
Qed.

Lemma round_pos_repr53 (m k : Z) :
  0 < m <= 2 ^ 53 -> -1074 <= k ->
  (round_pos (inject_Z m * pow2 k) == inject_Z m * pow2 k)%Q.
Proof.
  intros [Hm0 Hm] Hk.
  destruct (Z.eq_dec m (2 ^ 53)) as [-> | Hne].
  - assert (E : (inject_Z (2 ^ 53) * pow2 k == inject_Z (2 ^ 52) * pow2 (k + 1))%Q).
    { rewrite !pow2_inject, <- !pow2_add by lia.
      replace (52 + (k + 1)) with (53 + k) by lia. reflexivity. }
    assert (Hp : (0 < inject_Z (2 ^ 53) * pow2 k)%Q).
    { apply Qmult_lt_0_compat; [reflexivity | apply pow2_pos]. }
    rewrite (round_pos_Qeq _ _ Hp E), E. apply round_pos_repr; [split; reflexivity | lia].
  - apply round_pos_repr; [lia | exact Hk].
Qed.

Lemma round_pos_idem (x : Q) :
  (0 < x)%Q -> (0 < round_pos x)%Q -> (round_pos (round_pos x) == round_pos x)%Q.
Proof.
  intros Hx Hr.
  pose proof (significand_range x Hx) as [Hm0 Hm].
  unfold round_pos at 2 3. apply round_pos_repr53; [| apply ulp_exp_ge].
  split; [| exact Hm].
  destruct (Z.eq_dec (py_round (x / pow2 (ulp_exp x))) 0) as [E | E]; [| lia].
  unfold round_pos in Hr. rewrite E in Hr. rewrite Qmult_0_l in Hr.
  discriminate Hr.
Qed.

Lemma round_nearest_pos (x : Q) : (0 < x)%Q -> round_nearest x = round_pos x.
Proof.
  intros Hx. unfold round_nearest.
  destruct (Qcompare_spec x 0) as [H | H | H]; [| | reflexivity].
  - rewrite H in Hx. discriminate Hx.
  - exfalso. exact (Qlt_irrefl _ (Qlt_trans _ _ _ Hx H)).
Qed.

Lemma round_nearest_neg (x : Q) :
  (x < 0)%Q -> round_nearest x = (- round_pos (- x))%Q.
Proof.
  intros Hx. unfold round_nearest.
  destruct (Qcompare_spec x 0) as [H | H | H]; [| reflexivity |].
  - rewrite H in Hx. discriminate Hx.
  - exfalso. exact (Qlt_irrefl _ (Qlt_trans _ _ _ Hx H)).
Qed.

Lemma round_nearest_zero (x : Q) : (x == 0)%Q -> round_nearest x = 0%Q.
Proof.
  intros Hx. unfold round_nearest.
  destruct (Qcompare_spec x 0) as [H | H | H]; [reflexivity | |];
    rewrite Hx in H; discriminate H.
Qed.

Lemma round_nearest_Qeq (x y : Q) :
  (x == y)%Q -> (round_nearest x == round_nearest y)%Q.
Proof.
  intros Hxy.
  destruct (Qcompare_spec x 0) as [H | H | H].
  - rewrite (round_nearest_zero x H).
    rewrite (round_nearest_zero y); [reflexivity | rewrite <- Hxy; exact H].
  - rewrite (round_nearest_neg x H).
    rewrite (round_nearest_neg y) by (rewrite <- Hxy; exact H).
    apply Qopp_comp, round_pos_Qeq; [lra | rewrite Hxy; reflexivity].
  - rewrite (round_nearest_pos x H).
    rewrite (round_nearest_pos y) by (rewrite <- Hxy; exact H).
    apply round_pos_Qeq; assumption.
Qed.

Lemma round_nearest_opp (x : Q) :
  (round_nearest (- x) == - round_nearest x)%Q.
Proof.
  destruct (Qcompare_spec x 0) as [H | H | H].
  - rewrite (round_nearest_zero x H).
    rewrite (round_nearest_zero (- x)); [reflexivity | lra].
  - rewrite (round_nearest_neg x H).
    rewrite (round_nearest_pos (- x)) by lra. lra.
  - rewrite (round_nearest_pos x H).
    rewrite (round_nearest_neg (- x)) by lra.
    apply Qopp_comp, round_pos_Qeq; [lra | lra].
Qed.

Lemma round_nearest_nonneg (x : Q) : (0 <= x)%Q -> (0 <= round_nearest x)%Q.
Proof.
  intros Hx. destruct (Qcompare_spec x 0) as [H | H | H].
  - rewrite (round_nearest_zero x H). apply Qle_refl.
  - lra.
  - rewrite (round_nearest_pos x H). apply round_pos_nonneg, H.
Qed.

Lemma round_nearest_mono (x y : Q) :
  (x <= y)%Q -> (round_nearest x <= round_nearest y)%Q.
Proof.
  intros Hxy.
  destruct (Qlt_le_dec 0 x) as [Hx | Hx].
  - rewrite (round_nearest_pos x Hx), (round_nearest_pos y) by lra.
    apply round_pos_mono; assumption.
  - destruct (Qlt_le_dec y 0) as [Hy | Hy].
    + rewrite (round_nearest_neg y Hy), (round_nearest_neg x) by lra.
      apply Qopp_le_compat, round_pos_mono; lra.
    + apply Qle_trans with 0%Q; [| apply round_nearest_nonneg, Hy].
      pose proof (round_nearest_nonneg (- x) ltac:(lra)) as H.
      rewrite round_nearest_opp in H. lra.
Qed.

Lemma round_nearest_idem (x : Q) :
  (round_nearest (round_nearest x) == round_nearest x)%Q.
Proof.
  assert (Hpos : forall z, (0 < z)%Q ->
            (round_nearest (round_nearest z) == round_nearest z)%Q).
  { intros z Hz. rewrite (round_nearest_pos z Hz).
    destruct (Qle_lt_or_eq _ _ (round_pos_nonneg z Hz)) as [Hr | Hr].
    - rewrite (round_nearest_pos _ Hr). apply round_pos_idem; assumption.
    - rewrite (round_nearest_zero (round_pos z)) by (symmetry; exact Hr).
      exact Hr. }
  destruct (Qcompare_spec x 0) as [H | H | H].
  - rewrite (round_nearest_zero x H). reflexivity.
  - assert (E : (round_nearest x == - round_nearest (- x))%Q).
    { rewrite round_nearest_opp. lra. }
    rewrite (round_nearest_Qeq _ _ E), round_nearest_opp, E.
    apply Qopp_comp, Hpos. lra.
  - apply Hpos, H.
Qed.

Lemma round_nearest_twice (x : Q) :
  (round_nearest x == x)%Q -> (round_nearest (2 * x) == 2 * x)%Q.
Proof.
  assert (Hpos : forall z, (0 < z)%Q -> (round_nearest z == z)%Q ->
            (round_nearest (2 * z) == 2 * z)%Q).
  { intros z Hz Hfix. rewrite (round_nearest_pos z Hz) in Hfix.
    rewrite (round_nearest_pos (2 * z)) by lra.
    pose proof (significand_range z Hz) as [Hm0 Hm].
    set (m := py_round (z / pow2 (ulp_exp z))) in *.
    assert (E : (2 * z == inject_Z m * pow2 (ulp_exp z + 1))%Q).
    { rewrite <- Hfix at 1. unfold round_pos. fold m.
      rewrite pow2_add. change (pow2 1) with 2%Q. ring. }
    assert (Hp : (0 < 2 * z)%Q) by lra.
    rewrite (round_pos_Qeq _ _ Hp E), E.
    apply round_pos_repr53; [| pose proof (ulp_exp_ge z); lia].
    split; [| exact Hm].
    destruct (Z.eq_dec m 0) as [E0 | E0]; [| lia].
    rewrite E0, Qmult_0_l in E. lra. }
  intros Hfix. destruct (Qcompare_spec x 0) as [H | H | H].
  - rewrite (round_nearest_zero (2 * x)); lra.
  - assert (E : (2 * x == - (2 * - x))%Q) by ring.
    rewrite (round_nearest_Qeq _ _ E), round_nearest_opp.
    rewrite (Hpos (- x)%Q); [ring | lra |].
    rewrite round_nearest_opp, Hfix. reflexivity.
  - apply Hpos; assumption.
Qed.

Lemma nearest_double_Qeq (x y : Q) :
  (x == y)%Q -> (nearest_double x == nearest_double y)%Q.
Proof.
  intros H. unfold nearest_double. rewrite !Qred_correct.
  apply round_nearest_Qeq, H.
Qed.

Lemma nearest_double_opp (x : Q) :
  (nearest_double (- x) == - nearest_double x)%Q.
Proof.
  unfold nearest_double. rewrite !Qred_correct. apply round_nearest_opp.
Qed.

Lemma nearest_double_nonneg (x : Q) : (0 <= x)%Q -> (0 <= nearest_double x)%Q.
Proof.
  intros H. unfold nearest_double. rewrite Qred_correct.
  apply round_nearest_nonneg, H.
Qed.

(** Rounding to the nearest double is monotone. *)
Lemma nearest_double_mono (x y : Q) :
  (x <= y)%Q -> (nearest_double x <= nearest_double y)%Q.
Proof.
  intros H. unfold nearest_double. rewrite !Qred_correct.
  apply round_nearest_mono, H.
Qed.

(** The result of rounding is a double: rounding it again changes nothing. *)
Lemma nearest_double_idem (x : Q) :
  (nearest_double (nearest_double x) == nearest_double x)%Q.
Proof.
  unfold nearest_double at 1 3. rewrite !Qred_correct.
  rewrite (round_nearest_Qeq (nearest_double x) (round_nearest x)).
  - apply round_nearest_idem.
  - apply Qred_correct.
Qed.

(** Twice a double is a double (overflow apart). *)
Lemma nearest_double_twice (x : Q) :
  (nearest_double x == x)%Q -> (nearest_double (2 * x) == 2 * x)%Q.
Proof.
  unfold nearest_double. rewrite !Qred_correct. apply round_nearest_twice.
Qed.

(** Rounding does not cross a double. *)
Lemma nearest_double_below (x c : Q) :
  (nearest_double c == c)%Q -> (x <= c)%Q -> (nearest_double x <= c)%Q.
Proof.
  intros Hc H. rewrite <- Hc. apply nearest_double_mono, H.
Qed.

Lemma nearest_double_above (x c : Q) :
  (nearest_double c == c)%Q -> (c <= x)%Q -> (c <= nearest_double x)%Q.
Proof.
  intros Hc H. rewrite <- Hc at 1. apply nearest_double_mono, H.
Qed.

Example nearest_0_9 :
  nearest_double (9 # 10) = (8106479329266893 # 9007199254740992)%Q.
Proof. vm_compute. reflexivity. Qed.

Example nearest_2_53_1 : nearest_double (inject_Z (2 ^ 53 + 1)) = inject_Z (2 ^ 53).
Proof. vm_compute. reflexivity. Qed.

Example nearest_2_53_3 :
  nearest_double (inject_Z (2 ^ 53 + 3)) = inject_Z (2 ^ 53 + 4).
Proof. vm_compute. reflexivity. Qed.

Example nearest_subnormal : nearest_double (3 # (2 ^ 1075)) = (1 # (2 ^ 1073))%Q.
Proof. vm_compute. reflexivity. Qed.

Example nearest_underflow : nearest_double (1 # (2 ^ 1075)) = 0%Q.
Proof. vm_compute. reflexivity. Qed.

(** ** Numbers *)

Lemma overflows_bound (r K : Q) :
  (0 <= r)%Q -> (r <= K)%Q -> Qle_bool (pow2 1024) K = false ->
  overflows r = false.
Proof.
  intros H0 HK Hb. unfold overflows.
  destruct (Qle_bool (pow2 1024) (Qabs r)) eqn:E; [| reflexivity].
  apply Qle_bool_iff in E. rewrite Qabs_pos in E by exact H0.
  assert (Hc : Qle_bool (pow2 1024) K = true).
  { apply Qle_bool_iff. eapply Qle_trans; eassumption. }
  congruence.
Qed.

Lemma float_of_int_1 : float_of_int 1 = Ret (Finite 1).
Proof. vm_compute. reflexivity. Qed.

Lemma float_of_int_2 : float_of_int 2 = Ret (Finite 2).
Proof. vm_compute. reflexivity. Qed.

Lemma literal_0_9 :
  float_literal (9 # 10) = NFloat (Finite (nearest_double (9 # 10))).
Proof. vm_compute. reflexivity. Qed.

Lemma literal_1_25 : float_literal (5 # 4) = NFloat (Finite (5 # 4)).
Proof. vm_compute. reflexivity. Qed.

Lemma nearest_0_9_range : (0 <= nearest_double (9 # 10) <= 1)%Q.
Proof. split; apply Qle_bool_iff; vm_compute; reflexivity. Qed.

Lemma price_bound_double : (nearest_double price_bound == price_bound)%Q.
Proof. apply Qeq_bool_iff. vm_compute. reflexivity. Qed.

(** [round(to_float q)] goes wrong only by overflow. *)
Lemma round_result_cases (q : Q) :
  round_result q
  = if overflows (nearest_double q)
    then Raise (OverflowError "cannot convert float infinity to integer")
    else Ret (py_round (nearest_double q)).
Proof.
  unfold round_result, to_float.
  destruct (overflows (nearest_double q)); reflexivity.
Qed.

Lemma float_view_double (a : number) (q : Q) :
  rule_number a q -> (nearest_double (float_view a) == float_view a)%Q.
Proof.
  destruct a as [n | [x | s |]]; cbn [rule_number float_view];
    [intros _; apply nearest_double_idem | intros (_ & H & _); exact H
    | contradiction | contradiction].
Qed.

Lemma float_view_nonneg (a : number) (q : Q) :
  rule_number a q -> (0 <= q)%Q -> (0 <= float_view a)%Q.
Proof.
  destruct a as [n | [x | s |]]; cbn [rule_number float_view];
    [intros -> H; apply nearest_double_nonneg, H
    | intros (-> & _ & _) H; exact H | contradiction | contradiction].
Qed.

(** The float view keeps the order of the exact values. *)
Lemma float_view_mono (a b : number) (lo hi : Q) :
  rule_number a lo -> rule_number b hi -> (lo <= hi)%Q ->
  (float_view a <= float_view b)%Q.
Proof.
  destruct a as [m | [x | s |]]; destruct b as [n | [y | t |]];
    cbn [rule_number float_view]; try contradiction.
  - intros -> -> H. apply nearest_double_mono, H.
  - intros -> (-> & Hy & _) H. apply nearest_double_below; assumption.
  - intros (-> & Hx & _) -> H. apply nearest_double_above; assumption.
  - intros (-> & _) (-> & _) H. exact H.
Qed.

Lemma float_view_below (a : number) (q K : Q) :
  rule_number a q -> (q <= K)%Q -> (nearest_double K == K)%Q ->
  (float_view a <= K)%Q.
Proof.
  destruct a as [n | [x | s |]]; cbn [rule_number float_view];
    [intros -> H HK; apply nearest_double_below; assumption
    | intros (-> & _ & _) H _; exact H | contradiction | contradiction].
Qed.

(** Converting a rule number to a float fails only for a huge [int]. *)
Lemma as_float_rule (a : number) (q : Q) :
  rule_number a q ->
  as_float a
  = if overflows (float_view a)
    then Raise (OverflowError "int too large to convert to float")
    else Ret (Finite (float_view a)).
Proof.
  destruct a as [n | [x | s |]]; cbn [rule_number float_view as_float];
    [intros _; reflexivity | intros (_ & _ & ->); reflexivity
    | contradiction | contradiction].
Qed.

Lemma num_mul_float (a : number) (y : pyfloat) :
  num_mul a (NFloat y) = x <- as_float a ;; Ret (NFloat (fmul x y)).
Proof. destruct a; reflexivity. Qed.

(** ** The three prices *)

Lemma budget_price_rule (a : number) (q : Q) :
  rule_number a q ->
  budget_price a
  = if overflows (float_view a)
    then Raise (OverflowError "int too large to convert to float")
    else round_result (float_view a * nearest_double (9 # 10)).
Proof.
  intros Ha. unfold budget_price.
  rewrite literal_0_9, num_mul_float, (as_float_rule a q Ha).
  destruct (overflows (float_view a)); reflexivity.
Qed.

Lemma rush_price_rule (b : number) (q : Q) :
  rule_number b q ->
  rush_price b
  = if overflows (float_view b)
    then Raise (OverflowError "int too large to convert to float")
    else round_result (float_view b * (5 # 4)).
Proof.
  intros Hb. unfold rush_price.
  rewrite literal_1_25, num_mul_float, (as_float_rule b q Hb).
  destruct (overflows (float_view b)); reflexivity.
Qed.

(** The sum of two [int]s is exact, and so is the quotient rounded once. *)
Lemma standard_price_ints (m n : Z) :
  standard_price (NInt m) (NInt n)
  = if overflows (nearest_double (inject_Z (m + n) / inject_Z 2))
    then Raise (OverflowError "integer division result too large for a float")
    else Ret (py_round (nearest_double (inject_Z (m + n) / inject_Z 2))).
Proof.
  unfold standard_price, num_add, num_truediv, int_truediv.
  cbn [bind Z.eqb].
  destruct (overflows (nearest_double (inject_Z (m + n) / inject_Z 2)));
    reflexivity.
Qed.

(** With a float among the two prices, the sum and the half round each. *)
Lemma standard_price_floats (a b : number) (lo hi : Q) :
  rule_number a lo -> rule_number b hi ->
  (forall m n, a = NInt m -> b = NInt n -> False) ->
  standard_price a b
  = if overflows (float_view a)
    then Raise (OverflowError "int too large to convert to float")
    else if overflows (float_view b)
    then Raise (OverflowError "int too large to convert to float")
    else if overflows (nearest_double (float_view a + float_view b))
    then Raise (OverflowError "cannot convert float infinity to integer")
    else round_result (nearest_double (float_view a + float_view b) / 2).
Proof.
  intros Ha Hb Hmixed.
  assert (E : standard_price a b
              = x <- as_float a ;; y <- as_float b ;;
                z <- fdiv (fadd x y) (Finite 2) ;; num_round (NFloat z)).
  { unfold standard_price.
    destruct a as [m | x]; destruct b as [n | y];
      [exfalso; exact (Hmixed m n eq_refl eq_refl) | | |];
      cbn [num_add as_float bind];
      try (destruct (float_of_int _) as [f |]; cbn [bind]; [| reflexivity]);
      unfold num_truediv; cbn [as_float bind]; rewrite float_of_int_2;
      cbn [bind]; destruct (fdiv _ _); reflexivity. }
  rewrite E, (as_float_rule a lo Ha), (as_float_rule b hi Hb).
  destruct (overflows (float_view a)); [reflexivity |].
  destruct (overflows (float_view b)); [reflexivity |].
  cbn [bind fadd]. unfold to_float at 1.
  destruct (overflows (nearest_double (float_view a + float_view b))).
  - reflexivity.
  - reflexivity.
Qed.

Lemma scaled_by_0_9 (A : Q) :
  (0 <= A)%Q -> (nearest_double A == A)%Q ->
  (0 <= nearest_double (A * nearest_double (9 # 10)) <= A)%Q.
Proof.
  intros H0 HA. pose proof nearest_0_9_range as [Hc0 Hc1].
  set (c := nearest_double (9 # 10)) in *. split.
  - apply nearest_double_nonneg. apply Qmult_le_0_compat; assumption.
  - apply nearest_double_below; [exact HA |].
    clearbody c. nra.
Qed.

Lemma scaled_by_1_25 (B : Q) :
  (0 <= B)%Q -> (nearest_double B == B)%Q ->
  (B <= nearest_double (B * (5 # 4)))%Q.
Proof.
  intros H0 HB. apply nearest_double_above; [exact HB | lra].
Qed.

(** The rounded half of the rounded sum of two doubles lies between them. *)
Lemma half_sum_between (A B : Q) :
  (A <= B)%Q -> (nearest_double A == A)%Q -> (nearest_double B == B)%Q ->
  (A <= nearest_double (nearest_double (A + B) / 2) <= B)%Q.
Proof.
  intros HAB HA HB.
  assert (Hlo : (2 * A <= nearest_double (A + B))%Q).
  { apply nearest_double_above; [apply nearest_double_twice, HA | lra]. }
  assert (Hhi : (nearest_double (A + B) <= 2 * B)%Q).
  { apply nearest_double_below; [apply nearest_double_twice, HB | lra]. }
  split.
  - apply nearest_double_above; [exact HA |].
    apply Qle_shift_div_l; [reflexivity | lra].
  - apply nearest_double_below; [exact HB |].
    apply Qle_shift_div_r; [reflexivity | lra].
Qed.

Lemma half_int_sum_between (m n : Z) :
  m <= n ->
  (nearest_double (inject_Z m)
   <= nearest_double (inject_Z (m + n) / inject_Z 2)
   <= nearest_double (inject_Z n))%Q.
Proof.
  intros H. rewrite Zle_Qle in H. rewrite inject_Z_plus.
  change (inject_Z 2) with 2%Q.
  split; apply nearest_double_mono;
    [apply Qle_shift_div_l | apply Qle_shift_div_r]; try reflexivity; lra.
Qed.

Lemma round_result_ret (q : Q) (p : Z) :
  round_result q = Ret p ->
  p = py_round (nearest_double q) /\ overflows (nearest_double q) = false.
Proof.
  rewrite round_result_cases.
  destruct (overflows (nearest_double q)); [discriminate |].
  intros [= <-]. split; reflexivity.
Qed.

Lemma round_result_raise (q : Q) (e : exn) :
  round_result q = Raise e -> exists text, e = OverflowError text.
Proof.
  rewrite round_result_cases.
  destruct (overflows (nearest_double q)); [| discriminate].
  intros [= <-]. eexists; reflexivity.
Qed.

Lemma round_result_returns (q K : Q) :
  (0 <= q)%Q -> (nearest_double q <= K)%Q -> Qle_bool (pow2 1024) K = false ->
  round_result q = Ret (py_round (nearest_double q)).
Proof.
  intros H0 HK Hb. rewrite round_result_cases.
  rewrite (overflows_bound (nearest_double q) K); [reflexivity | | exact HK | exact Hb].
  apply nearest_double_nonneg, H0.
Qed.

Lemma both_ints_or_not (a b : number) :
  (exists m n, a = NInt m /\ b = NInt n)
  \/ (forall m n, a = NInt m -> b = NInt n -> False).
Proof.
  destruct a as [m | x]; [destruct b as [n | y] |].
  - left. exists m, n. split; reflexivity.
  - right. intros ? ? _ H. discriminate H.
  - right. intros ? ? H _. discriminate H.
Qed.

(** The budget price is at most the rounded minimum price. *)
Lemma budget_price_ret (a : number) (q : Q) (p : Z) :
  rule_number a q -> (0 <= q)%Q -> budget_price a = Ret p ->
  0 <= p <= py_round (float_view a).
Proof.
  intros Ha H0. rewrite (budget_price_rule a q Ha).
  destruct (overflows (float_view a)); [discriminate |].
  intros Hp. apply round_result_ret in Hp. destruct Hp as [-> _].
  destruct (scaled_by_0_9 (float_view a) (float_view_nonneg a q Ha H0)
              (float_view_double a q Ha)) as [Hlo Hhi].
  split.
  - apply py_round_lower. exact Hlo.
  - apply py_round_mono. exact Hhi.
Qed.

(** The rush price is at least the rounded maximum price. *)
Lemma rush_price_ret (b : number) (q : Q) (p : Z) :
  rule_number b q -> (0 <= q)%Q -> rush_price b = Ret p ->
  py_round (float_view b) <= p.
Proof.
  intros Hb H0. rewrite (rush_price_rule b q Hb).
  destruct (overflows (float_view b)); [discriminate |].
  intros Hp. apply round_result_ret in Hp. destruct Hp as [-> _].
  apply py_round_mono, scaled_by_1_25.
  - exact (float_view_nonneg b q Hb H0).
  - exact (float_view_double b q Hb).
Qed.

(** The standard price lies between the two rounded prices. *)
Lemma standard_price_ret (a b : number) (lo hi : Q) (p : Z) :
  rule_number a lo -> rule_number b hi -> (lo <= hi)%Q ->
  standard_price a b = Ret p ->
  py_round (float_view a) <= p <= py_round (float_view b).
Proof.
  intros Ha Hb Hle.
  destruct (both_ints_or_not a b) as [(m & n & -> & ->) | Hmixed].
  - rewrite standard_price_ints.
    destruct (overflows _); [discriminate |]. intros [= <-].
    cbn [rule_number] in Ha, Hb. subst lo hi. rewrite <- Zle_Qle in Hle.
    destruct (half_int_sum_between m n Hle) as [H1 H2].
    cbn [float_view]. split; apply py_round_mono; assumption.
  - rewrite (standard_price_floats a b lo hi Ha Hb Hmixed).
    destruct (overflows (float_view a)); [discriminate |].
    destruct (overflows (float_view b)); [discriminate |].
    destruct (overflows (nearest_double _)); [discriminate |].
    intros Hp. apply round_result_ret in Hp. destruct Hp as [-> _].
    destruct (half_sum_between (float_view a) (float_view b)
                (float_view_mono a b lo hi Ha Hb Hle)
                (float_view_double a lo Ha) (float_view_double b hi Hb))
      as [H1 H2].
    split; apply py_round_mono; assumption.
Qed.

(** Nothing but an overflow can go wrong in a price. *)
Lemma budget_price_raise (a : number) (q : Q) (e : exn) :
  rule_number a q -> budget_price a = Raise e ->
  exists text, e = OverflowError text.
Proof.
  intros Ha. rewrite (budget_price_rule a q Ha).
  destruct (overflows (float_view a)).
  - intros [= <-]. eexists; reflexivity.
  - apply round_result_raise.
Qed.

Lemma rush_price_raise (b : number) (q : Q) (e : exn) :
  rule_number b q -> rush_price b = Raise e ->
  exists text, e = OverflowError text.
Proof.
  intros Hb. rewrite (rush_price_rule b q Hb).
  destruct (overflows (float_view b)).
  - intros [= <-]. eexists; reflexivity.
  - apply round_result_raise.
Qed.

Lemma standard_price_raise (a b : number) (lo hi : Q) (e : exn) :
  rule_number a lo -> rule_number b hi -> standard_price a b = Raise e ->
  exists text, e = OverflowError text.
Proof.
  intros Ha Hb.
  destruct (both_ints_or_not a b) as [(m & n & -> & ->) | Hmixed].
  - rewrite standard_price_ints.
    destruct (overflows _); [| discriminate].
    intros [= <-]. eexists; reflexivity.
  - rewrite (standard_price_floats a b lo hi Ha Hb Hmixed).
    destruct (overflows (float_view a)); [intros [= <-]; eexists; reflexivity |].
    destruct (overflows (float_view b)); [intros [= <-]; eexists; reflexivity |].
    destruct (overflows (nearest_double _));
      [intros [= <-]; eexists; reflexivity |].
    apply round_result_raise.
Qed.

(** Below the bound every price is returned. *)
Lemma float_view_no_overflow (a : number) (q : Q) :
  rule_number a q -> (0 <= q <= price_bound)%Q ->
  overflows (float_view a) = false.
Proof.
  intros Ha [H0 HK]. apply (overflows_bound _ price_bound).
  - exact (float_view_nonneg a q Ha H0).
  - exact (float_view_below a q price_bound Ha HK price_bound_double).
  - vm_compute. reflexivity.
Qed.

Lemma budget_price_returns (a : number) (q : Q) :
  rule_number a q -> (0 <= q <= price_bound)%Q ->
  exists p, budget_price a = Ret p.
Proof.
  intros Ha Hq. pose proof Hq as [H0 HK].
  rewrite (budget_price_rule a q Ha), (float_view_no_overflow a q Ha Hq).
  destruct (scaled_by_0_9 (float_view a) (float_view_nonneg a q Ha H0)
              (float_view_double a q Ha)) as [Hlo Hhi].
  eexists. apply (round_result_returns _ price_bound).
  - apply Qmult_le_0_compat;
      [exact (float_view_nonneg a q Ha H0) | apply nearest_0_9_range].
  - eapply Qle_trans; [exact Hhi |].
    exact (float_view_below a q price_bound Ha HK price_bound_double).
  - vm_compute. reflexivity.
Qed.

Lemma rush_price_returns (b : number) (q : Q) :
  rule_number b q -> (0 <= q <= price_bound)%Q ->
  exists p, rush_price b = Ret p.
Proof.
  intros Hb Hq. pose proof Hq as [H0 HK].
  rewrite (rush_price_rule b q Hb), (float_view_no_overflow b q Hb Hq).
  pose proof (float_view_nonneg b q Hb H0) as Hnn.
  pose proof (float_view_below b q price_bound Hb HK price_bound_double) as Hbelow.
  eexists.
  apply (round_result_returns _ (nearest_double (price_bound * (5 # 4)))).
  - lra.
  - apply nearest_double_mono. lra.
  - vm_compute. reflexivity.
Qed.

Lemma standard_price_returns (a b : number) (lo hi : Q) :
  rule_number a lo -> rule_number b hi ->
  (0 <= lo)%Q -> (lo <= hi)%Q -> (hi <= price_bound)%Q ->
  exists p, standard_price a b = Ret p.
Proof.
  intros Ha Hb H0 Hle HK.
  assert (Hlo : (0 <= lo <= price_bound)%Q) by (split; lra).
  assert (Hhi : (0 <= hi <= price_bound)%Q) by (split; lra).
  destruct (both_ints_or_not a b) as [(m & n & -> & ->) | Hmixed].
  - rewrite standard_price_ints.
    cbn [rule_number] in Ha, Hb. subst lo hi.
    pose proof Hle as Hmn. rewrite <- Zle_Qle in Hmn.
    destruct (half_int_sum_between m n Hmn) as [H1 H2].
    rewrite (overflows_bound _ price_bound); [eexists; reflexivity | | |].
    + eapply Qle_trans; [| exact H1]. apply nearest_double_nonneg, H0.
    + eapply Qle_trans; [exact H2 |].
      apply nearest_double_below; [apply price_bound_double | exact HK].
    + vm_compute. reflexivity.
  - rewrite (standard_price_floats a b lo hi Ha Hb Hmixed).
    rewrite (float_view_no_overflow a lo Ha Hlo).
    rewrite (float_view_no_overflow b hi Hb Hhi).
    pose proof (float_view_nonneg a lo Ha H0) as HA0.
    pose proof (float_view_mono a b lo hi Ha Hb Hle) as HAB.
    pose proof (float_view_below b hi price_bound Hb HK price_bound_double) as HBK.
    destruct (half_sum_between (float_view a) (float_view b) HAB
                (float_view_double a lo Ha) (float_view_double b hi Hb))
      as [H1 H2].
    assert (Hsum : (0 <= nearest_double (float_view a + float_view b))%Q).
    { apply nearest_double_nonneg. lra. }
    rewrite (overflows_bound _ (nearest_double (price_bound + price_bound)));
      [| exact Hsum | apply nearest_double_mono; lra | vm_compute; reflexivity].
    eexists. apply (round_result_returns _ price_bound).
    + apply Qle_shift_div_l; [reflexivity | lra].
    + lra.
    + vm_compute. reflexivity.
Qed.

(** ** Repair estimate *)

(** On text arguments the result is decided by the rules of the issue; only
    the computation of the tiers can raise. *)
Lemma estimate_repair_text (PR : price_rules) (issue material size : string) :
  estimate_repair PR (VStr issue) (VStr material) (VStr size)
  = match PyDict.get (norm_issue issue) PR with
    | None | Some [] =>
        Ret (failure ("No pricing rule for issue '" ++ norm_issue issue ++ "'."))
    | Some (((_, first_bucket) :: _) as rules) =>
        let bucket :=
          match PyDict.get (norm_material material) rules with
          | Some b => b
          | None =>
              match PyDict.get "any" rules with
              | Some b => b
              | None => first_bucket
              end
          end in
        match PyDict.get (norm_size size) bucket with
        | None => Ret (size_failure (norm_size size))
        | Some numbers =>
            estimate_success (norm_issue issue) (norm_material material)
              (norm_size size) numbers
        end
    end.
Proof.
  unfold estimate_repair, norm_issue, norm_material, norm_size, py_or, truthy.
  destruct material, size; cbn [is_empty negb v_strip bind];
    destruct (PyDict.get (lower (strip issue)) PR) as [[| [k0 b0] rules] |];
    try reflexivity;
    match goal with
    | |- context [match ?g with Some _ => _ | None => _ end] => idtac
    end;
    cbv zeta;
    repeat match goal with
    | |- context [match ?g with Some _ => _ | None => _ end] =>
        destruct g; try reflexivity
    end.
Qed.

Lemma spec_bucket_first (k : string) (b : pydict Bucket)
  (rules : pydict (pydict Bucket)) (material : string) :
  spec_bucket ((k, b) :: rules) material
  = Some match PyDict.get material ((k, b) :: rules) with
         | Some b' => b'
         | None =>
             match PyDict.get "any" ((k, b) :: rules) with
             | Some b' => b'
             | None => b
             end
         end.
Proof.
  unfold spec_bucket.
  destruct (PyDict.get material ((k, b) :: rules)); [reflexivity |].
  destruct (PyDict.get "any" ((k, b) :: rules)); reflexivity.
Qed.

(** The code resolves the numbers exactly where the precedence of the
    specification does. *)
Lemma estimate_repair_resolved (PR : price_rules) (issue material size : string)
  (numbers : Bucket) :
  spec_resolve PR (norm_issue issue) (norm_material material) (norm_size size)
  = Some numbers ->
  estimate_repair PR (VStr issue) (VStr material) (VStr size)
  = estimate_success (norm_issue issue) (norm_material material)
      (norm_size size) numbers.
Proof.
  rewrite estimate_repair_text. unfold spec_resolve.
  destruct (PyDict.get (norm_issue issue) PR) as [[| [k0 b0] rules] |];
    [discriminate | | discriminate].
  rewrite spec_bucket_first. cbv zeta. intros ->. reflexivity.
Qed.

(** The days never raise: adding or subtracting the [int] 1 is defined on
    every number. *)
Lemma num_add_one (d : number) :
  exists r, num_add d (NInt 1) = Ret r
            /\ forall n, d = NInt n -> r = NInt (n + 1).
Proof.
  destruct d as [n | x].
  - eexists. split; [reflexivity | intros ? [= <-]; reflexivity].
  - cbn [num_add as_float bind]. rewrite float_of_int_1. cbn [bind].
    eexists. split; [reflexivity | discriminate].
Qed.

Lemma num_sub_one (d : number) :
  exists r, num_sub d (NInt 1) = Ret r
            /\ forall n, d = NInt n -> r = NInt (n - 1).
Proof.
  destruct d as [n | x].
  - eexists. split; [reflexivity | intros ? [= <-]; reflexivity].
  - cbn [num_sub as_float bind]. rewrite float_of_int_1. cbn [bind].
    eexists. split; [reflexivity | discriminate].
Qed.

Lemma py_max_ints (m n : Z) : py_max (NInt m) (NInt n) = NInt (Z.max m n).
Proof.
  unfold py_max, num_gt. destruct (Z.ltb_spec m n); f_equal; lia.
Qed.

(** The tiers are the three prices, in the order budget, standard, rush,
    around days that are always defined. *)
Lemma tiers_of_prices (min_p max_p min_d max_d : number) :
  exists days_b days_s days_r : value,
    tiers_of (min_p, max_p, min_d, max_d)
    = budget <- budget_price min_p ;;
      standard <- standard_price min_p max_p ;;
      rush <- rush_price max_p ;;
      Ret [ ("budget", VDict [("price", VInt budget); ("days", days_b)]);
            ("standard", VDict [("price", VInt standard); ("days", days_s)]);
            ("rush", VDict [("price", VInt rush); ("days", days_r)]) ].
Proof.
  destruct (num_add_one min_d) as (hb & Hb & _).
  destruct (num_sub_one min_d) as (rl & Hl & _).
  destruct (num_sub_one max_d) as (rh & Hh & _).
  unfold tiers_of. rewrite Hb, Hl, Hh.
  eexists _, _, _.
  destruct (budget_price min_p) as [pb |]; cbn [bind]; [| reflexivity].
  destruct (standard_price min_p max_p) as [ps |]; cbn [bind]; [| reflexivity].
  destruct (rush_price max_p) as [pr |]; cbn [bind]; reflexivity.
Qed.

Lemma tiers_of_int_days (min_p max_p : number) (min_d max_d : Z) :
  tiers_of (min_p, max_p, NInt min_d, NInt max_d)
  = budget <- budget_price min_p ;;
    standard <- standard_price min_p max_p ;;
    rush <- rush_price max_p ;;
    Ret [ ("budget",
            VDict [("price", VInt budget);
                   ("days", VList [VInt min_d; VInt (Z.max min_d (min_d + 1))])]);
          ("standard",
            VDict [("price", VInt standard);
                   ("days", VList [VInt min_d; VInt max_d])]);
          ("rush",
            VDict [("price", VInt rush);
                   ("days", VList [VInt (Z.max 1 (min_d - 1));
                                   VInt (Z.max 1 (max_d - 1))])]) ].
Proof.
  unfold tiers_of. cbn [num_add num_sub bind]. rewrite !py_max_ints.
  destruct (budget_price min_p) as [pb |]; cbn [bind]; [| reflexivity].
  destruct (standard_price min_p max_p) as [ps |]; cbn [bind]; [| reflexivity].
  destruct (rush_price max_p) as [pr |]; cbn [bind]; reflexivity.
Qed.

(** The prices that are returned are those of the specification. *)
Lemma budget_price_value (a : number) (q : Q) (p : Z) :
  rule_number a q -> budget_price a = Ret p -> p = spec_budget a.
Proof.
  intros Ha. rewrite (budget_price_rule a q Ha).
  destruct (overflows (float_view a)); [discriminate |].
  intros Hp. apply round_result_ret in Hp. exact (proj1 Hp).
Qed.

Lemma rush_price_value (b : number) (q : Q) (p : Z) :
  rule_number b q -> rush_price b = Ret p -> p = spec_rush b.
Proof.
  intros Hb. rewrite (rush_price_rule b q Hb).
  destruct (overflows (float_view b)); [discriminate |].
  intros Hp. apply round_result_ret in Hp. exact (proj1 Hp).
Qed.

Lemma standard_price_value (a b : number) (lo hi : Q) (p : Z) :
  rule_number a lo -> rule_number b hi -> standard_price a b = Ret p ->
  p = spec_standard a b.
Proof.
  intros Ha Hb.
  destruct (both_ints_or_not a b) as [(m & n & -> & ->) | Hmixed].
  - rewrite standard_price_ints.
    destruct (overflows _); [discriminate |]. intros [= <-]. reflexivity.
  - rewrite (standard_price_floats a b lo hi Ha Hb Hmixed).
    destruct (overflows (float_view a)); [discriminate |].
    destruct (overflows (float_view b)); [discriminate |].
    destruct (overflows (nearest_double _)); [discriminate |].
    intros Hp. apply round_result_ret in Hp. destruct Hp as [-> _].
    unfold spec_standard.
    destruct a as [m | x]; destruct b as [n | y]; try reflexivity.
    exfalso. exact (Hmixed m n eq_refl eq_refl).
Qed.

(** C4. For the numbers (min price, max price, min days, max days) the rules
    resolve to, the prices being ints or finite floats, non-negative and
    with min price <= max price: whenever [estimate_repair] returns, its
    three prices are round(min price * 0.9), round((min price + max price)
    / 2) and round(max price * 1.25) in float arithmetic, and
    0 <= budget <= standard <= rush; it can fail only with an
    [OverflowError]; and it does return when max price is at most
    [2^1000]. *)
Theorem estimate_repair_prices_ordered
  (PR : price_rules) (issue material size : string)
  (min_p max_p min_d max_d : number) (lo hi : Q) :
  spec_resolve PR (norm_issue issue) (norm_material material) (norm_size size)
  = Some (min_p, max_p, min_d, max_d) ->
  rule_number min_p lo ->
  rule_number max_p hi ->
  (0 <= lo <= hi)%Q ->
  (forall res : dict,
      estimate_repair PR (VStr issue) (VStr material) (VStr size) = Ret res ->
      exists budget standard rush : Z,
        PyDict.get "ok" res = Some (VBool true)
        /\ price_of "budget" res = Some (VInt budget)
        /\ price_of "standard" res = Some (VInt standard)
        /\ price_of "rush" res = Some (VInt rush)
        /\ budget = spec_budget min_p
        /\ standard = spec_standard min_p max_p
        /\ rush = spec_rush max_p
        /\ 0 <= budget <= standard
        /\ standard <= rush)
  /\ (forall e : exn,
        estimate_repair PR (VStr issue) (VStr material) (VStr size) = Raise e ->
        exists text, e = OverflowError text)
  /\ ((hi <= price_bound)%Q ->
      exists res : dict,
        estimate_repair PR (VStr issue) (VStr material) (VStr size) = Ret res).
Proof.
  intros Hres Hlo Hhi [H0 Hle].
  assert (H0' : (0 <= hi)%Q) by lra.
  rewrite (estimate_repair_resolved _ _ _ _ _ Hres). unfold estimate_success.
  destruct (tiers_of_prices min_p max_p min_d max_d) as (db & ds & dr & ->).
  split; [| split].
  - intros res.
    destruct (budget_price min_p) as [pb |] eqn:Eb; cbn [bind]; [| discriminate].
    destruct (standard_price min_p max_p) as [ps |] eqn:Es; cbn [bind];
      [| discriminate].
    destruct (rush_price max_p) as [pr |] eqn:Er; cbn [bind]; [| discriminate].
    intros [= <-]. exists pb, ps, pr.
    repeat (split; [reflexivity |]).
    split; [exact (budget_price_value _ _ _ Hlo Eb) |].
    split; [exact (standard_price_value _ _ _ _ _ Hlo Hhi Es) |].
    split; [exact (rush_price_value _ _ _ Hhi Er) |].
    pose proof (budget_price_ret _ _ _ Hlo H0 Eb).
    pose proof (standard_price_ret _ _ _ _ _ Hlo Hhi Hle Es).
    pose proof (rush_price_ret _ _ _ Hhi H0' Er).
    lia.
  - intros e.
    destruct (budget_price min_p) as [pb |] eqn:Eb; cbn [bind];
      [| intros [= <-]; exact (budget_price_raise _ _ _ Hlo Eb)].
    destruct (standard_price min_p max_p) as [ps |] eqn:Es; cbn [bind];
      [| intros [= <-]; exact (standard_price_raise _ _ _ _ _ Hlo Hhi Es)].
    destruct (rush_price max_p) as [pr |] eqn:Er; cbn [bind];
      [discriminate | intros [= <-]; exact (rush_price_raise _ _ _ Hhi Er)].
  - intros HK.
    destruct (budget_price_returns min_p lo Hlo ltac:(split; lra)) as (pb & ->).
    destruct (standard_price_returns min_p max_p lo hi Hlo Hhi H0 Hle HK)
      as (ps & ->).
    destruct (rush_price_returns max_p hi Hhi ltac:(split; lra)) as (pr & ->).
    cbn [bind]. eexists. reflexivity.
Qed.

Lemma estimate_repair_prices_ordered_witness :
  spec_resolve demo_rules (norm_issue " Wobble") (norm_material "metal")
    (norm_size "") = Some (int_bucket 45 95 1 3)
  /\ (exists res : dict,
        estimate_repair demo_rules (VStr " Wobble") (VStr "metal") (VStr "")
        = Ret res)
  /\ forall res : dict,
       estimate_repair demo_rules (VStr " Wobble") (VStr "metal") (VStr "")
       = Ret res ->
       exists budget standard rush : Z,
         PyDict.get "ok" res = Some (VBool true)
         /\ price_of "budget" res = Some (VInt budget)
         /\ price_of "standard" res = Some (VInt standard)
         /\ price_of "rush" res = Some (VInt rush)
         /\ budget = spec_budget (NInt 45)
         /\ standard = spec_standard (NInt 45) (NInt 95)
         /\ rush = spec_rush (NInt 95)
         /\ 0 <= budget <= standard
         /\ standard <= rush.
Proof.
  split; [reflexivity |].
  destruct (estimate_repair_prices_ordered demo_rules " Wobble" "metal" ""
              (NInt 45) (NInt 95) (NInt 1) (NInt 3) (inject_Z 45) (inject_Z 95)
              eq_refl eq_refl eq_refl)
    as (Hret & _ & Hdone).
  - split; apply Qle_bool_iff; reflexivity.
  - split; [apply Hdone; apply Qle_bool_iff; vm_compute; reflexivity | exact Hret].
Defined.

(** C4, as stated, fails: for the bucket (1, 2^1024, 1, 2), whose numbers
    are non-negative with min <= max in each pair, [estimate_repair] returns
    no tiers: the conversion of the max price to a float overflows. *)
Lemma estimate_repair_huge_price_overflows :
  let PR := one_bucket_rules (int_bucket 1 (2 ^ 1024) 1 2) in
  spec_resolve PR (norm_issue "wobble") (norm_material "") (norm_size "")
  = Some (int_bucket 1 (2 ^ 1024) 1 2)
  /\ 0 <= 1 <= 2 ^ 1024
  /\ 0 <= 1 <= 2
  /\ estimate_repair PR (VStr "wobble") (VStr "") (VStr "")
     = Raise (OverflowError "int too large to convert to float")
  /\ forall res : dict,
       estimate_repair PR (VStr "wobble") (VStr "") (VStr "") <> Ret res.
Proof.
  cbv zeta.
  assert (E : estimate_repair (one_bucket_rules (int_bucket 1 (2 ^ 1024) 1 2))
                (VStr "wobble") (VStr "") (VStr "")
              = Raise (OverflowError "int too large to convert to float")).
  { vm_compute. reflexivity. }
  split; [reflexivity |].
  split; [split; [lia | apply (Z.pow_le_mono_r 2 0 1024); lia] |].
  split; [lia |].
  split; [exact E |]. intros res. rewrite E. discriminate.
Qed.

(** Beyond [2^53] the prices are those of the floats, not of the exact
    products: with both prices [2^53 + 1] the standard price is [2^53]. *)
Example tiers_of_beyond_2_53 :
  tiers_of (int_bucket (2 ^ 53 + 1) (2 ^ 53 + 1) 1 2)
  = Ret [ ("budget",
            VDict [("price", VInt 8106479329266893);
                   ("days", VList [VInt 1; VInt 2])]);
          ("standard",
            VDict [("price", VInt 9007199254740992);
                   ("days", VList [VInt 1; VInt 2])]);
          ("rush",
            VDict [("price", VInt 11258999068426240);
                   ("days", VList [VInt 1; VInt 1])]) ].
Proof. vm_compute. reflexivity. Qed.

(** ** Prices of any sign *)

Lemma overflows_within (r K : Q) :
  (- K <= r <= K)%Q -> Qle_bool (pow2 1024) K = false -> overflows r = false.
Proof.
  intros Hr Hb. unfold overflows.
  destruct (Qle_bool (pow2 1024) (Qabs r)) eqn:E; [| reflexivity].
  apply Qle_bool_iff in E.
  assert (Habs : (Qabs r <= K)%Q) by (apply Qabs_Qle_condition; exact Hr).
  assert (Hc : Qle_bool (pow2 1024) K = true).
  { apply Qle_bool_iff. eapply Qle_trans; eassumption. }
  congruence.
Qed.

Lemma nearest_double_within (x K : Q) :
  (nearest_double K == K)%Q -> (- K <= x <= K)%Q ->
  (- K <= nearest_double x <= K)%Q.
Proof.
  intros HK [H1 H2]. split.
  - apply nearest_double_above; [| exact H1].
    rewrite nearest_double_opp, HK. reflexivity.
  - apply nearest_double_below; assumption.
Qed.

Lemma round_result_within (q K : Q) :
  (nearest_double K == K)%Q -> (- K <= q <= K)%Q ->
  Qle_bool (pow2 1024) K = false ->
  round_result q = Ret (py_round (nearest_double q)).
Proof.
  intros HK Hq Hb. rewrite round_result_cases.
  rewrite (overflows_within _ K (nearest_double_within q K HK Hq) Hb).
  reflexivity.
Qed.

Lemma int_within_bound (m : Z) :
  Z.abs m <= 2 ^ 1000 -> (- price_bound <= inject_Z m <= price_bound)%Q.
Proof.
  intros H. unfold price_bound. rewrite <- inject_Z_opp, <- !Zle_Qle. lia.
Qed.

(** [int] prices up to [2^1000] in absolute value give all three prices. *)
Lemma int_prices_return (m n : Z) :
  Z.abs m <= 2 ^ 1000 -> Z.abs n <= 2 ^ 1000 ->
  exists pb ps pr,
    budget_price (NInt m) = Ret pb
    /\ standard_price (NInt m) (NInt n) = Ret ps
    /\ rush_price (NInt n) = Ret pr.
Proof.
  intros Hm Hn.
  pose proof (int_within_bound m Hm) as Qm.
  pose proof (int_within_bound n Hn) as Qn.
  pose proof (nearest_double_within _ _ price_bound_double Qm) as Fm.
  pose proof (nearest_double_within _ _ price_bound_double Qn) as Fn.
  assert (Hb : Qle_bool (pow2 1024) price_bound = false)
    by (vm_compute; reflexivity).
  pose proof nearest_0_9_range as [Hc0 Hc1].
  eexists _, _, _. split; [| split].
  - rewrite (budget_price_rule (NInt m) (inject_Z m) eq_refl).
    cbn [float_view]. rewrite (overflows_within _ _ Fm Hb).
    apply (round_result_within _ price_bound price_bound_double); [| exact Hb].
    set (c := nearest_double (9 # 10)) in *. clearbody c.
    set (A := nearest_double (inject_Z m)) in *. clearbody A.
    set (K := price_bound) in *.
    assert (HK0 : (0 <= K)%Q) by lra. clearbody K. split; nra.
  - rewrite standard_price_ints.
    assert (Hs : (- price_bound <= inject_Z (m + n) / inject_Z 2
                  <= price_bound)%Q).
    { rewrite inject_Z_plus. change (inject_Z 2) with 2%Q. split.
      - apply Qle_shift_div_l; [reflexivity | lra].
      - apply Qle_shift_div_r; [reflexivity | lra]. }
    rewrite (overflows_within _ _
               (nearest_double_within _ _ price_bound_double Hs) Hb).
    reflexivity.
  - rewrite (rush_price_rule (NInt n) (inject_Z n) eq_refl).
    cbn [float_view]. rewrite (overflows_within _ _ Fn Hb).
    apply (round_result_within _ (price_bound * (5 # 4))).
    + apply Qeq_bool_iff. vm_compute. reflexivity.
    + split; lra.
    + vm_compute. reflexivity.
Qed.

Lemma scenario_prices :
  budget_price (NInt 80) = Ret 72
  /\ standard_price (NInt 80) (NInt 150) = Ret 115
  /\ rush_price (NInt 150) = Ret 188.
Proof. repeat split; vm_compute; reflexivity. Qed.

(** C5. With the numbers (80, 150, 2, 4) the estimate is budget 72 in [2,3]
    days, standard 115 in [2,4] days and rush 188 in [1,3] days; for any
    resolved [int] numbers the days of a result are
    [min days, max(min days, min days + 1)], [min days, max days] and
    [max(1, min days - 1), max(1, max days - 1)]; every price is rounded by
    the one rule round-half-to-even, under which 187.5 gives 188; and a
    result is returned for all prices up to [2^1000] in absolute value. *)
Theorem estimate_repair_scenario_and_days
  (PR : price_rules) (issue material size : string)
  (min_p max_p min_d max_d : Z) :
  spec_resolve PR (norm_issue issue) (norm_material material) (norm_size size)
  = Some (int_bucket min_p max_p min_d max_d) ->
  (forall res : dict,
      estimate_repair PR (VStr issue) (VStr material) (VStr size) = Ret res ->
      days_of "budget" res
      = Some (VList [VInt min_d; VInt (Z.max min_d (min_d + 1))])
      /\ days_of "standard" res = Some (VList [VInt min_d; VInt max_d])
      /\ days_of "rush" res
         = Some (VList [VInt (Z.max 1 (min_d - 1)); VInt (Z.max 1 (max_d - 1))])
      /\ ((min_p, max_p, min_d, max_d) = (80, 150, 2, 4) ->
          price_of "budget" res = Some (VInt 72)
          /\ days_of "budget" res = Some (VList [VInt 2; VInt 3])
          /\ price_of "standard" res = Some (VInt 115)
          /\ days_of "standard" res = Some (VList [VInt 2; VInt 4])
          /\ price_of "rush" res = Some (VInt 188)
          /\ days_of "rush" res = Some (VList [VInt 1; VInt 3]))
      /\ (forall tier p, price_of tier res = Some (VInt p) ->
          exists q : Q,
            p = py_round q
            /\ (inject_Z p - (1 # 2) <= q <= inject_Z p + (1 # 2))%Q
            /\ ((q == inject_Z p + (1 # 2))%Q \/ (q == inject_Z p - (1 # 2))%Q ->
                Z.even p = true)))
  /\ (Z.abs min_p <= 2 ^ 1000 -> Z.abs max_p <= 2 ^ 1000 ->
      exists res : dict,
        estimate_repair PR (VStr issue) (VStr material) (VStr size) = Ret res)
  /\ py_round (375 # 2) = 188.
Proof.
  intros Hres.
  rewrite (estimate_repair_resolved _ _ _ _ _ Hres).
  unfold estimate_success, int_bucket. rewrite tiers_of_int_days.
  split; [| split; [| reflexivity]].
  - intros res.
    destruct (budget_price (NInt min_p)) as [pb |] eqn:Eb; cbn [bind];
      [| discriminate].
    destruct (standard_price (NInt min_p) (NInt max_p)) as [ps |] eqn:Es;
      cbn [bind]; [| discriminate].
    destruct (rush_price (NInt max_p)) as [pr |] eqn:Er; cbn [bind];
      [| discriminate].
    intros [= <-].
    repeat (split; [reflexivity |]).
    split.
    + intros [= -> -> -> ->].
      destruct scenario_prices as (Sb & Ss & Sr).
      rewrite Sb in Eb. rewrite Ss in Es. rewrite Sr in Er.
      injection Eb as <-. injection Es as <-. injection Er as <-.
      repeat split.
    + pose proof (budget_price_value _ _ _ (eq_refl : rule_number (NInt min_p) _) Eb)
        as Vb.
      pose proof (standard_price_value _ _ _ _ _
                    (eq_refl : rule_number (NInt min_p) _)
                    (eq_refl : rule_number (NInt max_p) _) Es) as Vs.
      pose proof (rush_price_value _ _ _ (eq_refl : rule_number (NInt max_p) _) Er)
        as Vr.
      intros tier p.
      unfold price_of, at_path.
      cbn [PyDict.get String.eqb Ascii.eqb Bool.eqb].
      destruct (String.eqb tier "budget");
        [| destruct (String.eqb tier "standard");
           [| destruct (String.eqb tier "rush"); [| discriminate]]];
        cbn [PyDict.get String.eqb Ascii.eqb Bool.eqb];
        intros [= <-]; eexists;
        (split; [eassumption | ]).
      * rewrite Vb. apply py_round_half_even.
      * rewrite Vs. apply py_round_half_even.
      * rewrite Vr. apply py_round_half_even.
  - intros Hm Hn.
    destruct (int_prices_return min_p max_p Hm Hn) as (pb & ps & pr & -> & -> & ->).
    cbn [bind]. eexists. reflexivity.
Qed.

Lemma estimate_repair_scenario_and_days_witness :
  spec_resolve demo_rules (norm_issue "wobble") (norm_material "wood")
    (norm_size "large") = Some (int_bucket 80 150 2 4)
  /\ exists res : dict,
    estimate_repair demo_rules (VStr "wobble") (VStr "wood") (VStr "large")
    = Ret res
    /\ price_of "budget" res = Some (VInt 72)
    /\ price_of "standard" res = Some (VInt 115)
    /\ price_of "rush" res = Some (VInt 188).
Proof.
  split; [reflexivity |].
  destruct (estimate_repair_scenario_and_days demo_rules "wobble" "wood" "large"
              80 150 2 4 eq_refl)
    as (Hall & Hret & _).
  destruct Hret as (res & Hrun).
  - apply (Z.pow_le_mono_r 2 7 1000); lia.
  - apply (Z.pow_le_mono_r 2 8 1000); lia.
  - destruct (Hall res Hrun) as (_ & _ & _ & Hscenario & _).
    destruct (Hscenario eq_refl) as (Hb & _ & Hs & _ & Hr & _).
    exists res. repeat split; assumption.
Defined.

(** C7. For a known issue the bucket is chosen by precedence: the entry of
    the normalized material if there is one, else the entry of "any" if
    there is one, else the first entry of the issue's rules. *)
Theorem estimate_repair_bucket_precedence
  (PR : price_rules) (issue material size : string)
  (rules : pydict (pydict Bucket)) :
  PyDict.get (norm_issue issue) PR = Some rules ->
  rules <> [] ->
  exists bucket : pydict Bucket,
    match PyDict.get (norm_material material) rules with
    | Some b => bucket = b
    | None =>
        match PyDict.get "any" rules with
        | Some b => bucket = b
        | None => exists k rest, rules = (k, bucket) :: rest
        end
    end
    /\ estimate_repair PR (VStr issue) (VStr material) (VStr size)
       = match PyDict.get (norm_size size) bucket with
         | None => Ret (size_failure (norm_size size))
         | Some numbers =>
             estimate_success (norm_issue issue) (norm_material material)
               (norm_size size) numbers
         end.
Proof.
  intros Hrules Hne.
  rewrite estimate_repair_text, Hrules.
  destruct rules as [| [k0 b0] rest]; [contradiction |].
  cbv zeta.
  destruct (PyDict.get (norm_material material) ((k0, b0) :: rest)) as [b |].
  - exists b. split; reflexivity.
  - destruct (PyDict.get "any" ((k0, b0) :: rest)) as [b |].
    + exists b. split; reflexivity.
    + exists b0. split; [exists k0, rest; reflexivity | reflexivity].
Qed.

Lemma estimate_repair_bucket_precedence_witness :
  PyDict.get (norm_issue "Scratch ") demo_rules
  = Some [ ("metal", [("medium", int_bucket 25 40 1 1)]);
           ("glass", [("medium", int_bucket 35 55 2 3)]) ]
  /\ exists bucket : pydict Bucket,
       bucket = [("medium", int_bucket 25 40 1 1)]
       /\ estimate_repair demo_rules (VStr "Scratch ") (VStr "wood") (VStr "")
          = match PyDict.get (norm_size "") bucket with
            | None => Ret (size_failure (norm_size ""))
            | Some numbers =>
                estimate_success (norm_issue "Scratch ")
                  (norm_material "wood") (norm_size "") numbers
            end.
Proof.
  split; [reflexivity |].
  destruct (estimate_repair_bucket_precedence demo_rules "Scratch " "wood" ""
              _ eq_refl ltac:(discriminate))
    as (bucket & Hsel & Hrun).
  exists bucket. split; [| exact Hrun].
  cbn in Hsel. destruct Hsel as (k & rest & Heq).
  injection Heq as _ Hb _. symmetry. exact Hb.
Defined.

(** ** Text *)

Lemma is_empty_true (s : string) : is_empty s = true <-> s = "".
Proof. destruct s; cbn; split; intros H; congruence. Qed.

Lemma is_empty_false (s : string) : is_empty s = false <-> s <> "".
Proof. destruct s; cbn; split; intros H; congruence. Qed.

Lemma is_empty_lower (s : string) : is_empty (lower s) = is_empty s.
Proof. destruct s; reflexivity. Qed.

Lemma lower_nonempty (s : string) : s <> "" -> lower s <> "".
Proof. destruct s; cbn; congruence. Qed.

(** ** Product lookup *)

Lemma sku_match_truthy (q_lower : string) (item : CatalogItem) :
  q_lower <> "" ->
  sku_matches q_lower item = true ->
  truthy (VDict (catalog_dict item)) = true.
Proof.
  unfold sku_matches, catalog_dict. intros Hq Heq.
  apply String.eqb_eq in Heq.
  destruct (cat_sku item) as [s |]; [reflexivity |].
  cbn in Heq. congruence.
Qed.

(** What [lookup_product] returns on a text query, channel by channel. *)
Lemma lookup_product_channels
  (CATALOG : list CatalogItem) (IKEA_ITEMS : list IkeaItem) (query : string) :
  let q := strip query in
  let q_lower := lower q in
  let best := find (sku_matches q_lower) CATALOG in
  let name_hits := filter (name_or_color_hit q_lower) CATALOG in
  let category_hits := filter (category_matches q_lower) CATALOG in
  let ikea_hits := _search_ikea_items IKEA_ITEMS q_lower in
  let nothing :=
    best = None /\ name_hits = [] /\ category_hits = [] /\ ikea_hits = [] in
  exists res : dict,
    lookup_product CATALOG IKEA_ITEMS (VStr query) = Ret res
    /\ (PyDict.get "ok" res = Some (VBool false) <-> q = "" \/ nothing)
    /\ (q = "" -> res = failure prompt_text)
    /\ (q <> "" -> nothing ->
        res = failure ("No products found for '" ++ q ++ "'."))
    /\ (q <> "" -> ~ nothing ->
        PyDict.get "ok" res = Some (VBool true)
        /\ PyDict.get "query" res = Some (VStr q)
        /\ PyDict.get "catalog_match" res
           = option_map (fun it => VDict (catalog_dict it)) best
        /\ PyDict.get "catalog_results" res
           = only_if (nonempty name_hits && is_none best)
               (catalog_values name_hits)
        /\ PyDict.get "catalog_category" res
           = only_if (nonempty category_hits) (catalog_values category_hits)
        /\ PyDict.get "ikea_results" res
           = only_if (nonempty ikea_hits) (VList (map VDict ikea_hits))
        /\ Forall (fun k => In k result_keys) (PyDict.keys res)).
Proof.
  intros q q_lower best name_hits category_hits ikea_hits nothing.
  unfold lookup_product.
  assert (Hstrip : v_strip (py_or (VStr query) (VStr "")) = Ret q).
  { unfold py_or, truthy. destruct query; reflexivity. }
  rewrite Hstrip. cbn [bind].
  destruct (is_empty q) eqn:Hq.
  - apply is_empty_true in Hq.
    eexists. split; [reflexivity |].
    split; [split; [intros _; left; exact Hq | reflexivity] |].
    split; [reflexivity |].
    split; intros Hne; contradiction.
  - apply is_empty_false in Hq.
    assert (Hql : q_lower <> "") by (apply lower_nonempty; exact Hq).
    fold q_lower best name_hits category_hits ikea_hits.
    assert (Hbest : forall item, best = Some item ->
                    truthy (VDict (catalog_dict item)) = true).
    { intros item Hfind. apply find_some in Hfind.
      apply (sku_match_truthy q_lower); [exact Hql | apply Hfind]. }
    unfold nothing.
    destruct best as [item |].
    + rewrite (Hbest item eq_refl).
      cbn [option_map is_none].
      generalize (VDict (catalog_dict item)); intros vbest.
      destruct name_hits as [| n0 nrest]; destruct category_hits as [| c0 crest];
        destruct ikea_hits as [| i0 irest]; lookup_success_case.
    + cbn [truthy option_map is_none].
      destruct name_hits as [| n0 nrest]; destruct category_hits as [| c0 crest];
        destruct ikea_hits as [| i0 irest]; try lookup_success_case.
      eexists. split; [reflexivity |].
      split; [split; [intros _; right; repeat split | reflexivity] |].
      split; [intros H; contradiction |].
      split; [reflexivity |].
      intros _ Hnot. exfalso. apply Hnot. repeat split.
Qed.

(** C9. [lookup_product] answers [ok: false] exactly when the trimmed query
    is empty (with the prompt for input) or when the best SKU match, the
    name/color results, the category results and the reference results are
    all empty (with the message naming the query); otherwise it answers
    [ok: true] with the query and exactly the channels that are non-empty. *)
Theorem lookup_product_failure_exactly
  (CATALOG : list CatalogItem) (IKEA_ITEMS : list IkeaItem) (query : string) :
  let q := strip query in
  let q_lower := lower q in
  let best := find (sku_matches q_lower) CATALOG in
  let name_hits := filter (name_or_color_hit q_lower) CATALOG in
  let category_hits := filter (category_matches q_lower) CATALOG in
  let ikea_hits := _search_ikea_items IKEA_ITEMS q_lower in
  let nothing :=
    best = None /\ name_hits = [] /\ category_hits = [] /\ ikea_hits = [] in
  exists res : dict,
    lookup_product CATALOG IKEA_ITEMS (VStr query) = Ret res
    /\ (PyDict.get "ok" res = Some (VBool false) <-> q = "" \/ nothing)
    /\ (q = "" -> res = failure prompt_text)
    /\ (q <> "" -> nothing ->
        res = failure ("No products found for '" ++ q ++ "'."))
    /\ (q <> "" -> ~ nothing ->
        PyDict.get "ok" res = Some (VBool true)
        /\ PyDict.get "query" res = Some (VStr q)
        /\ PyDict.get "catalog_match" res
           = option_map (fun it => VDict (catalog_dict it)) best
        /\ PyDict.get "catalog_results" res
           = only_if (nonempty name_hits && is_none best)
               (catalog_values name_hits)
        /\ PyDict.get "catalog_category" res
           = only_if (nonempty category_hits) (catalog_values category_hits)
        /\ PyDict.get "ikea_results" res
           = only_if (nonempty ikea_hits) (VList (map VDict ikea_hits))
        /\ Forall (fun k => In k result_keys) (PyDict.keys res)).
Proof. exact (lookup_product_channels CATALOG IKEA_ITEMS query). Qed.

Lemma isspace_lower_char (c : ascii) : isspace (lower_char c) = isspace c.
Proof. destruct c as [[] [] [] [] [] [] [] []]; reflexivity. Qed.

Lemma lstrip_lower (s : string) : lstrip (lower s) = lower (lstrip s).
Proof.
  induction s as [| c s IH]; [reflexivity |].
  cbn. rewrite isspace_lower_char. destruct (isspace c); [exact IH | reflexivity].
Qed.

Lemma rstrip_lower (s : string) : rstrip (lower s) = lower (rstrip s).
Proof.
  induction s as [| c s IH]; [reflexivity |].
  cbn. rewrite IH, isspace_lower_char.
  destruct (rstrip s); cbn; [destruct (isspace c) |]; reflexivity.
Qed.

Lemma strip_lower (s : string) : strip (lower s) = lower (strip s).
Proof. unfold strip. rewrite lstrip_lower, rstrip_lower. reflexivity. Qed.

Lemma find_unique {A : Type} (f : A -> bool) (l : list A) (a : A) :
  In a l -> f a = true ->
  (forall x, In x l -> f x = true -> x = a) ->
  find f l = Some a.
Proof.
  induction l as [| x l IH]; intros Hin Hfa Huniq; [contradiction |].
  cbn. destruct (f x) eqn:Hfx.
  - f_equal. apply Huniq; [left; reflexivity | exact Hfx].
  - destruct Hin as [-> | Hin]; [congruence |].
    apply IH; [exact Hin | exact Hfa |].
    intros y Hy. apply Huniq. right. exact Hy.
Qed.

(** C8, as stated, fails: two entries whose SKUs are different strings but
    equal up to letter case.  Looking up the exact SKU of the second one
    returns the first one as the best match. *)
Lemma lookup_product_sku_case_collision :
  In (demo_sofa "AB1" "Bergen sofa") demo_catalog
  /\ NoDup (map cat_sku demo_catalog)
  /\ exists res : dict,
       lookup_product demo_catalog [] (VStr "AB1") = Ret res
       /\ PyDict.get "catalog_match" res
          = Some (VDict (catalog_dict (demo_sofa "ab1" "Oslo sofa")))
       /\ PyDict.get "catalog_match" res
          <> Some (VDict (catalog_dict (demo_sofa "AB1" "Bergen sofa"))).
Proof.
  split; [right; left; reflexivity |].
  split.
  { repeat constructor; cbn; intuition discriminate. }
  eexists. split; [reflexivity |].
  split; [reflexivity | cbn; discriminate].
Qed.

(** C8, amended.  For a curated entry whose SKU is not empty, has no
    surrounding whitespace and is shared, up to letter case, with no other
    entry, [lookup_product] on that SKU in any letter casing succeeds with
    this entry as [catalog_match] and without any [catalog_results] list. *)
Theorem lookup_product_exact_sku
  (CATALOG : list CatalogItem) (IKEA_ITEMS : list IkeaItem)
  (item : CatalogItem) (sku query : string) :
  In item CATALOG ->
  cat_sku item = Some sku ->
  sku <> "" ->
  strip sku = sku ->
  (forall other, In other CATALOG ->
     lower (get_or_empty (cat_sku other)) = lower sku -> other = item) ->
  lower query = lower sku ->
  exists res : dict,
    lookup_product CATALOG IKEA_ITEMS (VStr query) = Ret res
    /\ PyDict.get "ok" res = Some (VBool true)
    /\ PyDict.get "catalog_match" res = Some (VDict (catalog_dict item))
    /\ PyDict.get "catalog_results" res = None.
Proof.
  intros Hin Hsku Hne Htrim Huniq Hcase.
  assert (Hql : lower (strip query) = lower sku).
  { rewrite <- strip_lower, Hcase, strip_lower, Htrim. reflexivity. }
  assert (Hq : strip query <> "").
  { intros Hempty. rewrite Hempty in Hql. cbn in Hql.
    symmetry in Hql. revert Hql. apply lower_nonempty. exact Hne. }
  assert (Hbest : find (sku_matches (lower (strip query))) CATALOG = Some item).
  { apply find_unique.
    - exact Hin.
    - unfold sku_matches. rewrite Hsku, Hql. apply String.eqb_refl.
    - intros other Hother Hm. apply Huniq; [exact Hother |].
      unfold sku_matches in Hm. apply String.eqb_eq in Hm.
      rewrite Hm. exact Hql. }
  destruct (lookup_product_channels CATALOG IKEA_ITEMS query)
    as (res & Hrun & _ & _ & _ & Hok).
  cbv zeta in Hok. rewrite Hbest in Hok.
  destruct (Hok Hq) as (Hk & _ & Hm & Hr & _).
  { intros (Hnone & _). discriminate. }
  exists res. repeat split; try assumption.
  rewrite Hr. rewrite andb_false_r. reflexivity.
Qed.

Lemma lookup_product_exact_sku_witness :
  In (demo_sofa "CH-7" "Lund armchair") demo_catalog
  /\ exists res : dict,
       lookup_product demo_catalog [] (VStr "ch-7") = Ret res
       /\ PyDict.get "ok" res = Some (VBool true)
       /\ PyDict.get "catalog_match" res
          = Some (VDict (catalog_dict (demo_sofa "CH-7" "Lund armchair")))
       /\ PyDict.get "catalog_results" res = None.
Proof.
  split; [right; right; left; reflexivity |].
  apply (lookup_product_exact_sku demo_catalog []
           (demo_sofa "CH-7" "Lund armchair") "CH-7" "ch-7").
  - right; right; left; reflexivity.
  - reflexivity.
  - discriminate.
  - reflexivity.
  - intros other [<- | [<- | [<- | []]]]; cbn; intros H;
      try reflexivity; discriminate H.
  - reflexivity.
Defined.

(** ** Tool dispatcher *)

Lemma find_exists {A : Type} (f : A -> bool) (l : list A) (a : A) :
  In a l -> f a = true -> exists b, find f l = Some b.
Proof.
  induction l as [| x l IH]; intros Hin Hfa; [contradiction |].
  cbn. destruct (f x) eqn:Hfx; [eexists; reflexivity |].
  destruct Hin as [-> | Hin]; [congruence | apply IH; assumption].
Qed.

Lemma bind_kwargs_mismatch (sg : signature) (args : dict) :
  shape_mismatch sg args ->
  exists text, bind_kwargs sg args = Raise (TypeError text).
Proof.
  intros Hshape. unfold bind_kwargs.
  destruct (find (fun k => negb (is_param sg k)) (PyDict.keys args))
    as [k |] eqn:Hfind; [eexists; reflexivity |].
  destruct Hshape as [(k & Hk & Hno) | (p & Hp & Hmem)].
  - destruct (find_exists (fun k => negb (is_param sg k)) _ k Hk) as (b & Hb).
    { rewrite Hno. reflexivity. }
    congruence.
  - assert (Hin : In p (map fst (filter (is_missing args) (fn_params sg)))).
    { apply in_map_iff. exists (p, None). split; [reflexivity |].
      apply filter_In. split; [exact Hp |].
      unfold is_missing. cbn. rewrite Hmem. reflexivity. }
    destruct (map fst (filter (is_missing args) (fn_params sg)));
      [contradiction | eexists; reflexivity].
Qed.

Lemma call_tool_body_bind_error
  (C : list CatalogItem) (PR : price_rules) (I : list IkeaItem)
  (name : string) (args : dict) (w : World) (sg : signature) (e : exn) :
  signature_of name = Some sg ->
  bind_kwargs sg args = Raise e ->
  call_tool_body C PR I name args w = (Raise e, w).
Proof.
  unfold signature_of, call_tool_body, find.
  cbn [fn_name sig_lookup_product sig_estimate_repair
       sig_record_customer_interest sig_record_feedback
       sig_record_service_feedback].
  repeat (destruct (String.eqb name _);
          [intros [= <-] ->; reflexivity |]).
  discriminate.
Qed.

Lemma call_tool_body_unknown
  (C : list CatalogItem) (PR : price_rules) (I : list IkeaItem)
  (name : string) (args : dict) (w : World) :
  signature_of name = None ->
  call_tool_body C PR I name args w
  = (Ret (failure ("Unknown tool '" ++ name ++ "'.")), w).
Proof.
  unfold signature_of, call_tool_body, find.
  cbn [fn_name sig_lookup_product sig_estimate_repair
       sig_record_customer_interest sig_record_feedback
       sig_record_service_feedback].
  repeat (destruct (String.eqb name _); [discriminate |]).
  reflexivity.
Qed.

Lemma signature_of_known (name : string) :
  signature_of name = None <-> ~ In name KNOWN_TOOLS.
Proof.
  unfold signature_of, find, KNOWN_TOOLS.
  cbn [fn_name sig_lookup_product sig_estimate_repair
       sig_record_customer_interest sig_record_feedback
       sig_record_service_feedback].
  repeat match goal with
  | |- context [String.eqb name ?s] =>
      destruct (String.eqb_spec name s);
        [subst; split; [discriminate | intros H; exfalso; apply H; cbn; tauto] |]
  end.
  split; [| reflexivity].
  intros _ Hin. cbn in Hin. intuition congruence.
Qed.

(** C3, as stated, fails: an argument mapping of the right shape whose
    value is malformed (a number where text is expected) makes the tool
    raise [AttributeError], which the dispatcher lets through. *)
Lemma call_tool_malformed_value_propagates :
  In "lookup_product" KNOWN_TOOLS
  /\ _call_tool demo_catalog demo_rules [] "lookup_product"
       [("query", VFloat (5 # 1))] demo_world
     = (Raise (AttributeError "'float' object has no attribute 'strip'"),
        demo_world)
  /\ forall r : dict,
       fst (_call_tool demo_catalog demo_rules [] "lookup_product"
              [("query", VFloat (5 # 1))] demo_world) <> Ret r.
Proof.
  split; [left; reflexivity |].
  split; [reflexivity | intros r; cbn; discriminate].
Qed.

(** C3, amended.  For every tool name and argument mapping: a name that is
    not one of the five known tools gives a failure result naming the tool;
    for a known tool, an argument mapping that does not fit the parameters
    (a required parameter missing or an unexpected one present) gives a
    failure result naming the tool and carrying the text of the error; and
    no [TypeError] ever leaves the dispatcher. *)
Theorem call_tool_failure_results
  (CATALOG : list CatalogItem) (PRICE_RULES : price_rules)
  (IKEA_ITEMS : list IkeaItem) (name : string) (args : dict) (w : World) :
  (~ In name KNOWN_TOOLS ->
   _call_tool CATALOG PRICE_RULES IKEA_ITEMS name args w
   = (Ret (failure ("Unknown tool '" ++ name ++ "'.")), w))
  /\ (forall sg, signature_of name = Some sg -> shape_mismatch sg args ->
      exists text,
        bind_kwargs sg args = Raise (TypeError text)
        /\ _call_tool CATALOG PRICE_RULES IKEA_ITEMS name args w
           = (Ret (failure ("Invalid arguments for " ++ name ++ ": " ++ text)),
              w))
  /\ (forall text w',
      _call_tool CATALOG PRICE_RULES IKEA_ITEMS name args w
      <> (Raise (TypeError text), w')).
Proof.
  split; [| split].
  - intros Hunknown. apply signature_of_known in Hunknown.
    unfold _call_tool. rewrite call_tool_body_unknown by exact Hunknown.
    reflexivity.
  - intros sg Hsg Hshape.
    destruct (bind_kwargs_mismatch sg args Hshape) as (text & Hbind).
    exists text. split; [exact Hbind |].
    unfold _call_tool.
    rewrite (call_tool_body_bind_error _ _ _ _ _ _ _ _ Hsg Hbind).
    reflexivity.
  - intros text w'. unfold _call_tool.
    destruct (call_tool_body CATALOG PRICE_RULES IKEA_ITEMS name args w)
      as [[r | [t | t | t | t | t | t]] w0]; discriminate.
Qed.

Example call_tool_missing_argument :
  _call_tool demo_catalog demo_rules [] "estimate_repair"
    [("material", VStr "wood")] demo_world
  = (Ret (failure "Invalid arguments for estimate_repair: estimate_repair() missing 1 required positional argument: 'issue'"),
     demo_world).
Proof. reflexivity. Qed.

(** ** Orchestrator *)

Lemma first_call_in_parts_app (l1 l2 : list Part) :
  first_call_in_parts (l1 ++ l2)
  = match first_call_in_parts l1 with
    | Some fc => Some fc
    | None => first_call_in_parts l2
    end.
Proof.
  induction l1 as [| p l1 IH]; [reflexivity |].
  cbn. destruct (part_call p); [reflexivity | exact IH].
Qed.

Lemma first_call_in_candidates_flat (cs : list (option Candidate)) :
  first_call_in_candidates cs
  = first_call_in_parts
      (flat_map (fun c => match c with
                          | Some {| content_parts := Some parts |} => parts
                          | _ => []
                          end) cs).
Proof.
  induction cs as [| c cs IH]; [reflexivity |].
  cbn [first_call_in_candidates flat_map].
  destruct c as [[[parts |]] |]; cbn [app]; try exact IH.
  rewrite first_call_in_parts_app, IH. reflexivity.
Qed.

Lemma first_call_in_parts_some (parts : list Part) (fc : FunctionCall) :
  first_call_in_parts parts = Some fc <->
  exists before p after,
    parts = before ++ p :: after
    /\ (forall x, In x before -> part_call x = None)
    /\ part_call p = Some fc.
Proof.
  induction parts as [| q parts IH]; cbn.
  - split; [discriminate |].
    intros (before & p & after & Heq & _). destruct before; discriminate.
  - destruct (part_call q) as [fq |] eqn:Hq.
    + split.
      * intros [= <-]. exists [], q, parts. repeat split; [intros x [] | exact Hq].
      * intros (before & p & after & Heq & Hbefore & Hp).
        destruct before as [| b before]; cbn in Heq; injection Heq as <- _.
        -- congruence.
        -- rewrite (Hbefore q (or_introl eq_refl)) in Hq. discriminate.
    + rewrite IH. split.
      * intros (before & p & after & -> & Hbefore & Hp).
        exists (q :: before), p, after. repeat split; [| exact Hp].
        intros x [<- | Hx]; [exact Hq | exact (Hbefore x Hx)].
      * intros (before & p & after & Heq & Hbefore & Hp).
        destruct before as [| b before]; cbn in Heq; injection Heq as <- Heq.
        -- congruence.
        -- exists before, p, after. repeat split; [exact Heq | | exact Hp].
           intros x Hx. apply Hbefore. right. exact Hx.
Qed.

Lemma first_call_in_parts_none (parts : list Part) :
  first_call_in_parts parts = None <->
  forall p, In p parts -> part_call p = None.
Proof.
  induction parts as [| q parts IH]; cbn.
  - split; [intros _ p [] | reflexivity].
  - destruct (part_call q) as [fq |] eqn:Hq.
    + split; [discriminate |]. intros H.
      rewrite (H q (or_introl eq_refl)) in Hq. discriminate.
    + rewrite IH. split.
      * intros H p [<- | Hp]; [exact Hq | exact (H p Hp)].
      * intros H p Hp. apply H. right. exact Hp.
Qed.

(** The scan of the code finds the first function-call part of all. *)
Lemma first_function_call_some (r : Response) (fc : FunctionCall) :
  _first_function_call r = Some fc <-> first_call_part r fc.
Proof.
  unfold _first_function_call, first_call_part, all_parts.
  rewrite first_call_in_candidates_flat. apply first_call_in_parts_some.
Qed.

Lemma first_function_call_none (r : Response) :
  _first_function_call r = None <-> no_call_part r.
Proof.
  unfold _first_function_call, no_call_part, all_parts.
  rewrite first_call_in_candidates_flat. apply first_call_in_parts_none.
Qed.

Lemma tool_cycles_length
  (C : list CatalogItem) (PR : price_rules) (I : list IkeaItem)
  (calls : list Response) (w w' : World) (ms : list message) :
  tool_cycles C PR I calls w ms w' -> List.length ms = List.length calls.
Proof. induction 1; cbn; congruence. Qed.

Lemma dispatch_cycles_sound
  (C : list CatalogItem) (PR : price_rules) (I : list IkeaItem)
  (calls : list Response) :
  forall w ms w',
    dispatch_cycles C PR I calls w = Some (ms, w') ->
    tool_cycles C PR I calls w ms w'.
Proof.
  induction calls as [| r rest IH]; intros w ms w' H; cbn in H.
  - injection H as <- <-. constructor.
  - destruct (_first_function_call r) as [fc |] eqn:Hfc; [| discriminate].
    destruct (_call_tool C PR I (fc_name fc) (_function_args_to_dict fc) w)
      as [[res | e] w1] eqn:Hcall; [| discriminate].
    destruct (dispatch_cycles C PR I rest w1) as [[ms1 w2] |] eqn:Hrest;
      [| discriminate].
    injection H as <- <-.
    apply (cycles_step C PR I r rest fc res w w1 w2 ms1).
    + apply first_function_call_some. exact Hfc.
    + exact Hcall.
    + exact (IH _ _ _ Hrest).
Qed.

Lemma chat_loop_cycles
  (C : list CatalogItem) (PR : price_rules) (I : list IkeaItem)
  (final : Response) (rest : list Response) :
  no_call_part final ->
  forall calls w ms w',
    tool_cycles C PR I calls w ms w' ->
    forall response pending transcript,
    calls ++ final :: rest = response :: pending ->
    chat_loop C PR I pending response transcript w
    = match text final with
      | Raise e => {| reply := Raise e; sent := transcript ++ ms; world := w' |}
      | Ret t =>
          {| reply := Ret (strip (if is_empty t then "" else t));
             sent := transcript ++ ms; world := w' |}
      end.
Proof.
  intros Hfinal. apply first_function_call_none in Hfinal.
  induction 1 as [w | r calls fc res w w1 w2 ms Hfc Hcall Hrest IH];
    intros response pending transcript Heq; cbn in Heq.
  - injection Heq as <- <-.
    destruct rest; cbn; rewrite Hfinal, app_nil_r; reflexivity.
  - injection Heq as <- <-.
    apply first_function_call_some in Hfc.
    destruct (calls ++ final :: rest) as [| r' pend'] eqn:Hnext.
    { destruct calls; discriminate. }
    cbn. rewrite Hfc, Hcall.
    rewrite (IH r' pend' _ eq_refl).
    rewrite <- app_assoc. reflexivity.
Qed.

(** C1, as stated, fails: the first response asks for [lookup_product] with
    a number as query and the second one has no function call, yet the turn
    ends in the tool's [AttributeError]; nothing is dispatched to completion
    and no text is returned. *)
Lemma chat_fn_aborts_on_tool_fault :
  let first := call_response "lookup_product" [("query", PNumber (5 # 1))] in
  let second := text_response "Here is what I found." in
  let turn :=
    chat_fn demo_catalog demo_rules [] [first; second] "item 5?" [] demo_world in
  (exists fc, first_call_part first fc)
  /\ no_call_part second
  /\ text second = Ret "Here is what I found."
  /\ reply turn = Raise (AttributeError "'float' object has no attribute 'strip'")
  /\ (forall t, reply turn <> Ret t)
  /\ sent turn = [UserInput "item 5?"].
Proof.
  cbv zeta. split.
  { eexists. apply first_function_call_some. reflexivity. }
  split; [apply first_function_call_none; reflexivity |].
  split; [reflexivity |].
  split; [reflexivity |].
  split; [intros t; cbn; discriminate | reflexivity].
Qed.

(** C1, amended.  For every sequence of model responses whose first n
    responses each contain a function-call part, whose dispatches all return
    a result, and whose (n+1)-th response contains no function-call part and
    has a text: [chat_fn] performs exactly n tool-dispatch cycles, each one
    taking the first function-call part found across all candidates and
    parts, dispatching it and sending the result back as a
    function-response message, and then returns the final text with
    surrounding whitespace trimmed. *)
Theorem chat_fn_dispatch_cycles
  (CATALOG : list CatalogItem) (PRICE_RULES : price_rules)
  (IKEA_ITEMS : list IkeaItem)
  (calls : list Response) (final : Response) (rest : list Response)
  (user_message : string) (history : list (option string * option string))
  (w w' : World) (ms : list message) (final_text : string) :
  tool_cycles CATALOG PRICE_RULES IKEA_ITEMS calls w ms w' ->
  no_call_part final ->
  text final = Ret final_text ->
  let turn :=
    chat_fn CATALOG PRICE_RULES IKEA_ITEMS (calls ++ final :: rest)
      user_message history w in
  reply turn = Ret (strip final_text)
  /\ sent turn = _convert_history history ++ [UserInput user_message] ++ ms
  /\ List.length ms = List.length calls
  /\ world turn = w'.
Proof.
  intros Hrun Hfinal Htext turn.
  assert (Hturn : turn = {| reply := Ret (strip final_text);
                            sent := (_convert_history history
                                     ++ [UserInput user_message]) ++ ms;
                            world := w' |}).
  { unfold turn, chat_fn.
    destruct (calls ++ final :: rest) as [| response pending] eqn:Heq.
    { destruct calls; discriminate. }
    rewrite (chat_loop_cycles _ _ _ final rest Hfinal calls _ _ _ Hrun _ _ _ Heq).
    rewrite Htext. destruct final_text; reflexivity. }
  rewrite Hturn. cbn [reply sent world].
  split; [reflexivity |].
  split; [rewrite <- app_assoc; reflexivity |].
  split; [exact (tool_cycles_length _ _ _ _ _ _ _ Hrun) | reflexivity].
Qed.

Lemma chat_fn_dispatch_cycles_witness :
  exists ms w',
    tool_cycles demo_catalog demo_rules [] demo_calls demo_world ms w'
    /\ no_call_part demo_final
    /\ text demo_final = Ret "  We will write to you. "
    /\ List.length ms = 2%nat
    /\ List.length (leads w') = 1%nat
    /\ reply (chat_fn demo_catalog demo_rules [] (demo_calls ++ demo_final :: [])
                "I want the Lund armchair" [] demo_world)
       = Ret "We will write to you.".
Proof.
  destruct (dispatch_cycles demo_catalog demo_rules [] demo_calls demo_world)
    as [[ms w'] |] eqn:Hrun; [| discriminate Hrun].
  exists ms, w'.
  assert (Hcycles : tool_cycles demo_catalog demo_rules [] demo_calls demo_world ms w').
  { apply dispatch_cycles_sound. exact Hrun. }
  assert (Hfinal : no_call_part demo_final).
  { apply first_function_call_none. reflexivity. }
  split; [exact Hcycles |].
  split; [exact Hfinal |].
  split; [reflexivity |].
  split; [injection Hrun as <- _; reflexivity |].
  split; [injection Hrun as _ <-; reflexivity |].
  exact (proj1 (chat_fn_dispatch_cycles demo_catalog demo_rules [] demo_calls
                  demo_final [] "I want the Lund armchair" [] demo_world w' ms
                  "  We will write to you. " Hcycles Hfinal eq_refl)).
Defined.

(** ** Text: containment and words *)

Section TextFacts.
Local Open Scope string_scope.

Lemma append_empty_r (s : string) : s ++ "" = s.
Proof. induction s as [| c s IH]; cbn; [reflexivity | rewrite IH; reflexivity]. Qed.

Lemma append_assoc (a b c : string) : (a ++ b) ++ c = a ++ (b ++ c).
Proof. induction a as [| x a IH]; cbn; [reflexivity | rewrite IH; reflexivity]. Qed.

Lemma startswith_iff (p s : string) :
  startswith p s = true <-> exists t, s = p ++ t.
Proof.
  revert s. induction p as [| a p IH]; intros s; cbn.
  - split; [intros _; exists s; reflexivity | reflexivity].
  - destruct s as [| b s].
    + split; [discriminate | intros (t & Ht); discriminate].
    + rewrite andb_true_iff, Ascii.eqb_eq, IH. split.
      * intros (-> & t & ->). exists t. reflexivity.
      * intros (t & Ht). injection Ht as -> ->. split; [reflexivity | exists t; reflexivity].
Qed.

Lemma contains_iff (s q : string) :
  contains s q = true <-> exists a b, s = a ++ q ++ b.
Proof.
  induction s as [| c s IH].
  - cbn. rewrite orb_false_r, startswith_iff. split.
    + intros (t & Ht). exists "", t. exact Ht.
    + intros (a & b & Hab). destruct a; [exists b; exact Hab | discriminate].
  - cbn [contains]. rewrite orb_true_iff, startswith_iff, IH. split.
    + intros [(t & Ht) | (a & b & Hab)].
      * exists "", t. exact Ht.
      * exists (String c a), b. cbn. rewrite Hab. reflexivity.
    + intros (a & b & Hab). destruct a as [| x a].
      * left. exists b. exact Hab.
      * right. injection Hab as _ Hab. exists a, b. exact Hab.
Qed.

Lemma contains_refl (s : string) : contains s s = true.
Proof. apply contains_iff. exists "", "". cbn. rewrite append_empty_r. reflexivity. Qed.

Lemma contains_trans (s q w : string) :
  contains s q = true -> contains q w = true -> contains s w = true.
Proof.
  rewrite !contains_iff. intros (a & b & ->) (a' & b' & ->).
  exists (a ++ a'), (b' ++ b). rewrite !append_assoc. reflexivity.
Qed.

Lemma startswith_contains (s p : string) :
  startswith p s = true -> contains s p = true.
Proof.
  rewrite startswith_iff, contains_iff. intros (t & ->). exists "", t. reflexivity.
Qed.

(** Every piece of the split occurs in the text that was split. *)
Lemma split_nonword_from_contains (s : string) :
  forall cur in_sep w,
    In w (split_nonword_from cur in_sep s) -> contains (cur ++ s) w = true.
Proof.
  induction s as [| c s IH]; intros cur in_sep w Hin; cbn in Hin.
  - destruct Hin as [<- | []]. rewrite append_empty_r. apply contains_refl.
  - assert (Hrest : forall b, In w (split_nonword_from "" b s) ->
                    contains (cur ++ String c s) w = true).
    { intros b Hb. apply IH in Hb. cbn in Hb.
      apply contains_iff in Hb. destruct Hb as (a & b' & ->).
      apply contains_iff. exists (cur ++ String c a), b'.
      rewrite append_assoc. reflexivity. }
    destruct (isword c).
    + apply IH in Hin. rewrite append_assoc in Hin. exact Hin.
    + destruct in_sep; [exact (Hrest _ Hin) |].
      destruct Hin as [<- | Hin]; [| exact (Hrest _ Hin)].
      apply contains_iff. exists "", (String c s). reflexivity.
Qed.

Lemma query_words_spec (q w : string) :
  In w (query_words q) -> w <> "" /\ contains q w = true.
Proof.
  unfold query_words, split_nonword. rewrite filter_In. intros (Hin & Hne).
  split.
  - destruct w; [discriminate | discriminate].
  - exact (split_nonword_from_contains q "" false w Hin).
Qed.

Lemma str_leb_trans (a b c : string) :
  str_leb a b = true -> str_leb b c = true -> str_leb a c = true.
Proof.
  unfold str_leb, String.leb. revert b c.
  induction a as [| x a IH]; intros [| y b] [| z c]; cbn; try easy.
  unfold Ascii.compare.
  destruct (N.compare_spec (N_of_ascii x) (N_of_ascii y)) as [Hxy | Hxy | Hxy],
           (N.compare_spec (N_of_ascii y) (N_of_ascii z)) as [Hyz | Hyz | Hyz],
           (N.compare_spec (N_of_ascii x) (N_of_ascii z)) as [Hxz | Hxz | Hxz];
    try easy; try lia.
  apply IH.
Qed.

Lemma str_leb_total (a b : string) : str_leb a b = true \/ str_leb b a = true.
Proof. apply String.leb_total. Qed.

End TextFacts.

(** ** Dicts *)

Section DictFacts.
Context {V : Type}.
Implicit Types (d : pydict V) (k : string) (v : V).

Lemma get_none_iff k d : PyDict.get k d = None <-> ~ In k (PyDict.keys d).
Proof.
  induction d as [| [k' v'] d IH]; cbn.
  - split; [intros _ [] | reflexivity].
  - destruct (String.eqb_spec k k') as [-> | Hne].
    + split; [discriminate | intros H; exfalso; apply H; left; reflexivity].
    + rewrite IH. split.
      * intros H [Heq | Hin]; [congruence | exact (H Hin)].
      * intros H Hin. apply H. right. exact Hin.
Qed.

Lemma get_some_in k v d : PyDict.get k d = Some v -> In (k, v) d.
Proof.
  induction d as [| [k' v'] d IH]; cbn; [discriminate |].
  destruct (String.eqb_spec k k') as [-> | Hne].
  - intros [= ->]. left. reflexivity.
  - intros H. right. exact (IH H).
Qed.

Lemma in_get_some k v d :
  NoDup (PyDict.keys d) -> In (k, v) d -> PyDict.get k d = Some v.
Proof.
  induction d as [| [k' v'] d IH]; cbn; intros Hnd Hin; [contradiction |].
  inversion Hnd as [| ? ? Hnotin Hnd']; subst.
  destruct Hin as [[= -> ->] | Hin].
  - rewrite String.eqb_refl. reflexivity.
  - destruct (String.eqb_spec k k') as [-> | Hne].
    + exfalso. apply Hnotin. apply in_map_iff. exists (k', v). split; [reflexivity | exact Hin].
    + exact (IH Hnd' Hin).
Qed.

Lemma set_absent k v d :
  PyDict.get k d = None -> PyDict.set k v d = d ++ [(k, v)].
Proof.
  induction d as [| [k' v'] d IH]; cbn; [reflexivity |].
  destruct (String.eqb k k'); [discriminate |].
  intros H. rewrite (IH H). reflexivity.
Qed.

Lemma keys_set_present k v v0 d :
  PyDict.get k d = Some v0 -> PyDict.keys (PyDict.set k v d) = PyDict.keys d.
Proof.
  unfold PyDict.keys.
  induction d as [| [k' v'] d IH]; cbn; [discriminate |].
  destruct (String.eqb k k'); [reflexivity |].
  intros H. cbn. rewrite (IH H). reflexivity.
Qed.

Lemma in_set_present k v v0 d k1 v1 :
  NoDup (PyDict.keys d) ->
  PyDict.get k d = Some v0 ->
  In (k1, v1) (PyDict.set k v d) ->
  (k1 = k /\ v1 = v) \/ (k1 <> k /\ In (k1, v1) d).
Proof.
  induction d as [| [k' v'] d IH]; cbn; intros Hnd Hget Hin; [discriminate |].
  inversion Hnd as [| ? ? Hnotin Hnd']; subst.
  destruct (String.eqb_spec k k') as [-> | Hne].
  - destruct Hin as [[= -> ->] | Hin]; [left; split; reflexivity |].
    right. split; [| right; exact Hin].
    intros ->. apply Hnotin. apply in_map_iff.
    exists (k', v1). split; [reflexivity | exact Hin].
  - destruct Hin as [[= -> ->] | Hin].
    + right. split; [congruence | left; reflexivity].
    + destruct (IH Hnd' Hget Hin) as [H | (H1 & H2)]; [left; exact H |].
      right. split; [exact H1 | right; exact H2].
Qed.

Lemma set_present_in k v v0 d :
  PyDict.get k d = Some v0 -> In (k, v) (PyDict.set k v d).
Proof.
  induction d as [| [k' v'] d IH]; cbn; [discriminate |].
  destruct (String.eqb_spec k k') as [-> | Hne].
  - intros _. left. reflexivity.
  - intros H. right. exact (IH H).
Qed.

Lemma set_present_other k v v0 d k1 v1 :
  PyDict.get k d = Some v0 -> k1 <> k -> In (k1, v1) d ->
  In (k1, v1) (PyDict.set k v d).
Proof.
  induction d as [| [k' v'] d IH]; cbn; [discriminate |].
  destruct (String.eqb_spec k k') as [-> | Hne].
  - intros _ Hk [[= <- <-] | Hin]; [congruence | right; exact Hin].
  - intros H Hk [Heq | Hin]; [left; exact Heq | right; exact (IH H Hk Hin)].
Qed.
End DictFacts.

(** ** Reference search: the dict [scored] *)

Lemma kept_entry_snoc_other q items k s it x :
  kept_entry q items k s it ->
  (item_id x = k -> score q x <= s) ->
  kept_entry q (items ++ [x]) k s it.
Proof.
  intros (Hid & Hs & Hpos & before & after & -> & Hb & Ha) Hx.
  repeat split; try assumption.
  exists before, (after ++ [x]). split; [rewrite <- app_assoc; reflexivity |].
  split; [exact Hb |].
  intros y Hy Hyk. apply in_app_or in Hy.
  destruct Hy as [Hy | [<- | []]]; [exact (Ha y Hy Hyk) | exact (Hx Hyk)].
Qed.

Lemma kept_entry_bound q items k s it x :
  kept_entry q items k s it -> In x items -> item_id x = k -> score q x <= s.
Proof.
  intros (Hid & Hs & Hpos & before & after & -> & Hb & Ha) Hin Hk.
  apply in_app_or in Hin. destruct Hin as [Hin | [<- | Hin]].
  - specialize (Hb x Hin Hk). lia.
  - lia.
  - exact (Ha x Hin Hk).
Qed.

Lemma scored_inv_step q items d x :
  scored_inv q items d ->
  scored_inv q (items ++ [x]) (score_step q (query_words q) d x).
Proof.
  intros (Hnd & Hent & Hcov).
  unfold score_step. fold (score q x).
  destruct (Z.gtb_spec (score q x) 0) as [Hpos | Hnpos].
  - destruct (PyDict.get (item_id x) d) as [[s0 it0] |] eqn:Hget.
    + pose proof (Hent _ _ _ (get_some_in _ _ _ Hget)) as Hold.
      cbn [fst].
      destruct (Z.gtb_spec (score q x) s0) as [Hgt | Hle].
      * (* a strictly better row of a known id replaces the entry *)
        split; [rewrite (keys_set_present _ _ _ _ Hget); exact Hnd |].
        split.
        -- intros k s it Hin.
           destruct (in_set_present _ _ _ _ _ _ Hnd Hget Hin)
             as [(-> & [= -> ->]) | (Hk & Hin')].
           ++ repeat split; [lia |].
              exists items, []. split; [reflexivity |].
              split; [| intros y []].
              intros y Hy Hyk.
              pose proof (kept_entry_bound _ _ _ _ _ _ Hold Hy Hyk). lia.
           ++ apply kept_entry_snoc_other; [exact (Hent _ _ _ Hin') |].
              intros Hxk. congruence.
        -- intros y Hy Hypos. rewrite (keys_set_present _ _ _ _ Hget).
           apply in_app_or in Hy. destruct Hy as [Hy | [<- | []]].
           ++ exact (Hcov y Hy Hypos).
           ++ apply in_map_iff. exists (item_id x, (s0, it0)).
              split; [reflexivity | exact (get_some_in _ _ _ Hget)].
      * (* the entry stays *)
        split; [exact Hnd |]. split.
        -- intros k s it Hin. apply kept_entry_snoc_other; [exact (Hent _ _ _ Hin) |].
           intros Hxk. subst k.
           rewrite (in_get_some _ _ _ Hnd Hin) in Hget.
           injection Hget as -> _. exact Hle.
        -- intros y Hy Hypos. apply in_app_or in Hy.
           destruct Hy as [Hy | [<- | []]]; [exact (Hcov y Hy Hypos) |].
           apply in_map_iff. exists (item_id x, (s0, it0)).
           split; [reflexivity | exact (get_some_in _ _ _ Hget)].
    + (* a new id goes last *)
      rewrite (set_absent _ _ _ Hget).
      pose proof (proj1 (get_none_iff _ _) Hget) as Hnotin.
      split.
      { unfold PyDict.keys. rewrite map_app. cbn.
        apply NoDup_app; [exact Hnd | repeat constructor; intros [] | ].
        intros k Hk [<- | []]. exact (Hnotin Hk). }
      split.
      * intros k s it Hin. apply in_app_or in Hin.
        destruct Hin as [Hin | [[= <- <- <-] | []]].
        -- apply kept_entry_snoc_other; [exact (Hent _ _ _ Hin) |].
           intros Hxk. exfalso. apply Hnotin. rewrite Hxk.
           apply in_map_iff. exists (k, (s, it)). split; [reflexivity | exact Hin].
        -- repeat split; [lia |].
           exists items, []. split; [reflexivity |]. split; [| intros y []].
           intros y Hy Hyk.
           destruct (Z_lt_le_dec 0 (score q y)) as [Hyp | Hyn]; [| lia].
           exfalso. apply Hnotin. rewrite <- Hyk. exact (Hcov y Hy Hyp).
      * intros y Hy Hypos. unfold PyDict.keys. rewrite map_app. apply in_or_app.
        apply in_app_or in Hy. destruct Hy as [Hy | [<- | []]].
        -- left. exact (Hcov y Hy Hypos).
        -- right. left. reflexivity.
  - split; [exact Hnd |]. split.
    + intros k s it Hin. apply kept_entry_snoc_other; [exact (Hent _ _ _ Hin) |].
      intros _. destruct (Hent _ _ _ Hin) as (_ & _ & Hs & _). lia.
    + intros y Hy Hypos. apply in_app_or in Hy.
      destruct Hy as [Hy | [<- | []]]; [exact (Hcov y Hy Hypos) | lia].
Qed.

Lemma scored_inv_fold q items :
  forall done d,
    scored_inv q done d ->
    scored_inv q (done ++ items) (fold_left (score_step q (query_words q)) items d).
Proof.
  induction items as [| x items IH]; intros done d Hinv; cbn.
  - rewrite app_nil_r. exact Hinv.
  - replace (done ++ x :: items) with ((done ++ [x]) ++ items)
      by (rewrite <- app_assoc; reflexivity).
    apply IH. apply scored_inv_step. exact Hinv.
Qed.

Lemma score_all_inv q items :
  scored_inv q items (score_all q (query_words q) items).
Proof.
  apply (scored_inv_fold q items [] []).
  split; [constructor |]. split; [intros k s it [] | intros x []].
Qed.

(** ** Reference search: the order of the result *)

Lemma pair_leb_iff (a b : Z * IkeaItem) :
  pair_leb a b = true <-> ranks_before a b.
Proof.
  unfold pair_leb, key_leb, sort_key, ranks_before. cbn [fst snd].
  rewrite orb_true_iff, andb_true_iff, Z.ltb_lt, Z.eqb_eq.
  split; intros [H | (H1 & H2)]; try (left; lia); right; split; (lia || assumption).
Qed.

Lemma ranks_before_total (a b : Z * IkeaItem) :
  ranks_before a b \/ ranks_before b a.
Proof.
  unfold ranks_before.
  destruct (Z.lt_total (fst a) (fst b)) as [H | [H | H]]; try tauto.
  destruct (str_leb_total (name (snd a)) (name (snd b))); [left | right];
    right; split; (assumption || lia).
Qed.

Lemma ranks_before_trans (a b c : Z * IkeaItem) :
  ranks_before a b -> ranks_before b c -> ranks_before a c.
Proof.
  unfold ranks_before. intros [H1 | (H1 & L1)] [H2 | (H2 & L2)];
    try (left; lia).
  right. split; [lia | exact (str_leb_trans _ _ _ L1 L2)].
Qed.

Lemma insert_sorted_perm (x : Z * IkeaItem) (l : list (Z * IkeaItem)) :
  Permutation (insert_sorted x l) (x :: l).
Proof.
  induction l as [| y l IH]; cbn; [reflexivity |].
  destruct (pair_leb x y); [reflexivity |].
  rewrite IH. apply perm_swap.
Qed.

Lemma sorted_by_key_perm (l : list (Z * IkeaItem)) :
  Permutation (sorted_by_key l) l.
Proof.
  induction l as [| x l IH]; cbn; [reflexivity |].
  rewrite insert_sorted_perm, IH. reflexivity.
Qed.

Lemma insert_sorted_sorted (x : Z * IkeaItem) (l : list (Z * IkeaItem)) :
  StronglySorted ranks_before l -> StronglySorted ranks_before (insert_sorted x l).
Proof.
  induction l as [| y l IH]; cbn; intros Hs.
  - repeat constructor.
  - destruct (pair_leb x y) eqn:Hxy.
    + apply pair_leb_iff in Hxy. constructor; [exact Hs |].
      constructor; [exact Hxy |].
      inversion Hs as [| ? ? _ Hall]; subst.
      apply Forall_forall. intros z Hz.
      apply (ranks_before_trans _ y); [exact Hxy |].
      exact (proj1 (Forall_forall _ _) Hall z Hz).
    + assert (Hyx : ranks_before y x).
      { destruct (ranks_before_total x y) as [H | H]; [| exact H].
        apply pair_leb_iff in H. congruence. }
      inversion Hs as [| ? ? Hs' Hall]; subst.
      constructor; [exact (IH Hs') |].
      apply Forall_forall. intros z Hz.
      apply (Permutation_in _ (insert_sorted_perm x l)) in Hz.
      destruct Hz as [<- | Hz]; [exact Hyx |].
      exact (proj1 (Forall_forall _ _) Hall z Hz).
Qed.

Lemma sorted_by_key_sorted (l : list (Z * IkeaItem)) :
  StronglySorted ranks_before (sorted_by_key l).
Proof.
  induction l as [| x l IH]; cbn; [constructor | apply insert_sorted_sorted; exact IH].
Qed.

Lemma strongly_sorted_after {A : Type} (R : A -> A -> Prop)
  (l1 l2 : list A) (a b : A) :
  StronglySorted R (l1 ++ a :: l2) -> In b l2 -> R a b.
Proof.
  induction l1 as [| x l1 IH]; cbn; intros Hs Hb.
  - inversion Hs as [| ? ? _ Hall]; subst.
    exact (proj1 (Forall_forall _ _) Hall b Hb).
  - inversion Hs; subst. apply IH; assumption.
Qed.

Lemma count_words_filter (words : list string) (text : string) :
  (forall w, In w words -> w <> "") ->
  count_words words text
  = Z.of_nat (List.length (filter (fun w => contains text w) words)).
Proof.
  induction words as [| w words IH]; intros Hne; [reflexivity |].
  cbn [count_words filter].
  rewrite IH by (intros w' Hw'; apply Hne; right; exact Hw').
  assert (Hw : is_empty w = false).
  { apply is_empty_false. apply Hne. left. reflexivity. }
  rewrite Hw. cbn [negb andb].
  destruct (contains text w); cbn [List.length]; lia.
Qed.

(** The loop's score is the sum the specification describes. *)
Lemma score_formula (q : string) (item : IkeaItem) :
  score q item = spec_score q item.
Proof.
  unfold score, item_score, spec_score.
  pose proof (count_words_filter (query_words q) (_search item)
                (fun w Hw => proj1 (query_words_spec q w Hw))) as Hcount.
  destruct (query_words q) as [| w ws] eqn:Hwords.
  - cbn. destruct (String.eqb q (lower (item_id item))),
      (contains (_search item) q); reflexivity.
  - rewrite Hcount.
    destruct (String.eqb q (lower (item_id item))),
      (contains (_search item) q); lia.
Qed.

(** ** Reference search: what is returned *)

Lemma copy_public_keys (d : dict) (k : string) :
  In k (PyDict.keys (_copy_public_item d)) -> startswith "_" k = false.
Proof.
  unfold PyDict.keys, _copy_public_item. rewrite in_map_iff.
  intros ([k' v] & <- & Hin). apply filter_In in Hin.
  destruct Hin as (_ & Hk). cbn [fst] in *.
  destruct (startswith "_" k'); [discriminate | reflexivity].
Qed.

Lemma copy_public_get (d : dict) (k : string) :
  startswith "_" k = false ->
  PyDict.get k (_copy_public_item d) = PyDict.get k d.
Proof.
  intros Hk. induction d as [| [k' v] d IH]; [reflexivity |].
  cbn [_copy_public_item filter fst].
  destruct (startswith "_" k') eqn:Hk'; cbn [negb PyDict.get].
  - destruct (String.eqb_spec k k') as [-> | _]; [congruence | exact IH].
  - destruct (String.eqb k k'); [reflexivity | exact IH].
Qed.

Lemma public_copy_item_id (it : IkeaItem) :
  PyDict.get "item_id" (public_copy it) = Some (VStr (item_id it)).
Proof. reflexivity. Qed.

Lemma values_ids (q : string) (items : list IkeaItem) (d : pydict (Z * IkeaItem)) :
  (forall k s it, In (k, (s, it)) d -> item_id it = k) ->
  map (fun p => item_id (snd p)) (PyDict.values d) = PyDict.keys d.
Proof.
  unfold PyDict.values, PyDict.keys.
  induction d as [| [k [s it]] d IH]; intros H; [reflexivity |].
  cbn. rewrite (H k s it) by (left; reflexivity).
  f_equal. apply IH. intros k' s' it' Hin. apply (H k' s' it'). right. exact Hin.
Qed.

Lemma ranked_entries_kept (q : string) (items : list IkeaItem) (s : Z) (it : IkeaItem) :
  In (s, it) (ranked_entries items q) -> kept_entry q items (item_id it) s it.
Proof.
  unfold ranked_entries. intros Hin.
  apply (Permutation_in _ (sorted_by_key_perm _)) in Hin.
  unfold PyDict.values in Hin. apply in_map_iff in Hin.
  destruct Hin as ([k [s' it']] & [= -> ->] & Hin).
  destruct (score_all_inv q items) as (_ & Hent & _).
  pose proof (Hent _ _ _ Hin) as Hkept.
  destruct Hkept as (Hid & Hrest). subst k. split; [reflexivity | exact Hrest].
Qed.

Lemma ranked_entries_cover (q : string) (items : list IkeaItem) (x : IkeaItem) :
  In x items -> 0 < score q x ->
  exists s it, In (s, it) (ranked_entries items q) /\ item_id it = item_id x.
Proof.
  intros Hx Hpos.
  destruct (score_all_inv q items) as (_ & Hent & Hcov).
  pose proof (Hcov x Hx Hpos) as Hkey.
  unfold PyDict.keys in Hkey. apply in_map_iff in Hkey.
  destruct Hkey as ([k [s it]] & Hk & Hin). cbn in Hk. subst k.
  exists s, it. split.
  - unfold ranked_entries.
    apply (Permutation_in _ (Permutation_sym (sorted_by_key_perm _))).
    unfold PyDict.values. apply in_map_iff.
    exists (item_id x, (s, it)). split; [reflexivity | exact Hin].
  - destruct (Hent _ _ _ Hin) as (Hid & _). exact Hid.
Qed.

Lemma ranked_entries_nodup (q : string) (items : list IkeaItem) :
  NoDup (map (fun p => item_id (snd p)) (ranked_entries items q)).
Proof.
  destruct (score_all_inv q items) as (Hnd & Hent & _).
  unfold ranked_entries.
  apply (Permutation_NoDup
           (l := map (fun p => item_id (snd p))
                   (PyDict.values (score_all q (query_words q) items)))).
  - apply Permutation_map. apply Permutation_sym. apply sorted_by_key_perm.
  - rewrite (values_ids q items).
    + exact Hnd.
    + intros k s it Hin. destruct (Hent _ _ _ Hin) as (Hid & _). exact Hid.
Qed.

Lemma search_ranked (items : list IkeaItem) (query : string) :
  lower (strip query) <> "" ->
  _search_ikea_items items query
  = map (fun p => public_copy (snd p))
      (firstn search_limit (ranked_entries items (lower (strip query)))).
Proof.
  intros Hq. apply is_empty_false in Hq.
  unfold _search_ikea_items, search_with_limit, ranked_entries.
  destruct items as [| x items]; [reflexivity |].
  rewrite Hq.
  destruct (score_all (lower (strip query)) (query_words (lower (strip query)))
              (x :: items)); reflexivity.
Qed.

Section WordFacts.
Local Open Scope string_scope.

Lemma all_chars_app (f : ascii -> bool) (a b : string) :
  all_chars f (a ++ b) = all_chars f a && all_chars f b.
Proof.
  induction a as [| c a IH]; [reflexivity |].
  cbn. rewrite IH, andb_assoc. reflexivity.
Qed.

Lemma word_split_sep (c : ascii) (s : string) (ws : list string) :
  isword c = false -> word_split s ws -> word_split (String c s) ws.
Proof.
  intros Hc Hs. destruct Hs as [sep Hsep | sep w rest ws Hsep Hw Hall Hend Hrest].
  - apply split_end. cbn. rewrite Hc. exact Hsep.
  - change (String c (sep ++ w ++ rest)) with (String c sep ++ w ++ rest).
    apply split_word; try assumption. cbn. rewrite Hc. exact Hsep.
Qed.

(** The tokenizer of the code cuts the text as the specification says. *)
Lemma split_nonword_from_words (s : string) :
  forall cur in_sep,
    all_chars isword cur = true ->
    (in_sep = true -> cur = "") ->
    word_split (cur ++ s)
      (filter (fun w => negb (is_empty w)) (split_nonword_from cur in_sep s)).
Proof.
  induction s as [| c s IH]; intros cur in_sep Hcur Hsep.
  - cbn [split_nonword_from filter]. rewrite append_empty_r.
    destruct cur as [| a cur'].
    + cbn. apply split_end. reflexivity.
    + cbn [is_empty negb].
      pose proof (split_word "" (String a cur') "" [] eq_refl
                    ltac:(discriminate) Hcur eq_refl (split_end "" eq_refl))
        as Hsingle.
      cbn [append] in Hsingle. rewrite append_empty_r in Hsingle.
      exact Hsingle.
  - cbn [split_nonword_from]. destruct (isword c) eqn:Hc.
    + replace (cur ++ String c s) with ((cur ++ String c "") ++ s)
        by (rewrite append_assoc; reflexivity).
      apply IH; [| discriminate].
      rewrite all_chars_app, Hcur. cbn. rewrite Hc. reflexivity.
    + assert (Hrest : word_split (String c s)
                        (filter (fun w => negb (is_empty w))
                           (split_nonword_from "" true s))).
      { apply word_split_sep; [exact Hc |].
        exact (IH "" true eq_refl (fun _ => eq_refl)). }
      destruct in_sep.
      * rewrite (Hsep eq_refl). exact Hrest.
      * cbn [filter]. destruct cur as [| a cur'].
        -- exact Hrest.
        -- cbn [is_empty negb].
           change (String a cur' ++ String c s)
             with ("" ++ String a cur' ++ String c s).
           apply split_word; try reflexivity;
             [discriminate | exact Hcur | cbn; rewrite Hc; reflexivity | exact Hrest].
Qed.

Lemma query_words_split (q : string) : word_split q (query_words q).
Proof.
  exact (split_nonword_from_words q "" false eq_refl (fun H => ltac:(discriminate H))).
Qed.

End WordFacts.

Lemma words_score_code (q : string) (item : IkeaItem) :
  words_score (query_words q) q item = spec_score q item.
Proof. reflexivity. Qed.

Lemma public_copy_view (it : IkeaItem) : public_view it (public_copy it).
Proof.
  split.
  - intros k Hk. apply get_none_iff. intros Hin.
    apply copy_public_keys in Hin. congruence.
  - intros k Hk. apply copy_public_get. exact Hk.
Qed.

Lemma search_returns_views (items : list IkeaItem) (query : string) :
  lower (strip query) <> "" ->
  Forall2 (fun d p => public_view (snd p) d)
    (_search_ikea_items items query)
    (firstn 5 (ranked_entries items (lower (strip query)))).
Proof.
  intros Hq. rewrite (search_ranked items query Hq).
  change search_limit with 5%nat.
  induction (firstn 5 (ranked_entries items (lower (strip query))))
    as [| p l IH]; cbn; constructor; [apply public_copy_view | exact IH].
Qed.

(** C2. For every query that is not empty once trimmed, with [q] its
    trimmed lowercase form and with the words of [q] between its non-word
    characters: each reference item scores 10 if [q] equals its lowercase
    item_id, plus 3 if [q] occurs in its searchable text, plus 1 for each
    word of [q] occurring there; items scoring 0 are left out; of the rows
    sharing an item_id only a highest-scoring one stays; the rest is sorted
    by score descending, then name ascending; at most the first 5 are
    returned, each one with every field of the item except those whose key
    starts with an underscore. *)
Theorem search_scores_and_ranking (items : list IkeaItem) (query : string) :
  lower (strip query) <> "" ->
  exists (words : list string) (ranked : list (Z * IkeaItem)),
    word_split (lower (strip query)) words
    /\ Forall2 (fun d p => public_view (snd p) d)
         (_search_ikea_items items query) (firstn 5 ranked)
    /\ (forall s it, In (s, it) ranked ->
        In it items /\ s = words_score words (lower (strip query)) it /\ 0 < s
        /\ forall x, In x items -> item_id x = item_id it ->
                     words_score words (lower (strip query)) x <= s)
    /\ (forall x, In x items -> 0 < words_score words (lower (strip query)) x ->
        exists s it, In (s, it) ranked /\ item_id it = item_id x)
    /\ NoDup (map (fun p => item_id (snd p)) ranked)
    /\ StronglySorted ranks_before ranked
    /\ (List.length (_search_ikea_items items query) <= 5)%nat.
Proof.
  intros Hq. set (q := lower (strip query)) in *.
  exists (query_words q), (ranked_entries items q).
  split; [apply query_words_split |].
  split; [exact (search_returns_views items query Hq) |].
  split.
  { intros s it Hin. rewrite words_score_code.
    pose proof (ranked_entries_kept q items s it Hin) as Hkept.
    destruct Hkept as (_ & Hs & Hpos & before & after & Hitems & _).
    split; [rewrite Hitems; apply in_or_app; right; left; reflexivity |].
    split; [rewrite <- score_formula; exact Hs |].
    split; [exact Hpos |].
    intros x Hx Hid. rewrite words_score_code, <- score_formula.
    exact (kept_entry_bound q items _ s it x
             (ranked_entries_kept q items s it Hin) Hx Hid). }
  split.
  { intros x Hx Hpos. rewrite words_score_code, <- score_formula in Hpos.
    exact (ranked_entries_cover q items x Hx Hpos). }
  split; [apply ranked_entries_nodup |].
  split; [apply sorted_by_key_sorted |].
  rewrite (search_ranked items query Hq), length_map. apply firstn_le_length.
Qed.

Lemma search_scores_and_ranking_witness :
  lower (strip " Oak Chair ") <> ""
  /\ exists (words : list string) (ranked : list (Z * IkeaItem)),
       word_split (lower (strip " Oak Chair ")) words
       /\ Forall2 (fun d p => public_view (snd p) d)
            (_search_ikea_items demo_items " Oak Chair ") (firstn 5 ranked)
       /\ NoDup (map (fun p => item_id (snd p)) ranked)
       /\ StronglySorted ranks_before ranked.
Proof.
  split; [discriminate |].
  destruct (search_scores_and_ranking demo_items " Oak Chair "
              ltac:(discriminate))
    as (words & ranked & Hwords & Hres & _ & _ & Hnd & Hsorted & _).
  exists words, ranked. repeat split; assumption.
Defined.

Example search_demo_duplicates :
  map (fun d => (PyDict.get "item_id" d, PyDict.get "name" d,
                 PyDict.get "_search" d))
    (_search_ikea_items demo_items " Oak Chair ")
  = [ (Some (VStr "200"), Some (VStr "ADDE oak"), None);
      (Some (VStr "100"), Some (VStr "POANG"), None);
      (Some (VStr "300"), Some (VStr "LACK"), None) ].
Proof. reflexivity. Qed.

(** C10. Of the rows that share an item_id, the search keeps the first one,
    in dataset order, that reaches the id's highest score: every earlier
    row of the id scores strictly less and every later row scores no more,
    so a later row replaces an earlier one only with a strictly greater
    score. *)
Theorem search_keeps_first_row_on_ties
  (items : list IkeaItem) (query : string) (s : Z) (it : IkeaItem) :
  lower (strip query) <> "" ->
  In (s, it) (ranked_entries items (lower (strip query))) ->
  _search_ikea_items items query
  = map (fun p => public_copy (snd p))
      (firstn 5 (ranked_entries items (lower (strip query))))
  /\ s = spec_score (lower (strip query)) it
  /\ exists before after,
       items = before ++ it :: after
       /\ (forall x, In x before -> item_id x = item_id it ->
           spec_score (lower (strip query)) x < s)
       /\ (forall x, In x after -> item_id x = item_id it ->
           spec_score (lower (strip query)) x <= s).
Proof.
  intros Hq Hin.
  split; [exact (search_ranked items query Hq) |].
  destruct (ranked_entries_kept _ items s it Hin)
    as (_ & Hs & _ & before & after & Hitems & Hb & Ha).
  split; [rewrite <- score_formula; exact Hs |].
  exists before, after. split; [exact Hitems |].
  split; intros x Hx Hid; rewrite <- score_formula; [apply Hb | apply Ha];
    assumption.
Qed.

Lemma search_keeps_first_row_on_ties_witness :
  lower (strip "oak armchair") <> ""
  /\ In (5, demo_item "100" "POANG" "oak armchair")
       (ranked_entries demo_items (lower (strip "oak armchair")))
  /\ exists before after,
       demo_items = before ++ demo_item "100" "POANG" "oak armchair" :: after
       /\ (forall x, In x before ->
           item_id x = item_id (demo_item "100" "POANG" "oak armchair") ->
           spec_score (lower (strip "oak armchair")) x < 5)
       /\ (forall x, In x after ->
           item_id x = item_id (demo_item "100" "POANG" "oak armchair") ->
           spec_score (lower (strip "oak armchair")) x <= 5).
Proof.
  split; [discriminate |].
  split; [left; reflexivity |].
  exact (proj2 (proj2 (search_keeps_first_row_on_ties demo_items "oak armchair" 5
                         (demo_item "100" "POANG" "oak armchair")
                         ltac:(discriminate) (or_introl eq_refl)))).
Defined.

(** ** Loading the reference dataset *)

Section StripFacts.
Local Open Scope string_scope.

Lemma lstrip_no_lead (s : string) : no_lead_space (lstrip s).
Proof.
  induction s as [| c s IH]; cbn; [exact I |].
  destruct (isspace c) eqn:Hc; [exact IH | exact Hc].
Qed.

Lemma rstrip_no_lead (s : string) : no_lead_space s -> no_lead_space (rstrip s).
Proof.
  destruct s as [| c s]; cbn; [trivial |]. intros Hc.
  destruct (rstrip s); [rewrite Hc |]; exact Hc.
Qed.

Lemma lstrip_id (s : string) : no_lead_space s -> lstrip s = s.
Proof. destruct s as [| c s]; cbn; [reflexivity | intros ->; reflexivity]. Qed.

Lemma rstrip_idem (s : string) : rstrip (rstrip s) = rstrip s.
Proof.
  induction s as [| c s IH]; [reflexivity |].
  cbn [rstrip]. destruct (rstrip s) as [| c' r] eqn:Hr.
  - destruct (isspace c) eqn:Hc; [reflexivity |]. cbn. rewrite Hc. reflexivity.
  - cbn [rstrip]. cbn [rstrip] in IH. rewrite IH. reflexivity.
Qed.

Lemma strip_idem (s : string) : strip (strip s) = strip s.
Proof.
  unfold strip.
  rewrite (lstrip_id (rstrip (lstrip s))).
  - apply rstrip_idem.
  - apply rstrip_no_lead. apply lstrip_no_lead.
Qed.

Lemma join_head_startswith (a : string) (rest : list string) :
  a <> "" ->
  startswith a (join " " (filter (fun s => negb (is_empty s)) (a :: rest))) = true.
Proof.
  intros Ha. apply is_empty_false in Ha. cbn [filter]. rewrite Ha. cbn [negb].
  apply startswith_iff.
  destruct (filter (fun s => negb (is_empty s)) rest) as [| b l].
  - exists "". cbn. rewrite append_empty_r. reflexivity.
  - eexists. cbn [join]. reflexivity.
Qed.

End StripFacts.

Lemma load_row_ok (py_float : string -> option pyfloat) (row : csv_row) (it : IkeaItem) :
  load_row py_float row = Some it -> loaded_ok it.
Proof.
  unfold load_row.
  destruct (is_empty (cell_text "item_id" row)) eqn:Hid; [discriminate |].
  destruct (is_empty (cell_text "name" row)) eqn:Hname; [discriminate |].
  intros Hsome. lazy beta iota zeta delta [orb] in Hsome.
  match type of Hsome with
  | Some ?loaded = Some _ => assert (Hit : it = loaded) by congruence
  end.
  clear Hsome. subst it. unfold loaded_ok.
  lazy beta iota zeta delta [item_id name _search].
  apply is_empty_false in Hid. apply is_empty_false in Hname.
  split; [apply strip_idem |].
  split; [exact Hid |].
  split; [apply strip_idem |].
  split; [exact Hname |].
  apply join_head_startswith. apply lower_nonempty. exact Hid.
Qed.

Lemma load_rows_in (py_float : string -> option pyfloat) (rows : list csv_row)
  (it : IkeaItem) :
  In it (load_rows py_float rows) <->
  exists row, In row rows /\ load_row py_float row = Some it.
Proof.
  induction rows as [| row rows IH]; cbn.
  - split; [intros [] | intros (row & [] & _)].
  - destruct (load_row py_float row) as [it0 |] eqn:Hrow.
    + cbn. rewrite IH. split.
      * intros [<- | (r & Hr & Hl)]; [exists row; tauto | exists r; tauto].
      * intros (r & [<- | Hr] & Hl); [left; congruence | right; exists r; tauto].
    + rewrite IH. split.
      * intros (r & Hr & Hl). exists r; tauto.
      * intros (r & [<- | Hr] & Hl); [congruence | exists r; tauto].
Qed.

Lemma loaded_items_ok (py_float : string -> option pyfloat)
  (csv_file : option (list csv_row)) (it : IkeaItem) :
  In it (_load_ikea_catalog py_float csv_file) -> loaded_ok it.
Proof.
  destruct csv_file as [rows |]; cbn; [| intros []].
  rewrite load_rows_in. intros (row & _ & Hrow).
  exact (load_row_ok py_float row it Hrow).
Qed.

(** ** Reference search: an exact item_id *)

Lemma filter_all {A : Type} (f : A -> bool) (l : list A) :
  (forall x, In x l -> f x = true) -> filter f l = l.
Proof.
  induction l as [| x l IH]; intros H; [reflexivity |].
  cbn. rewrite (H x) by (left; reflexivity).
  f_equal. apply IH. intros y Hy. apply H. right. exact Hy.
Qed.

Lemma spec_score_exact (q : string) (it : IkeaItem) :
  q = lower (item_id it) ->
  contains (_search it) q = true ->
  spec_score q it = 13 + Z.of_nat (List.length (query_words q)).
Proof.
  intros Hid Hin. unfold spec_score.
  rewrite <- Hid, String.eqb_refl, Hin.
  rewrite filter_all; [lia |].
  intros w Hw. apply (contains_trans _ q); [exact Hin |].
  exact (proj2 (query_words_spec q w Hw)).
Qed.

Lemma spec_score_other (q : string) (it : IkeaItem) :
  q <> lower (item_id it) ->
  spec_score q it <= 3 + Z.of_nat (List.length (query_words q)).
Proof.
  intros Hid. unfold spec_score.
  apply String.eqb_neq in Hid. rewrite Hid.
  pose proof (filter_length_le (fun w => contains (_search it) w) (query_words q)).
  destruct (contains (_search it) q); lia.
Qed.

(** The scores and the order of the ranking when the query is the exact
    item_id of a loaded item. *)
Lemma exact_item_id_scores
  (py_float : string -> option pyfloat) (csv_file : option (list csv_row))
  (item : IkeaItem) :
  In item (_load_ikea_catalog py_float csv_file) ->
  10 <= spec_score (lower (strip (item_id item))) item
  /\ (forall other,
        In other (_load_ikea_catalog py_float csv_file) ->
        lower (item_id other) <> lower (strip (item_id item)) ->
        spec_score (lower (strip (item_id item))) other
        < spec_score (lower (strip (item_id item))) item)
  /\ (exists s it,
        In (s, it) (ranked_entries (_load_ikea_catalog py_float csv_file)
                      (lower (strip (item_id item))))
        /\ item_id it = item_id item
        /\ s = spec_score (lower (strip (item_id item))) item)
  /\ (forall l1 d l2 other_id,
        _search_ikea_items (_load_ikea_catalog py_float csv_file) (item_id item)
        = l1 ++ d :: l2 ->
        PyDict.get "item_id" d = Some (VStr other_id) ->
        lower other_id <> lower (strip (item_id item)) ->
        exists d', In d' l1
                   /\ PyDict.get "item_id" d' = Some (VStr (item_id item))).
Proof.
  intros Hin.
  set (items := _load_ikea_catalog py_float csv_file) in *.
  destruct (loaded_items_ok py_float csv_file item Hin)
    as (Htrim & Hne & _ & _ & Hstart).
  rewrite Htrim. set (q := lower (item_id item)).
  assert (Hq : lower (strip (item_id item)) <> "").
  { rewrite Htrim. apply lower_nonempty. exact Hne. }
  assert (Hself : spec_score q item = 13 + Z.of_nat (List.length (query_words q))).
  { apply spec_score_exact; [reflexivity | apply startswith_contains; exact Hstart]. }
  assert (Hother : forall other, lower (item_id other) <> q ->
                   spec_score q other < spec_score q item).
  { intros other Hid. rewrite Hself.
    pose proof (spec_score_other q other (fun H => Hid (eq_sym H))). lia. }
  assert (Hentry : exists s it, In (s, it) (ranked_entries items q)
                   /\ item_id it = item_id item /\ s = spec_score q item).
  { destruct (ranked_entries_cover q items item Hin) as (s & it & Hr & Hid).
    { rewrite score_formula, Hself. lia. }
    exists s, it. split; [exact Hr |]. split; [exact Hid |].
    pose proof (ranked_entries_kept q items s it Hr) as Hkept.
    pose proof (kept_entry_bound q items _ s it item Hkept Hin (eq_sym Hid)) as Hge.
    destruct Hkept as (_ & Hs & _).
    rewrite score_formula in Hs, Hge.
    assert (Hle : spec_score q it <= spec_score q item).
    { destruct (String.eqb_spec q (lower (item_id it))) as [Heq | Hneq].
      - unfold q in Heq. rewrite Hself.
        assert (Hit : spec_score q it
                      <= 13 + Z.of_nat (List.length (query_words q))).
        { unfold spec_score.
          pose proof (filter_length_le (fun w => contains (_search it) w)
                        (query_words q)).
          destruct (String.eqb q (lower (item_id it))),
            (contains (_search it) q); lia. }
        exact Hit.
      - pose proof (Hother it (fun H => Hneq (eq_sym H))). lia. }
    lia. }
  split; [rewrite Hself; lia |].
  split; [intros other _ Hid; exact (Hother other Hid) |].
  split; [exact Hentry |].
  intros l1 d l2 other_id Hres Hd Hid.
  pose proof (search_ranked items (item_id item) Hq) as Hranked.
  rewrite Htrim in Hranked. fold q in Hranked.
  rewrite Hranked in Hres. clear Hranked.
  apply map_eq_app in Hres. destruct Hres as (r1 & r2' & Hfirst & Hl1 & Hr2).
  apply map_eq_cons in Hr2. destruct Hr2 as (e & r2 & -> & Hde & _).
  destruct Hentry as (s0 & it0 & Hin0 & Hid0 & Hs0).
  rewrite <- (firstn_skipn search_limit (ranked_entries items q)) in Hin0.
  pose proof (sorted_by_key_sorted (PyDict.values (score_all q (query_words q) items)))
    as Hsorted.
  fold (ranked_entries items q) in Hsorted.
  rewrite <- (firstn_skipn search_limit (ranked_entries items q)) in Hsorted.
  rewrite Hfirst in Hin0, Hsorted. rewrite <- app_assoc in Hin0, Hsorted.
  cbn [app] in Hin0, Hsorted.
  assert (He : In e (ranked_entries items q)).
  { rewrite <- (firstn_skipn search_limit (ranked_entries items q)), Hfirst.
    apply in_or_app. left. apply in_or_app. right. left. reflexivity. }
  destruct e as [se ite].
  pose proof (ranked_entries_kept q items se ite He) as (_ & Hse & _).
  rewrite score_formula in Hse.
  assert (Hite : other_id = item_id ite).
  { subst d. rewrite public_copy_item_id in Hd. cbn [snd] in Hd. congruence. }
  subst other_id.
  apply in_app_or in Hin0. destruct Hin0 as [Hin0 | [Heq | Hin0]].
  - exists (public_copy it0). split.
    + rewrite <- Hl1. apply in_map_iff. exists (s0, it0). split; [reflexivity | exact Hin0].
    + rewrite public_copy_item_id, Hid0. reflexivity.
  - injection Heq as -> ->. exfalso. apply Hid. rewrite Hid0. reflexivity.
  - exfalso.
    pose proof (strongly_sorted_after ranks_before r1 _ (se, ite) (s0, it0)
                  Hsorted Hin0) as Hrank.
    pose proof (Hother ite Hid) as Hlt.
    unfold ranks_before in Hrank. cbn [fst snd] in Hrank. lia.
Qed.

Example demo_loaded_ids :
  map (fun it => (item_id it, name it, _search it, price_usd it)) demo_loaded
  = [ ("100", "POANG", "100 poang chairs armchair, oak",
        Some (Finite (nearest_double (10535 # 100))));
      ("200", "ADDE", "200 adde chairs chair 100 cm", None);
      ("100", "POANG copy", "100 poang copy armchair", None) ].
Proof. reflexivity. Qed.

(** C6. For every item of the loaded reference dataset, the search for its
    exact item_id gives it a score of at least 10, strictly above the score
    of every item whose id is not the query; the search returns a non-empty
    list whose first item has the queried id up to letter case (the very id
    when no other item shares it up to case), and every returned item whose
    id is not the query comes after the entry of that id. *)
Theorem exact_item_id_ranks_first
  (py_float : string -> option pyfloat) (csv_file : option (list csv_row))
  (item : IkeaItem) :
  In item (_load_ikea_catalog py_float csv_file) ->
  exists (words : list string) (d : dict) (rest : list dict) (head_id : string),
    word_split (lower (strip (item_id item))) words
    /\ 10 <= words_score words (lower (strip (item_id item))) item
    /\ (forall other,
          In other (_load_ikea_catalog py_float csv_file) ->
          lower (item_id other) <> lower (strip (item_id item)) ->
          words_score words (lower (strip (item_id item))) other
          < words_score words (lower (strip (item_id item))) item)
    /\ _search_ikea_items (_load_ikea_catalog py_float csv_file) (item_id item)
       = d :: rest
    /\ PyDict.get "item_id" d = Some (VStr head_id)
    /\ lower head_id = lower (strip (item_id item))
    /\ ((forall other,
           In other (_load_ikea_catalog py_float csv_file) ->
           lower (item_id other) = lower (strip (item_id item)) ->
           item_id other = item_id item) ->
        head_id = item_id item)
    /\ (forall l1 d' l2 other_id,
          d :: rest = l1 ++ d' :: l2 ->
          PyDict.get "item_id" d' = Some (VStr other_id) ->
          lower other_id <> lower (strip (item_id item)) ->
          exists d'', In d'' l1
                      /\ PyDict.get "item_id" d'' = Some (VStr (item_id item))).
Proof.
  intros Hin.
  destruct (exact_item_id_scores py_float csv_file item Hin)
    as (Hscore & Hother & (s0 & it0 & Hin0 & Hid0 & Hs0) & Horder).
  destruct (loaded_items_ok py_float csv_file item Hin)
    as (Htrim & Hne & _).
  assert (Hq : lower (strip (item_id item)) <> "").
  { rewrite Htrim. apply lower_nonempty. exact Hne. }
  set (items := _load_ikea_catalog py_float csv_file) in *.
  set (q := lower (strip (item_id item))) in *.
  pose proof (search_ranked items (item_id item) Hq) as Hres. fold q in Hres.
  pose proof (sorted_by_key_sorted
                (PyDict.values (score_all q (query_words q) items))) as Hsorted.
  fold (ranked_entries items q) in Hsorted.
  destruct (ranked_entries items q) as [| [se ite] tl] eqn:Hranked;
    [destruct Hin0 |].
  assert (He : In (se, ite) (ranked_entries items q)).
  { rewrite Hranked. left. reflexivity. }
  pose proof (ranked_entries_kept q items se ite He)
    as (_ & Hse & _ & before & after & Hitems & _).
  rewrite score_formula in Hse.
  assert (Hite : In ite items).
  { rewrite Hitems. apply in_or_app. right. left. reflexivity. }
  assert (Hhead : lower (item_id ite) = q).
  { destruct (String.eqb_spec (lower (item_id ite)) q) as [Heq | Hneq];
      [exact Heq | exfalso].
    pose proof (Hother ite Hite Hneq) as Hlt.
    destruct Hin0 as [Heq0 | Hin0].
    - injection Heq0 as _ Hit. apply Hneq. rewrite Hit, Hid0.
      unfold q. rewrite Htrim. reflexivity.
    - inversion Hsorted as [| ? ? _ Hall]; subst.
      pose proof (proj1 (Forall_forall _ _) Hall _ Hin0) as Hrank.
      unfold ranks_before in Hrank. cbn [fst snd] in Hrank. lia. }
  exists (query_words q), (public_copy ite),
    (map (fun p => public_copy (snd p)) (firstn 4 tl)), (item_id ite).
  split; [apply query_words_split |].
  rewrite !words_score_code.
  split; [exact Hscore |].
  split; [intros other Ho Hid; rewrite words_score_code; exact (Hother other Ho Hid) |].
  split; [exact Hres |].
  split; [apply public_copy_item_id |].
  split; [exact Hhead |].
  split; [intros Huniq; exact (Huniq ite Hite Hhead) |].
  intros l1 d' l2 other_id Hsplit.
  exact (Horder l1 d' l2 other_id (eq_trans Hres Hsplit)).
Qed.

Lemma exact_item_id_ranks_first_witness :
  In demo_first (_load_ikea_catalog demo_float (Some demo_rows))
  /\ exists (d : dict) (rest : list dict),
       _search_ikea_items (_load_ikea_catalog demo_float (Some demo_rows))
         (item_id demo_first) = d :: rest
       /\ PyDict.get "item_id" d = Some (VStr "100")
       /\ PyDict.get "name" d = Some (VStr "POANG").
Proof.
  assert (Hin : In demo_first (_load_ikea_catalog demo_float (Some demo_rows))).
  { left. reflexivity. }
  split; [exact Hin |].
  destruct (exact_item_id_ranks_first demo_float (Some demo_rows) demo_first Hin)
    as (words & d & rest & head_id & _ & _ & _ & Hres & Hd & Hhead & _).
  exists d, rest. split; [exact Hres |].
  assert (Hdd : d = hd [] (_search_ikea_items
                             (_load_ikea_catalog demo_float (Some demo_rows))
                             (item_id demo_first))).
  { rewrite Hres. reflexivity. }
  rewrite Hdd. split; reflexivity.
Defined.

(* ================================================================== *)
(** * Further properties of tools.py *)

(** ** Public copies *)

Lemma filter_idem {A : Type} (f : A -> bool) (l : list A) :
  filter f (filter f l) = filter f l.
Proof.
  induction l as [| x l IH]; [reflexivity |].
  cbn. destruct (f x) eqn:Hx; cbn; [rewrite Hx, IH; reflexivity | exact IH].
Qed.

(** X1. The public copy of a dict has no key starting with an underscore,
    keeps every other entry with its value, and copying twice changes
    nothing more. *)
Theorem copy_public_item_hides_internal (item : dict) :
  (forall k, In k (PyDict.keys (_copy_public_item item)) ->
             startswith "_" k = false)
  /\ (forall k, startswith "_" k = false ->
                PyDict.get k (_copy_public_item item) = PyDict.get k item)
  /\ (forall k, startswith "_" k = true ->
                PyDict.get k (_copy_public_item item) = None)
  /\ _copy_public_item (_copy_public_item item) = _copy_public_item item.
Proof.
  split; [intros k; apply copy_public_keys |].
  split; [intros k; apply copy_public_get |].
  split.
  - intros k Hk. apply get_none_iff. intros Hin.
    apply copy_public_keys in Hin. congruence.
  - apply filter_idem.
Qed.

(** ** The loader *)

Section LowerFacts.
Local Open Scope string_scope.

Lemma lower_char_idem (c : ascii) : lower_char (lower_char c) = lower_char c.
Proof. destruct c as [[] [] [] [] [] [] [] []]; reflexivity. Qed.

Lemma lower_idem (s : string) : lower (lower s) = lower s.
Proof.
  induction s as [| c s IH]; [reflexivity |].
  cbn. rewrite lower_char_idem, IH. reflexivity.
Qed.

Lemma lower_append (a b : string) : lower (a ++ b) = lower a ++ lower b.
Proof. induction a as [| c a IH]; cbn; [reflexivity | rewrite IH; reflexivity]. Qed.

Lemma lower_join_space (parts : list string) :
  lower (join " " parts) = join " " (map lower parts).
Proof.
  induction parts as [| p rest IH]; [reflexivity |].
  destruct rest as [| r rest]; [reflexivity |].
  cbn [join map] in *. rewrite !lower_append, IH. reflexivity.
Qed.

Lemma map_lower_filter_lowered (parts : list string) :
  map lower (filter (fun s => negb (is_empty s)) (map lower parts))
  = filter (fun s => negb (is_empty s)) (map lower parts).
Proof.
  induction parts as [| p rest IH]; [reflexivity |].
  cbn [map filter]. destruct (negb (is_empty (lower p))); [| exact IH].
  cbn [map]. rewrite lower_idem, IH. reflexivity.
Qed.

End LowerFacts.

Lemma load_row_search_lowercase (py_float : string -> option pyfloat) (row : csv_row)
  (it : IkeaItem) :
  load_row py_float row = Some it -> lower (_search it) = _search it.
Proof.
  unfold load_row.
  destruct (is_empty (cell_text "item_id" row)); [discriminate |].
  destruct (is_empty (cell_text "name" row)); [discriminate |].
  intros Hsome. lazy beta iota zeta delta [orb] in Hsome.
  match type of Hsome with
  | Some ?loaded = Some _ => assert (Hit : it = loaded) by congruence
  end.
  clear Hsome. subst it. lazy beta iota zeta delta [_search].
  rewrite lower_join_space.
  match goal with
  | |- context [filter _ [lower ?a; lower ?b; lower ?c; lower ?d; lower ?e; lower ?f]] =>
      change [lower a; lower b; lower c; lower d; lower e; lower f]
        with (map lower [a; b; c; d; e; f])
  end.
  rewrite map_lower_filter_lowered. reflexivity.
Qed.

(** X2. Every item the loader keeps has a trimmed, non-empty item_id and
    name, and a searchable text that is lowercase and starts with the
    lowercase item_id. *)
Theorem loaded_items_are_well_formed
  (py_float : string -> option pyfloat) (csv_file : option (list csv_row))
  (it : IkeaItem) :
  In it (_load_ikea_catalog py_float csv_file) ->
  strip (item_id it) = item_id it /\ item_id it <> ""
  /\ strip (name it) = name it /\ name it <> ""
  /\ startswith (lower (item_id it)) (_search it) = true
  /\ lower (_search it) = _search it.
Proof.
  intros Hin.
  destruct (loaded_items_ok py_float csv_file it Hin) as (H1 & H2 & H3 & H4 & H5).
  repeat (split; [assumption |]).
  destruct csv_file as [rows |]; [| destruct Hin].
  cbn in Hin. apply load_rows_in in Hin. destruct Hin as (row & _ & Hrow).
  exact (load_row_search_lowercase py_float row it Hrow).
Qed.

Lemma loaded_items_are_well_formed_witness :
  In demo_first (_load_ikea_catalog demo_float (Some demo_rows))
  /\ strip (item_id demo_first) = item_id demo_first
  /\ lower (_search demo_first) = _search demo_first.
Proof.
  assert (Hin : In demo_first (_load_ikea_catalog demo_float (Some demo_rows))).
  { left. reflexivity. }
  split; [exact Hin |].
  destruct (loaded_items_are_well_formed demo_float (Some demo_rows) demo_first Hin)
    as (H1 & _ & _ & _ & _ & H6).
  split; assumption.
Defined.

(** X3. A row of the dataset is kept exactly when its trimmed item_id and
    name are both non-empty; the kept item carries these trimmed texts, and
    a missing file gives the empty dataset. *)
Theorem loader_keeps_rows_with_id_and_name
  (py_float : string -> option pyfloat) (rows : list csv_row) (row : csv_row) :
  In row rows ->
  ((cell_text "item_id" row <> "" /\ cell_text "name" row <> "") <->
   exists it,
     load_row py_float row = Some it
     /\ In it (_load_ikea_catalog py_float (Some rows))
     /\ item_id it = cell_text "item_id" row
     /\ name it = cell_text "name" row)
  /\ (List.length (_load_ikea_catalog py_float (Some rows)) <= List.length rows)%nat
  /\ _load_ikea_catalog py_float None = [].
Proof.
  intros Hrow. split; [| split; [| reflexivity]].
  - split.
    + intros (Hid & Hname).
      apply is_empty_false in Hid. apply is_empty_false in Hname.
      assert (Hsome : exists it, load_row py_float row = Some it
                                 /\ item_id it = cell_text "item_id" row
                                 /\ name it = cell_text "name" row).
      { unfold load_row. rewrite Hid, Hname.
        lazy beta iota zeta delta [orb]. eexists. split; [reflexivity |].
        split; reflexivity. }
      destruct Hsome as (it & Hload & Hi & Hn).
      exists it. split; [exact Hload |]. split; [| split; assumption].
      cbn. apply load_rows_in. exists row. split; assumption.
    + intros (it & Hload & _ & _ & _).
      unfold load_row in Hload.
      destruct (is_empty (cell_text "item_id" row)) eqn:Hid; [discriminate |].
      destruct (is_empty (cell_text "name" row)) eqn:Hname; [discriminate |].
      split; apply is_empty_false; assumption.
  - cbn. clear Hrow. induction rows as [| r rows IH]; cbn; [lia |].
    destruct (load_row py_float r); cbn; lia.
Qed.

Lemma loader_keeps_rows_with_id_and_name_witness :
  In [("item_id", Some ""); ("name", Some "nameless")] demo_rows
  /\ (List.length (_load_ikea_catalog demo_float (Some demo_rows))
      <= List.length demo_rows)%nat
  /\ load_row demo_float [("item_id", Some ""); ("name", Some "nameless")] = None.
Proof.
  assert (Hin : In [("item_id", Some ""); ("name", Some "nameless")] demo_rows).
  { right. left. reflexivity. }
  split; [exact Hin |].
  split.
  - exact (proj1 (proj2 (loader_keeps_rows_with_id_and_name demo_float demo_rows
                           _ Hin))).
  - reflexivity.
Defined.

(** ** The limit and the normal form of the query *)

Lemma search_with_limit_ranked (items : list IkeaItem) (query : string)
  (limit : nat) :
  search_with_limit items query limit
  = map (fun p => public_copy (snd p))
      (firstn limit
         (if is_empty (lower (strip query)) then []
          else ranked_entries items (lower (strip query)))).
Proof.
  unfold search_with_limit, ranked_entries.
  destruct items as [| x items].
  - destruct (is_empty (lower (strip query))); cbn; rewrite firstn_nil; reflexivity.
  - destruct (is_empty (lower (strip query))); [rewrite firstn_nil; reflexivity |].
    destruct (score_all (lower (strip query)) (query_words (lower (strip query)))
                (x :: items)); [rewrite firstn_nil; reflexivity | reflexivity].
Qed.



Lemma normal_form_idem (query : string) :
  lower (strip (lower (strip query))) = lower (strip query).
Proof. rewrite strip_lower, strip_idem, lower_idem. reflexivity. Qed.

(** X5. The search depends on the query only through its trimmed lowercase
    form: letter case and surrounding whitespace make no difference, and a
    query that is blank gives no result. *)
Theorem search_ignores_case_and_padding
  (items : list IkeaItem) (query : string) :
  _search_ikea_items items query
  = _search_ikea_items items (lower (strip query))
  /\ (forall other, lower (strip other) = lower (strip query) ->
      _search_ikea_items items other = _search_ikea_items items query)
  /\ (strip query = "" -> _search_ikea_items items query = []).
Proof.
  unfold _search_ikea_items. split; [| split].
  - rewrite !search_with_limit_ranked, normal_form_idem. reflexivity.
  - intros other Heq. rewrite !search_with_limit_ranked, Heq. reflexivity.
  - intros Hblank. rewrite search_with_limit_ranked, Hblank. reflexivity.
Qed.

(** ** Product lookup: other arguments, and the keys of a result *)

(** X6. [lookup_product] on an argument that is no text: a falsy value
    (None, False, 0, an empty list or dict) is treated as the empty query
    and answered with the prompt; any truthy value raises [AttributeError]
    for the missing method [strip]. *)
Theorem lookup_product_non_text_argument
  (CATALOG : list CatalogItem) (IKEA_ITEMS : list IkeaItem) (query : value) :
  (forall s, query <> VStr s) ->
  (truthy query = false ->
   lookup_product CATALOG IKEA_ITEMS query = Ret (failure prompt_text))
  /\ (truthy query = true ->
      lookup_product CATALOG IKEA_ITEMS query
      = Raise (no_attribute query "strip")).
Proof.
  intros Hnot. unfold lookup_product, py_or.
  split; intros Htruth; rewrite Htruth; [reflexivity |].
  destruct query; try reflexivity.
  exfalso. exact (Hnot s eq_refl).
Qed.

Lemma lookup_product_non_text_argument_witness :
  lookup_product demo_catalog demo_items VNone = Ret (failure prompt_text)
  /\ lookup_product demo_catalog demo_items (VList [VStr "sofa"])
     = Raise (AttributeError "'list' object has no attribute 'strip'").
Proof.
  split.
  - apply (lookup_product_non_text_argument demo_catalog demo_items VNone);
      [discriminate | reflexivity].
  - apply (lookup_product_non_text_argument demo_catalog demo_items
             (VList [VStr "sofa"])); [discriminate | reflexivity].
Defined.


(** ** Repair estimate: failures, defaults and bounds *)

(** X8. On text arguments [estimate_repair] answers [ok: false], and then
    without raising, exactly when the rules resolve to no numbers: with the
    message naming the issue when the issue has no rules, and with the
    message naming the size when the chosen bucket lacks it.  When the rules
    resolve to numbers, a result is [ok: true] around the tiers of these
    numbers. *)
Theorem estimate_repair_fails_exactly_when_unresolved
  (PR : price_rules) (issue material size : string) :
  (spec_resolve PR (norm_issue issue) (norm_material material) (norm_size size)
   = None ->
   exists res : dict,
     estimate_repair PR (VStr issue) (VStr material) (VStr size) = Ret res
     /\ PyDict.get "ok" res = Some (VBool false)
     /\ (PyDict.get (norm_issue issue) PR = None
         \/ PyDict.get (norm_issue issue) PR = Some [] ->
         res = failure ("No pricing rule for issue '" ++ norm_issue issue ++ "'."))
     /\ (forall rules bucket,
           PyDict.get (norm_issue issue) PR = Some rules ->
           spec_bucket rules (norm_material material) = Some bucket ->
           res = size_failure (norm_size size)))
  /\ (forall numbers : Bucket,
        spec_resolve PR (norm_issue issue) (norm_material material)
          (norm_size size) = Some numbers ->
        forall res : dict,
          estimate_repair PR (VStr issue) (VStr material) (VStr size) = Ret res ->
          PyDict.get "ok" res = Some (VBool true)
          /\ exists tiers : dict,
               tiers_of numbers = Ret tiers
               /\ PyDict.get "estimate" res = Some (VDict tiers)).
Proof.
  split.
  - rewrite estimate_repair_text. unfold spec_resolve.
    destruct (PyDict.get (norm_issue issue) PR) as [[| [k0 b0] rules] |] eqn:Hissue.
    + intros _. eexists. split; [reflexivity |]. split; [reflexivity |].
      split; [reflexivity |]. intros rules bucket [= <-]. discriminate.
    + rewrite spec_bucket_first. cbv zeta.
      set (bucket := match PyDict.get (norm_material material) ((k0, b0) :: rules) with
                     | Some b => b
                     | None => match PyDict.get "any" ((k0, b0) :: rules) with
                               | Some b => b
                               | None => b0
                               end
                     end).
      intros Hsize. rewrite Hsize.
      eexists. split; [reflexivity |]. split; [reflexivity |].
      split; [intros [H | H]; discriminate | reflexivity].
    + intros _. eexists. split; [reflexivity |]. split; [reflexivity |].
      split; [reflexivity |]. intros rules bucket H. discriminate.
  - intros numbers Hres res.
    rewrite (estimate_repair_resolved _ _ _ _ _ Hres). unfold estimate_success.
    destruct (tiers_of numbers) as [tiers |]; cbn [bind]; [| discriminate].
    intros [= <-]. split; [reflexivity |].
    exists tiers. split; reflexivity.
Qed.

(** X9. The optional arguments of [estimate_repair]: a missing, null or
    empty material is "any" and a missing, null or empty size is "medium";
    and two calls whose arguments agree after trimming and lowercasing give
    the same result. *)
Theorem estimate_repair_normalizes_arguments
  (PR : price_rules) (issue : value) :
  estimate_repair PR issue VNone VNone
  = estimate_repair PR issue (VStr "any") (VStr "medium")
  /\ estimate_repair PR issue (VStr "") (VStr "")
     = estimate_repair PR issue (VStr "any") (VStr "medium")
  /\ (forall i1 i2 m1 m2 s1 s2 : string,
        norm_issue i1 = norm_issue i2 ->
        norm_material m1 = norm_material m2 ->
        norm_size s1 = norm_size s2 ->
        estimate_repair PR (VStr i1) (VStr m1) (VStr s1)
        = estimate_repair PR (VStr i2) (VStr m2) (VStr s2)).
Proof.
  split; [reflexivity |]. split; [reflexivity |].
  intros i1 i2 m1 m2 s1 s2 Hi Hm Hs.
  rewrite !estimate_repair_text, Hi, Hm, Hs. reflexivity.
Qed.

(** An [int] up to [2^53] is a double. *)
Lemma nearest_double_small_int (m : Z) :
  0 <= m <= 2 ^ 53 -> (nearest_double (inject_Z m) == inject_Z m)%Q.
Proof.
  intros [H0 Hm]. unfold nearest_double. rewrite Qred_correct.
  destruct (Z.eq_dec m 0) as [-> | Hne]; [reflexivity |].
  assert (Hpos : (0 < inject_Z m)%Q).
  { change 0%Q with (inject_Z 0). rewrite <- Zlt_Qlt. lia. }
  rewrite (round_nearest_pos _ Hpos).
  assert (E : (inject_Z m == inject_Z m * pow2 0)%Q).
  { change (pow2 0) with 1%Q. rewrite Qmult_1_r. reflexivity. }
  rewrite (round_pos_Qeq _ _ Hpos E).
  rewrite round_pos_repr53 by lia. symmetry. exact E.
Qed.

Lemma py_round_small_int (m : Z) :
  0 <= m <= 2 ^ 53 -> py_round (float_view (NInt m)) = m.
Proof.
  intros H. cbn [float_view].
  rewrite (py_round_Qeq _ _ (nearest_double_small_int m H)).
  apply py_round_inject.
Qed.

(** X10. For resolved [int] numbers with 0 <= min price <= max price
    <= 2^53 the estimate is returned, the budget price is at most the min
    price, the standard price lies between the min and the max price, and
    the rush price is at least the max price. *)
Theorem estimate_repair_price_bounds
  (PR : price_rules) (issue material size : string)
  (min_p max_p min_d max_d : Z) :
  spec_resolve PR (norm_issue issue) (norm_material material) (norm_size size)
  = Some (int_bucket min_p max_p min_d max_d) ->
  0 <= min_p <= max_p ->
  max_p <= 2 ^ 53 ->
  exists (res : dict) (budget standard rush : Z),
    estimate_repair PR (VStr issue) (VStr material) (VStr size) = Ret res
    /\ price_of "budget" res = Some (VInt budget)
    /\ price_of "standard" res = Some (VInt standard)
    /\ price_of "rush" res = Some (VInt rush)
    /\ 0 <= budget <= min_p
    /\ min_p <= standard <= max_p
    /\ max_p <= rush.
Proof.
  intros Hres Hp Hmax.
  assert (Hbig : 2 ^ 53 <= 2 ^ 1000) by (apply Z.pow_le_mono_r; lia).
  destruct (int_prices_return min_p max_p ltac:(lia) ltac:(lia))
    as (pb & ps & pr & Eb & Es & Er).
  assert (Q0 : (0 <= inject_Z min_p)%Q).
  { change 0%Q with (inject_Z 0). rewrite <- Zle_Qle. lia. }
  assert (Q1 : (inject_Z min_p <= inject_Z max_p)%Q) by (rewrite <- Zle_Qle; lia).
  assert (Q2 : (0 <= inject_Z max_p)%Q) by lra.
  pose proof (budget_price_ret (NInt min_p) _ _ eq_refl Q0 Eb) as Hb.
  pose proof (standard_price_ret (NInt min_p) (NInt max_p) _ _ _
                eq_refl eq_refl Q1 Es) as Hs.
  pose proof (rush_price_ret (NInt max_p) _ _ eq_refl Q2 Er) as Hr.
  rewrite (py_round_small_int min_p) in Hb, Hs by lia.
  rewrite (py_round_small_int max_p) in Hs, Hr by lia.
  rewrite (estimate_repair_resolved _ _ _ _ _ Hres).
  unfold estimate_success, int_bucket.
  rewrite tiers_of_int_days, Eb, Es, Er. cbn [bind].
  eexists _, pb, ps, pr. split; [reflexivity |].
  repeat (split; [reflexivity |]). lia.
Qed.

Lemma estimate_repair_price_bounds_witness :
  spec_resolve demo_rules (norm_issue "scratch") (norm_material "glass")
    (norm_size "Medium ") = Some (int_bucket 35 55 2 3)
  /\ exists (res : dict) (budget standard rush : Z),
    estimate_repair demo_rules (VStr "scratch") (VStr "glass") (VStr "Medium ")
    = Ret res
    /\ price_of "budget" res = Some (VInt budget)
    /\ price_of "standard" res = Some (VInt standard)
    /\ price_of "rush" res = Some (VInt rush)
    /\ 0 <= budget <= 35
    /\ 35 <= standard <= 55
    /\ 55 <= rush.
Proof.
  split; [reflexivity |].
  apply (estimate_repair_price_bounds demo_rules "scratch" "glass" "Medium "
           35 55 2 3); [reflexivity | lia | apply (Z.pow_le_mono_r 2 6 53); lia].
Defined.

(** X11. The days of the tiers in a result, for resolved [int] numbers with
    1 <= min days <= max days: every range is well formed and starts at one
    day or more; the budget range always ends at min days + 1, whatever the
    max days; and the rush range starts and ends no later than the standard
    one. *)
Theorem estimate_repair_days_bounds
  (PR : price_rules) (issue material size : string)
  (min_p max_p min_d max_d : Z) (res : dict) :
  spec_resolve PR (norm_issue issue) (norm_material material) (norm_size size)
  = Some (int_bucket min_p max_p min_d max_d) ->
  1 <= min_d <= max_d ->
  estimate_repair PR (VStr issue) (VStr material) (VStr size) = Ret res ->
  exists rush_lo rush_hi : Z,
    days_of "budget" res = Some (VList [VInt min_d; VInt (min_d + 1)])
    /\ days_of "standard" res = Some (VList [VInt min_d; VInt max_d])
    /\ days_of "rush" res = Some (VList [VInt rush_lo; VInt rush_hi])
    /\ 1 <= rush_lo <= rush_hi
    /\ rush_lo <= min_d
    /\ rush_hi <= max_d
    /\ (min_d = max_d -> max_d < min_d + 1).
Proof.
  intros Hres Hd.
  rewrite (estimate_repair_resolved _ _ _ _ _ Hres).
  unfold estimate_success, int_bucket. rewrite tiers_of_int_days.
  destruct (budget_price (NInt min_p)) as [pb |]; cbn [bind]; [| discriminate].
  destruct (standard_price (NInt min_p) (NInt max_p)) as [ps |]; cbn [bind];
    [| discriminate].
  destruct (rush_price (NInt max_p)) as [pr |]; cbn [bind]; [| discriminate].
  intros [= <-].
  exists (Z.max 1 (min_d - 1)), (Z.max 1 (max_d - 1)).
  split.
  { unfold days_of, at_path. cbn [PyDict.get String.eqb Ascii.eqb Bool.eqb].
    rewrite Z.max_r by lia. reflexivity. }
  repeat (split; [reflexivity |]).
  lia.
Qed.

Lemma estimate_repair_days_bounds_witness :
  spec_resolve demo_rules (norm_issue "scratch") (norm_material "metal")
    (norm_size "") = Some (int_bucket 25 40 1 1)
  /\ exists (res : dict),
    estimate_repair demo_rules (VStr "scratch") (VStr "metal") (VStr "") = Ret res
    /\ days_of "budget" res = Some (VList [VInt 1; VInt 2])
    /\ days_of "standard" res = Some (VList [VInt 1; VInt 1]).
Proof.
  split; [reflexivity |].
  assert (Hrun : exists res,
             estimate_repair demo_rules (VStr "scratch") (VStr "metal") (VStr "")
             = Ret res).
  { eexists. vm_compute. reflexivity. }
  destruct Hrun as (res & Hrun).
  destruct (estimate_repair_days_bounds demo_rules "scratch" "metal" ""
              25 40 1 1 res eq_refl ltac:(lia) Hrun)
    as (lo & hi & Hb & Hs & _).
  exists res. repeat split; assumption.
Defined.

(** ** The loader's prices *)

(** The conversion of a price goes through the float product: 50, 250 and
    1050 riyals give 13.33, 66.67 and 280.03 dollars, where the exact
    products 13.335, 66.675 and 280.035 would each round to the even digit
    above. *)
Example converted_prices :
  map (fun p => round2 (fmul (Finite (inject_Z p)) SAR_TO_USD)) [50; 250; 1050]
  = map (fun q => Finite (nearest_double q))
      [1333 # 100; 6667 # 100; 28003 # 100]%Q.
Proof. vm_compute. reflexivity. Qed.


(* ================================================================== *)
(** * Further properties of app.py *)

(** ** The dispatcher and the logs *)

Lemma call_tool_body_effects
  (C : list CatalogItem) (PR : price_rules) (I : list IkeaItem)
  (name : string) (args : dict) (w : World) :
  snd (call_tool_body C PR I name args w) = w
  \/ (In name RECORD_TOOLS
      /\ exists res entry,
           fst (call_tool_body C PR I name args w) = Ret res
           /\ PyDict.get "ok" res = Some (VBool true)
           /\ appended_one w (snd (call_tool_body C PR I name args w)) entry).
Proof.
  unfold call_tool_body.
  destruct (String.eqb_spec name "lookup_product") as [-> | _].
  { left. destruct (bind_kwargs sig_lookup_product args) as [[| q [| ? ?]] | e];
      reflexivity. }
  destruct (String.eqb_spec name "estimate_repair") as [-> | _].
  { left.
    destruct (bind_kwargs sig_estimate_repair args)
      as [[| a [| b [| c [| ? ?]]]] | e]; reflexivity. }
  destruct (String.eqb_spec name "record_customer_interest") as [-> | _].
  { destruct (bind_kwargs sig_record_customer_interest args)
      as [[| a [| b [| c [| ? ?]]]] | e]; try (left; reflexivity).
    right. split; [cbn; tauto |]. eexists _, _.
    split; [reflexivity |]. split; [reflexivity |].
    unfold appended_one. cbn [fst snd clock clock_reads leads feedback
                               service_feedback record_customer_interest
                               record_feedback record_service_feedback done].
    split; [reflexivity |]. split; [reflexivity |].
    split; [| left; repeat split]. reflexivity. }
  destruct (String.eqb_spec name "record_feedback") as [-> | _].
  { destruct (bind_kwargs sig_record_feedback args) as [[| q [| ? ?]] | e];
      try (left; reflexivity).
    right. split; [cbn; tauto |]. eexists _, _.
    split; [reflexivity |]. split; [reflexivity |].
    unfold appended_one. cbn [fst snd clock clock_reads leads feedback
                               service_feedback record_customer_interest
                               record_feedback record_service_feedback done].
    split; [reflexivity |]. split; [reflexivity |].
    split; [| right; left; repeat split]. reflexivity. }
  destruct (String.eqb_spec name "record_service_feedback") as [-> | _].
  { destruct (bind_kwargs sig_record_service_feedback args)
      as [[| a [| b [| c [| d [| e' [| ? ?]]]]]] | e]; try (left; reflexivity).
    right. split; [cbn; tauto |]. eexists _, _.
    split; [reflexivity |]. split; [reflexivity |].
    unfold appended_one. cbn [fst snd clock clock_reads leads feedback
                               service_feedback record_customer_interest
                               record_feedback record_service_feedback done].
    split; [reflexivity |]. split; [reflexivity |].
    split; [| right; right; repeat split]. reflexivity. }
  left. reflexivity.
Qed.

(** X12. What a dispatch does to the logs: either nothing at all, or the
    tool is one of the three recording tools, the result is [ok: true] and
    exactly one log got exactly one entry, stamped with the time read.  So
    a lookup, an estimate, an unknown tool, a failure result and a fault
    all leave the logs as they were. *)
Theorem call_tool_writes_at_most_one_entry
  (CATALOG : list CatalogItem) (PRICE_RULES : price_rules)
  (IKEA_ITEMS : list IkeaItem) (name : string) (args : dict) (w : World) :
  (snd (_call_tool CATALOG PRICE_RULES IKEA_ITEMS name args w) = w
   \/ (In name RECORD_TOOLS
       /\ exists res entry,
            fst (_call_tool CATALOG PRICE_RULES IKEA_ITEMS name args w) = Ret res
            /\ PyDict.get "ok" res = Some (VBool true)
            /\ appended_one w
                 (snd (_call_tool CATALOG PRICE_RULES IKEA_ITEMS name args w))
                 entry))
  /\ (~ In name RECORD_TOOLS ->
      snd (_call_tool CATALOG PRICE_RULES IKEA_ITEMS name args w) = w)
  /\ (forall res,
        fst (_call_tool CATALOG PRICE_RULES IKEA_ITEMS name args w) = Ret res ->
        PyDict.get "ok" res = Some (VBool false) ->
        snd (_call_tool CATALOG PRICE_RULES IKEA_ITEMS name args w) = w)
  /\ (forall e,
        fst (_call_tool CATALOG PRICE_RULES IKEA_ITEMS name args w) = Raise e ->
        snd (_call_tool CATALOG PRICE_RULES IKEA_ITEMS name args w) = w).
Proof.
  assert (Hmain :
    snd (_call_tool CATALOG PRICE_RULES IKEA_ITEMS name args w) = w
    \/ (In name RECORD_TOOLS
        /\ exists res entry,
             fst (_call_tool CATALOG PRICE_RULES IKEA_ITEMS name args w) = Ret res
             /\ PyDict.get "ok" res = Some (VBool true)
             /\ appended_one w
                  (snd (_call_tool CATALOG PRICE_RULES IKEA_ITEMS name args w))
                  entry)).
  { unfold _call_tool.
    destruct (call_tool_body_effects CATALOG PRICE_RULES IKEA_ITEMS name args w)
      as [Hsame | (Hrec & res & entry & Hfst & Hok & Happ)].
    - left.
      destruct (call_tool_body CATALOG PRICE_RULES IKEA_ITEMS name args w)
        as [[r | [t | t | t | t | t | t]] w0]; exact Hsame.
    - right. split; [exact Hrec |]. exists res, entry.
      destruct (call_tool_body CATALOG PRICE_RULES IKEA_ITEMS name args w)
        as [[r | e] w0]; cbn [fst snd] in *; [| discriminate].
      split; [exact Hfst | split; [exact Hok | exact Happ]]. }
  split; [exact Hmain |].
  split; [| split].
  - intros Hnot. destruct Hmain as [H | (Hrec & _)]; [exact H | contradiction].
  - intros res Hres Hfalse.
    destruct Hmain as [H | (_ & res' & entry & Hres' & Hok & _)]; [exact H |].
    congruence.
  - intros e He.
    destruct Hmain as [H | (_ & res' & entry & Hres' & _)]; [exact H |].
    congruence.
Qed.

Example call_tool_records_a_lead :
  let r := _call_tool demo_catalog demo_rules [] "record_customer_interest"
             [("name", VStr "Ana"); ("message", VStr "sofa");
              ("email", VStr "ana@example.org")] demo_world in
  leads (snd r)
  = [[("ts", VStr "2024-05-01T10:00:00"); ("email", VStr "ana@example.org");
      ("name", VStr "Ana"); ("message", VStr "sofa")]]
  /\ feedback (snd r) = [] /\ service_feedback (snd r) = [].
Proof. repeat split. Qed.
